(** * RequirementDecomposer: the batch pipeline and its JSON / text handling

    A shallow embedding of the Python sources

      - [requirement_decomposer.py]  (decomposer and its batch driver),
      - [evaluater.py]               (evaluator),
      - [tools/extractor.py]         (content extraction, metric records,
                                      spreadsheet access),
      - [tools/metrics.py]           (alignment of predictions and references),

    followed by the properties the specification states about them and by
    further properties of the same code.

    Conventions.  A Python [str] is a list of Unicode code points; a value
    obtained from [json.load] is a [json]; an exception that leaves a function
    is an explicit [Raise]; [print] is an event appended to a log; the chat
    endpoint is an oracle indexed by the number of the request.

    The standard output is taken to be in UTF-8.  The exceptions by which
    the interpreter enforces its limits (a lone surrogate on the standard
    output, an integer of more than 4300 digits, the recursion limit) are
    not part of the embedding; the section on the limits of the interpreter
    describes the inputs that stay clear of them, and the properties that
    say what a run returns are stated for these inputs. *)

From Stdlib Require Import List Bool Arith NArith ZArith Lia.
From Stdlib Require Import Ascii String.
From Stdlib Require Import PrimFloat.
From Stdlib Require SpecFloat FloatOps.
From Stdlib Require Import Sorted.
From Stdlib Require Decimal DecimalFacts DecimalPos.
Import ListNotations.


(* ===================================================================== *)
(** * Python strings                                                      *)
(* ===================================================================== *)

(** One element of a Python [str]: a code point. *)
Definition char := N.

(** A Python [str]. *)
Definition str := list char.

(** Decoding of the UTF-8 bytes of a literal of this file into code points;
    used only to write the source's string constants legibly. *)
Fixpoint utf8_decode (bs : list N) : str :=
  match bs with
  | [] => []
  | b0 :: r0 =>
      if (b0 <? 0x80)%N then b0 :: utf8_decode r0
      else if (b0 <? 0xE0)%N then
        match r0 with
        | b1 :: r1 => ((b0 - 0xC0) * 64 + (b1 - 0x80))%N :: utf8_decode r1
        | _ => []
        end
      else if (b0 <? 0xF0)%N then
        match r0 with
        | b1 :: b2 :: r2 =>
            ((b0 - 0xE0) * 4096 + (b1 - 0x80) * 64 + (b2 - 0x80))%N
              :: utf8_decode r2
        | _ => []
        end
      else
        match r0 with
        | b1 :: b2 :: b3 :: r3 =>
            ((b0 - 0xF0) * 262144 + (b1 - 0x80) * 4096
             + (b2 - 0x80) * 64 + (b3 - 0x80))%N :: utf8_decode r3
        | _ => []
        end
  end.

Definition py (s : string) : str :=
  utf8_decode (List.map N_of_ascii (list_ascii_of_string s)).

(** [a == b] on strings. *)
Fixpoint str_eqb (a b : str) : bool :=
  match a, b with
  | [], [] => true
  | x :: a', y :: b' => (x =? y)%N && str_eqb a' b'
  | _, _ => false
  end.

(** [s.startswith(p)], also returning what follows the prefix. *)
Fixpoint strip_prefix (p s : str) : option str :=
  match p with
  | [] => Some s
  | x :: p' =>
      match s with
      | y :: s' => if (x =? y)%N then strip_prefix p' s' else None
      | [] => None
      end
  end.

Definition startswith (s p : str) : bool :=
  match strip_prefix p s with Some _ => true | None => false end.

(** [needle in hay] for two strings: [needle] occurs as a substring. *)
Fixpoint str_contains (needle hay : str) : bool :=
  startswith hay needle ||
  match hay with
  | [] => false
  | _ :: hay' => str_contains needle hay'
  end.

(** [hay.find(needle)]: the least index at which [needle] occurs. *)
Fixpoint str_find (needle hay : str) : option nat :=
  if startswith hay needle then Some 0
  else
    match hay with
    | [] => None
    | _ :: hay' => option_map S (str_find needle hay')
    end.

(** [c.isspace()], which is also what [\s] matches in a [str] pattern:
    the ASCII white space and separators 0x1C-0x1F, and the Unicode
    characters of category white space. *)
Definition isspace (c : char) : bool :=
  ((0x09 <=? c) && (c <=? 0x0D) || (0x1C <=? c) && (c <=? 0x20)
   || (c =? 0x85) || (c =? 0xA0) || (c =? 0x1680)
   || (0x2000 <=? c) && (c <=? 0x200A)
   || (c =? 0x2028) || (c =? 0x2029) || (c =? 0x202F) || (c =? 0x205F)
   || (c =? 0x3000))%N.

Fixpoint lstrip (s : str) : str :=
  match s with
  | c :: s' => if isspace c then lstrip s' else s
  | [] => []
  end.

Definition rstrip (s : str) : str := rev (lstrip (rev s)).

(** [s.strip()] *)
Definition strip (s : str) : str := rstrip (lstrip s).

(** [sep.join(parts)] for a list of strings. *)
Fixpoint join (sep : str) (parts : list str) : str :=
  match parts with
  | [] => []
  | [p] => p
  | p :: ps => p ++ sep ++ join sep ps
  end.

(** The text of [s] before the first occurrence of the character [c]. *)
Fixpoint take_until (c : char) (s : str) : str :=
  match s with
  | [] => []
  | x :: s' => if (x =? c)%N then [] else x :: take_until c s'
  end.

(* ===================================================================== *)
(** * Exceptions                                                          *)
(* ===================================================================== *)

Inductive exn : Type :=
| TypeError
| AttributeError
| KeyError
| FileNotFoundError
| JSONDecodeError
| UnicodeEncodeError.

(** The outcome of a call that may raise. *)
Inductive result (A : Type) : Type :=
| Ok (a : A)
| Raise (e : exn).
Arguments Ok {A} a.
Arguments Raise {A} e.

Definition bind {A B} (r : result A) (k : A -> result B) : result B :=
  match r with
  | Ok a => k a
  | Raise e => Raise e
  end.

Notation "x <- r ;; k" := (bind r (fun x => k))
  (at level 61, r at next level, right associativity).

(* ===================================================================== *)
(** * Regular expressions, as far as [extract_content] uses them          *)
(* ===================================================================== *)

Module re.

(** Character sets. *)
Inductive category : Type :=
| Any     (* [.] under [re.DOTALL] *)
| Space.  (* [\s] *)

Definition in_category (cat : category) (c : char) : bool :=
  match cat with
  | Any => true
  | Space => isspace c
  end.

(** What may stand inside the look-ahead of the pattern. *)
Inductive assertion : Type :=
| ALiteral (c : char)   (* the next character is [c] *)
| AEnd.                 (* [\Z]: at the end of the string *)

(** The compiled pattern: a sequence of operations. *)
Inductive op : Type :=
| Literal (c : char)
| MaxRepeat (cat : category)          (* [x*], greedy *)
| MinRepeat (cat : category)          (* [x*?], lazy *)
| MarkOpen                            (* start of group 1 *)
| MarkClose                           (* end of group 1 *)
| Assert (alts : list assertion).     (* [(?=a|b)] *)

Definition holds (a : assertion) (s : str) : bool :=
  match a, s with
  | AEnd, [] => true
  | AEnd, _ :: _ => false
  | ALiteral c, x :: _ => (c =? x)%N
  | ALiteral _, [] => false
  end.

(** The positions of group 1 in a successful match. *)
Definition marks := (nat * nat)%type.

(** Backtracking match of [ops] against the text [s] that starts at
    position [pos]; the first successful alternative wins. *)
Fixpoint run (ops : list op) (s : str) (pos : nat) (m : marks)
  : option marks :=
  match ops with
  | [] => Some m
  | Literal c :: k =>
      match s with
      | x :: s' => if (c =? x)%N then run k s' (S pos) m else None
      | [] => None
      end
  | MaxRepeat cat :: k =>
      (fix greedy (s : str) (pos : nat) : option marks :=
         match s with
         | x :: s' =>
             if in_category cat x then
               match greedy s' (S pos) with
               | Some r => Some r
               | None => run k s pos m
               end
             else run k s pos m
         | [] => run k s pos m
         end) s pos
  | MinRepeat cat :: k =>
      (fix lazy (s : str) (pos : nat) : option marks :=
         match run k s pos m with
         | Some r => Some r
         | None =>
             match s with
             | x :: s' => if in_category cat x then lazy s' (S pos) else None
             | [] => None
             end
         end) s pos
  | MarkOpen :: k => run k s pos (pos, snd m)
  | MarkClose :: k => run k s pos (fst m, pos)
  | Assert alts :: k =>
      if existsb (fun a => holds a s) alts then run k s pos m else None
  end.

(** [re.search]: the match that starts leftmost. *)
Fixpoint search_from (ops : list op) (s : str) (pos : nat) : option marks :=
  match run ops s pos (0, 0) with
  | Some r => Some r
  | None =>
      match s with
      | [] => None
      | _ :: s' => search_from ops s' (S pos)
      end
  end.

Definition search (ops : list op) (text : str) : option marks :=
  search_from ops text 0.

(** [match.group(1)] *)
Definition group1 (text : str) (m : marks) : str :=
  firstn (snd m - fst m) (skipn (fst m) text).

(** [re.escape(s)] followed by compilation: every character of [s]
    stands for itself. *)
Definition escaped (s : str) : list op := List.map Literal s.

End re.

(* ===================================================================== *)
(** * Values exchanged through JSON                                       *)
(* ===================================================================== *)

(** A Python object as [json.load] builds it.  A [dict] keeps its items in
    insertion order; its keys are strings. *)
Unset Elimination Schemes.
Inductive json : Type :=
| JNull                          (* None *)
| JBool (b : bool)
| JInt (z : Z)
| JFloat (f : float)
| JStr (s : str)
| JList (l : list json)
| JDict (d : list (str * json)).
Set Elimination Schemes.

(** [bool(v)], the test made by [if v:] and [not v]. *)
Definition truthy (v : json) : bool :=
  match v with
  | JNull => false
  | JBool b => b
  | JInt z => negb (z =? 0)%Z
  | JFloat f => negb (PrimFloat.eqb f 0%float)
  | JStr s => match s with [] => false | _ :: _ => true end
  | JList l => match l with [] => false | _ :: _ => true end
  | JDict d => match d with [] => false | _ :: _ => true end
  end.

(** An [Optional[...]] result: [None] is falsy, a value has its own truth. *)
Definition truthy_opt (o : option json) : bool :=
  match o with
  | None => false
  | Some v => truthy v
  end.

(** ** Dictionaries *)

Definition pydict := list (str * json).

(** [d[k]], when the key is present. *)
Fixpoint dict_lookup (d : pydict) (k : str) : option json :=
  match d with
  | [] => None
  | (k', v) :: d' => if str_eqb k' k then Some v else dict_lookup d' k
  end.

(** [k in d] *)
Definition dict_has (d : pydict) (k : str) : bool :=
  match dict_lookup d k with Some _ => true | None => false end.

(** [d[k] = v]: an existing key keeps its place, a new one goes last. *)
Fixpoint dict_set (d : pydict) (k : str) (v : json) : pydict :=
  match d with
  | [] => [(k, v)]
  | (k', v') :: d' =>
      if str_eqb k' k then (k', v) :: d' else (k', v') :: dict_set d' k v
  end.

(** [dict(pairs)] *)
Definition dict_of_pairs (pairs : list (str * json)) : pydict :=
  fold_left (fun d kv => dict_set d (fst kv) (snd kv)) pairs [].

(** [v.get(k)]: only a [dict] has the method; a missing key gives [None]. *)
Definition py_get (v : json) (k : str) : result json :=
  match v with
  | JDict d => Ok (match dict_lookup d k with Some x => x | None => JNull end)
  | _ => Raise AttributeError
  end.

(** [for x in v]: the items a loop over [v] visits. *)
Definition py_iter (v : json) : result (list json) :=
  match v with
  | JList l => Ok l
  | JDict d => Ok (List.map (fun kv => JStr (fst kv)) d)
  | JStr s => Ok (List.map (fun c => JStr [c]) s)
  | _ => Raise TypeError
  end.

(** [isinstance(v, dict)] *)
Definition is_dict (v : json) : bool :=
  match v with JDict _ => true | _ => false end.

(** [isinstance(v, list)] *)
Definition is_list (v : json) : bool :=
  match v with JList _ => true | _ => false end.

(** [k in v] for a string [k] and an arbitrary value [v]. *)
Definition py_in (k : str) (v : json) : result bool :=
  match v with
  | JDict d => Ok (dict_has d k)
  | JStr s => Ok (str_contains k s)
  | JList l =>
      Ok (existsb (fun x => match x with JStr s => str_eqb k s | _ => false end) l)
  | _ => Raise TypeError
  end.

(** [v[k]] for a string [k]. *)
Definition py_subscript (v : json) (k : str) : result json :=
  match v with
  | JDict d =>
      match dict_lookup d k with Some x => Ok x | None => Raise KeyError end
  | _ => Raise TypeError
  end.

(** ** The codec of floating-point numbers

    [float(lexeme)] and [float.__repr__] are the interpreter's; the
    development is parametric in them. *)
Class FloatCodec : Type := {
  float_of_lexeme : str -> float;
  float_repr : float -> str
}.

(** One ASCII character as a code point. *)
Definition ch (a : ascii) : char := N_of_ascii a.

(** The double quote. *)
Definition dquote : char := 0x22%N.

(* ===================================================================== *)
(** * The [json] module of the standard library                           *)
(* ===================================================================== *)

Module Json.

(** ** Decoding: [json.loads]

    The decoder follows [json.decoder] and [json.scanner] (strict mode, no
    hooks).  The limits of the interpreter are left out: the recursion
    limit on deeply nested input and the limit on the number of digits of
    an integer.  The nested loops of the scanner are written with a fuel
    that [loads] sets from the length of the text; [loads_fuel] shows that
    this is always enough. *)

Inductive scan (A : Type) : Type :=
| Parsed (a : A) (rest : str)
| Invalid                        (* JSONDecodeError *)
| OutOfFuel.
Arguments Parsed {A} a rest.
Arguments Invalid {A}.
Arguments OutOfFuel {A}.

Definition scan_map {A B} (f : A -> B) (r : scan A) : scan B :=
  match r with
  | Parsed a rest => Parsed (f a) rest
  | Invalid => Invalid
  | OutOfFuel => OutOfFuel
  end.

(** [WHITESPACE = [ \t\n\r]*] *)
Definition is_ws (c : char) : bool :=
  ((c =? 0x20) || (c =? 0x09) || (c =? 0x0A) || (c =? 0x0D))%N.

Fixpoint skip_ws (s : str) : str :=
  match s with
  | c :: s' => if is_ws c then skip_ws s' else s
  | [] => []
  end.

Definition is_digit (c : char) : bool := ((0x30 <=? c) && (c <=? 0x39))%N.

Definition hex_digit (c : char) : option N :=
  if ((0x30 <=? c) && (c <=? 0x39))%N then Some (c - 0x30)%N
  else if ((0x61 <=? c) && (c <=? 0x66))%N then Some (c - 0x61 + 10)%N
  else if ((0x41 <=? c) && (c <=? 0x46))%N then Some (c - 0x41 + 10)%N
  else None.

Definition hex4 (a b c d : char) : option N :=
  match hex_digit a, hex_digit b, hex_digit c, hex_digit d with
  | Some x, Some y, Some z, Some w => Some (((x * 16 + y) * 16 + z) * 16 + w)%N
  | _, _, _, _ => None
  end.

Definition is_high_surrogate (c : char) : bool :=
  ((0xD800 <=? c) && (c <=? 0xDBFF))%N.
Definition is_low_surrogate (c : char) : bool :=
  ((0xDC00 <=? c) && (c <=? 0xDFFF))%N.
Definition join_surrogates (hi lo : char) : char :=
  (0x10000 + (hi - 0xD800) * 0x400 + (lo - 0xDC00))%N.

(** The character a one-letter escape stands for. *)
Definition unescape (e : char) : option char :=
  if (e =? dquote)%N then Some (dquote)
  else if (e =? ch "\")%N then Some (ch "\")
  else if (e =? ch "/")%N then Some (ch "/")
  else if (e =? ch "b")%N then Some 0x08%N
  else if (e =? ch "f")%N then Some 0x0C%N
  else if (e =? ch "n")%N then Some 0x0A%N
  else if (e =? ch "r")%N then Some 0x0D%N
  else if (e =? ch "t")%N then Some 0x09%N
  else None.

(** [scanstring], strict: the text after an opening quote, up to the
    closing one. *)
Fixpoint scanstring (s : str) : scan str :=
  match s with
  | [] => Invalid
  | c :: s1 =>
      if (c =? dquote)%N then Parsed [] s1
      else if (c =? ch "\")%N then
        match s1 with
        | [] => Invalid
        | e :: s2 =>
            if (e =? ch "u")%N then
              match s2 with
              | h1 :: h2 :: h3 :: h4 :: s3 =>
                  match hex4 h1 h2 h3 h4 with
                  | None => Invalid
                  | Some u =>
                      if is_high_surrogate u then
                        match s3 with
                        | b :: u' :: g1 :: g2 :: g3 :: g4 :: s4 =>
                            if ((b =? ch "\") && (u' =? ch "u"))%N then
                              match hex4 g1 g2 g3 g4 with
                              | None => Invalid
                              | Some u2 =>
                                  if is_low_surrogate u2
                                  then scan_map (cons (join_surrogates u u2))
                                         (scanstring s4)
                                  else scan_map (cons u) (scanstring s3)
                              end
                            else scan_map (cons u) (scanstring s3)
                        | _ => scan_map (cons u) (scanstring s3)
                        end
                      else scan_map (cons u) (scanstring s3)
                  end
              | _ => Invalid
              end
            else
              match unescape e with
              | Some x => scan_map (cons x) (scanstring s2)
              | None => Invalid
              end
        end
      else if (c <? 0x20)%N then Invalid
      else scan_map (cons c) (scanstring s1)
  end.

(** The longest run of digits at the head of [s], and what follows. *)
Fixpoint span_digits (s : str) : str * str :=
  match s with
  | c :: s' =>
      if is_digit c then let (ds, r) := span_digits s' in (c :: ds, r)
      else ([], s)
  | [] => ([], [])
  end.

(** [int(digits)] for a run of decimal digits. *)
Definition nat_value (digits : str) : Z :=
  fold_left (fun acc c => (acc * 10 + (Z.of_N c - 0x30))%Z) digits 0%Z.

(** The integer part: an optional [-], then [0] or a run of digits that
    does not start with [0]; the sign, the digits and what follows. *)
Definition match_integer (s : str) : option (bool * str * str) :=
  let (neg, s1) :=
    match s with
    | c :: s' => if (c =? ch "-")%N then (true, s') else (false, s)
    | [] => (false, s)
    end in
  match s1 with
  | c :: s2 =>
      if (c =? ch "0")%N then Some (neg, [c], s2)
      else if is_digit c then
        let (ds, r) := span_digits s2 in Some (neg, c :: ds, r)
      else None
  | [] => None
  end.

(** The fraction [(\.\d+)?] *)
Definition match_frac (s : str) : str * str :=
  match s with
  | p :: d :: s' =>
      if ((p =? ch ".") && is_digit d)%N then
        let (ds, r) := span_digits s' in (p :: d :: ds, r)
      else ([], s)
  | _ => ([], s)
  end.

(** The exponent [([eE][-+]?\d+)?] *)
Definition match_exp (s : str) : str * str :=
  match s with
  | e :: s1 =>
      if ((e =? ch "e") || (e =? ch "E"))%N then
        match s1 with
        | g :: s2 =>
            if is_digit g then
              let (ds, r) := span_digits s2 in (e :: g :: ds, r)
            else if ((g =? ch "+") || (g =? ch "-"))%N then
              match s2 with
              | d :: s3 =>
                  if is_digit d then
                    let (ds, r) := span_digits s3 in (e :: g :: d :: ds, r)
                  else ([], s)
              | [] => ([], s)
              end
            else ([], s)
        | [] => ([], s)
        end
      else ([], s)
  | [] => ([], s)
  end.

Section Decoder.
Context {FC : FloatCodec}.

(** A number: an [int] unless a fraction or an exponent is present. *)
Definition match_number (s : str) : scan json :=
  match match_integer s with
  | None => Invalid
  | Some (neg, digits, r0) =>
      let (frac, r1) := match_frac r0 in
      let (exp, r2) := match_exp r1 in
      match frac, exp with
      | [], [] =>
          Parsed (JInt (if neg then - nat_value digits else nat_value digits)%Z) r2
      | _, _ =>
          Parsed (JFloat (float_of_lexeme
                    ((if neg then [ch "-"] else []) ++ digits ++ frac ++ exp))) r2
      end
  end.

(** A literal of the grammar, or a number. *)
Definition scan_atom (s : str) : scan json :=
  match strip_prefix (py "null") s with
  | Some r => Parsed JNull r
  | None =>
  match strip_prefix (py "true") s with
  | Some r => Parsed (JBool true) r
  | None =>
  match strip_prefix (py "false") s with
  | Some r => Parsed (JBool false) r
  | None =>
  match strip_prefix (py "NaN") s with
  | Some r => Parsed (JFloat nan) r
  | None =>
  match strip_prefix (py "Infinity") s with
  | Some r => Parsed (JFloat infinity) r
  | None =>
  match strip_prefix (py "-Infinity") s with
  | Some r => Parsed (JFloat neg_infinity) r
  | None => match_number s
  end end end end end end.

(** [scan_once] with the loops over the elements of an array and the
    members of an object. *)
Fixpoint scan_once (fuel : nat) (s : str) : scan json :=
  match fuel with
  | O => OutOfFuel
  | S n =>
      match s with
      | [] => Invalid
      | c :: s' =>
          if (c =? dquote)%N then scan_map JStr (scanstring s')
          else if (c =? ch "{")%N then
            match skip_ws s' with
            | c1 :: s1 =>
                if (c1 =? ch "}")%N then Parsed (JDict []) s1
                else
                  scan_map (fun ps => JDict (dict_of_pairs ps))
                           (parse_members n (c1 :: s1))
            | [] => Invalid
            end
          else if (c =? ch "[")%N then
            match skip_ws s' with
            | c1 :: s1 =>
                if (c1 =? ch "]")%N then Parsed (JList []) s1
                else scan_map JList (parse_items n (c1 :: s1))
            | [] => Invalid
            end
          else scan_atom s
      end
  end

with parse_items (fuel : nat) (s : str) : scan (list json) :=
  match fuel with
  | O => OutOfFuel
  | S n =>
      match scan_once n s with
      | Parsed v r =>
          match skip_ws r with
          | c :: r' =>
              if (c =? ch "]")%N then Parsed [v] r'
              else if (c =? ch ",")%N then
                scan_map (cons v) (parse_items n (skip_ws r'))
              else Invalid
          | [] => Invalid
          end
      | Invalid => Invalid
      | OutOfFuel => OutOfFuel
      end
  end

with parse_members (fuel : nat) (s : str) : scan (list (str * json)) :=
  match fuel with
  | O => OutOfFuel
  | S n =>
      match s with
      | q :: s0 =>
          if (q =? dquote)%N then
            match scanstring s0 with
            | Parsed key r0 =>
                match skip_ws r0 with
                | c0 :: r1 =>
                    if (c0 =? ch ":")%N then
                      match scan_once n (skip_ws r1) with
                      | Parsed v r2 =>
                          match skip_ws r2 with
                          | c :: r3 =>
                              if (c =? ch "}")%N then Parsed [(key, v)] r3
                              else if (c =? ch ",")%N then
                                scan_map (cons (key, v))
                                         (parse_members n (skip_ws r3))
                              else Invalid
                          | [] => Invalid
                          end
                      | Invalid => Invalid
                      | OutOfFuel => OutOfFuel
                      end
                    else Invalid
                | [] => Invalid
                end
            | Invalid => Invalid
            | OutOfFuel => OutOfFuel
            end
          else Invalid
      | [] => Invalid
      end
  end.

(** [json.loads(s)]: no byte-order mark, then one value with white space
    around it and nothing else.  [None] stands for [JSONDecodeError].
    [RecursionError] and [ValueError], which the interpreter raises for a
    text beyond its limits, are left out (see [text_within_limits]). *)
Definition loads (s : str) : option json :=
  if startswith s [0xFEFF%N] then None
  else
    match scan_once (S (List.length s)) (skip_ws s) with
    | Parsed v r => match skip_ws r with [] => Some v | _ :: _ => None end
    | _ => None
    end.

End Decoder.

(** ** Encoding: [json.dump(obj, f, ensure_ascii=False, indent=2)] *)

Definition hex_char (n : N) : char :=
  if (n <? 10)%N then (0x30 + n)%N else (0x61 + (n - 10))%N.

(** The replacement of one character inside a string: the quote, the
    backslash and the control characters are escaped, all else is kept. *)
Definition escape_char (c : char) : str :=
  if (c =? dquote)%N then [ch "\"; dquote]
  else if (c =? ch "\")%N then [ch "\"; ch "\"]
  else if (c =? 0x0A)%N then [ch "\"; ch "n"]
  else if (c =? 0x0D)%N then [ch "\"; ch "r"]
  else if (c =? 0x09)%N then [ch "\"; ch "t"]
  else if (c =? 0x08)%N then [ch "\"; ch "b"]
  else if (c =? 0x0C)%N then [ch "\"; ch "f"]
  else if (c <? 0x20)%N then
    [ch "\"; ch "u"; ch "0"; ch "0"; hex_char (c / 16); hex_char (c mod 16)]
  else [c].

(** [encode_basestring(s)] *)
Definition encode_basestring (s : str) : str :=
  dquote :: flat_map escape_char s ++ [dquote].

Fixpoint digits_of_uint (u : Decimal.uint) : str :=
  match u with
  | Decimal.Nil => []
  | Decimal.D0 u' => ch "0" :: digits_of_uint u'
  | Decimal.D1 u' => ch "1" :: digits_of_uint u'
  | Decimal.D2 u' => ch "2" :: digits_of_uint u'
  | Decimal.D3 u' => ch "3" :: digits_of_uint u'
  | Decimal.D4 u' => ch "4" :: digits_of_uint u'
  | Decimal.D5 u' => ch "5" :: digits_of_uint u'
  | Decimal.D6 u' => ch "6" :: digits_of_uint u'
  | Decimal.D7 u' => ch "7" :: digits_of_uint u'
  | Decimal.D8 u' => ch "8" :: digits_of_uint u'
  | Decimal.D9 u' => ch "9" :: digits_of_uint u'
  end.

(** [int.__repr__(z)], for an integer of any size: the limit of 4300
    digits, beyond which the interpreter raises [ValueError], is left
    out (see [digits_fit]). *)
Definition intstr (z : Z) : str :=
  match Z.to_int z with
  | Decimal.Pos u => digits_of_uint u
  | Decimal.Neg u => ch "-" :: digits_of_uint u
  end.

(** A new line followed by the indentation of [level]. *)
Definition newline_indent (level : nat) : str :=
  0x0A%N :: repeat 0x20%N (2 * level).

Section Encoder.
Context {FC : FloatCodec}.

(** [floatstr(f)], with [allow_nan] left at its default. *)
Definition floatstr (f : float) : str :=
  if negb (PrimFloat.eqb f f) then py "NaN"
  else if PrimFloat.eqb f infinity then py "Infinity"
  else if PrimFloat.eqb f neg_infinity then py "-Infinity"
  else float_repr f.

(** The text of a value that is written as one piece. *)
Definition scalar_text (o : json) : option str :=
  match o with
  | JStr s => Some (encode_basestring s)
  | JNull => Some (py "null")
  | JBool true => Some (py "true")
  | JBool false => Some (py "false")
  | JInt z => Some (intstr z)
  | JFloat f => Some (floatstr f)
  | JList _ | JDict _ => None
  end.

(** [_iterencode(o, level)]: the pieces handed to [f.write], in order. *)
Fixpoint iterencode (level : nat) (o : json) {struct o} : list str :=
  match o with
  | JList [] => [py "[]"]
  | JList l =>
      (fix elems (buf : str) (l : list json) {struct l} : list str :=
         match l with
         | [] => []
         | v :: l' =>
             match scalar_text v with
             | Some t => [buf ++ t]
             | None => buf :: iterencode (S level) v
             end ++ elems (ch "," :: newline_indent (S level)) l'
         end) (ch "[" :: newline_indent (S level)) l
      ++ [newline_indent level; [ch "]"]]
  | JDict [] => [py "{}"]
  | JDict d =>
      [ch "{"] :: newline_indent (S level) ::
      (fix members (first : bool) (d : list (str * json)) {struct d}
         : list str :=
         match d with
         | [] => []
         | (k, v) :: d' =>
             (if first then [] else [ch "," :: newline_indent (S level)])
             ++ encode_basestring k :: py ": " ::
             match scalar_text v with
             | Some t => [t]
             | None => iterencode (S level) v
             end ++ members false d'
         end) true d
      ++ [newline_indent level; [ch "}"]]
  | _ =>
      match scalar_text o with
      | Some t => [t]
      | None => []
      end
  end.

(** [json.dumps(o, ensure_ascii=False, indent=2)] *)
Definition dumps (o : json) : str := List.concat (iterencode 0 o).

End Encoder.

End Json.

(** A literal in which the apostrophe stands for the double quote. *)
Definition pyq (s : string) : str :=
  List.map (fun c => if (c =? 0x27)%N then dquote else c) (py s).

(* ===================================================================== *)
(** * Dictionaries keyed by loaded values                                 *)
(* ===================================================================== *)

(** [hash(v)] succeeds: lists and dictionaries cannot be keys. *)
Definition hashable (v : json) : bool :=
  match v with
  | JList _ | JDict _ => false
  | _ => true
  end.

(** The integer a float stands for exactly, if it is one. *)
Definition float_integer (f : float) : option Z :=
  match FloatOps.Prim2SF f with
  | SpecFloat.S754_zero _ => Some 0%Z
  | SpecFloat.S754_finite s m e =>
      let magnitude :=
        if (0 <=? e)%Z then Some (Z.pos m * 2 ^ e)%Z
        else if (Z.pos m mod 2 ^ (- e) =? 0)%Z
             then Some (Z.pos m / 2 ^ (- e))%Z
             else None in
      match magnitude with
      | Some n => Some (if s then (- n)%Z else n)
      | None => None
      end
  | _ => None
  end.

(** The integer a key stands for: [True] is [1], [False] is [0], and a
    float compares with an integer by its exact value. *)
Definition key_number (v : json) : option Z :=
  match v with
  | JBool b => Some (if b then 1%Z else 0%Z)
  | JInt z => Some z
  | JFloat f => float_integer f
  | _ => None
  end.

(** Two keys are the same key of a [dict]: they are equal, or the same
    object.  Every [NaN] of a loaded document is the one constant of the
    decoder, hence the same key as itself. *)
Definition key_eq (a b : json) : bool :=
  match a, b with
  | JNull, JNull => true
  | JStr s, JStr t => str_eqb s t
  | JFloat f, JFloat g =>
      PrimFloat.eqb f g || (PrimFloat.is_nan f && PrimFloat.is_nan g)
  | _, _ =>
      match key_number a, key_number b with
      | Some x, Some y => (x =? y)%Z
      | _, _ => false
      end
  end.

(** A [dict] with keys of any hashable kind, in insertion order. *)
Definition kdict := list (json * json).

Fixpoint kdict_lookup (d : kdict) (k : json) : option json :=
  match d with
  | [] => None
  | (k', v) :: d' => if key_eq k' k then Some v else kdict_lookup d' k
  end.

(** The store of [d[k] = v]: a key that is present keeps its place and its
    first spelling, a new one goes last. *)
Fixpoint kdict_set (d : kdict) (k v : json) : kdict :=
  match d with
  | [] => [(k, v)]
  | (k', v') :: d' =>
      if key_eq k' k then (k', v) :: d' else (k', v') :: kdict_set d' k v
  end.

(** [d[k] = v] *)
Definition kdict_store (d : kdict) (k v : json) : result kdict :=
  if hashable k then Ok (kdict_set d k v) else Raise TypeError.

(** [d.get(k)] *)
Definition kdict_get (d : kdict) (k : json) : result json :=
  if hashable k
  then Ok (match kdict_lookup d k with Some x => x | None => JNull end)
  else Raise TypeError.

(* ===================================================================== *)
(** * Files and spreadsheets                                              *)
(* ===================================================================== *)

(** The text files of the working directory: the text a path holds, if the
    file exists, and whether the path can be opened for writing. *)
Record filesystem : Type := {
  contents : str -> option str;
  writable : str -> bool
}.

(** A character the UTF-8 codec can write: anything but a surrogate. *)
Definition utf8_encodable (c : char) : bool :=
  negb ((0xD800 <=? c) && (c <=? 0xDFFF))%N.

(** The value of a spreadsheet cell: nothing, a text, or a value of another
    kind (number, boolean, date), which is not a [str] and equals none. *)
Inductive cell_value : Type :=
| CNone
| CStr (s : str)
| COther.

(** A worksheet; rows and columns count from 1. *)
Record worksheet : Type := {
  title : str;
  max_row : Z;
  max_column : nat;
  cell : Z -> nat -> cell_value
}.

Record workbook : Type := {
  sheets : list worksheet;
  active : worksheet
}.

(** What [load_workbook] does with a path. *)
Inductive load_outcome : Type :=
| NotFound                 (* FileNotFoundError *)
| InvalidFile              (* InvalidFileException *)
| OtherFailure             (* any other exception *)
| Loaded (wb : workbook).

(* ===================================================================== *)
(** * tools/extractor.py                                                  *)
(* ===================================================================== *)

Module extractor.

(** The brackets of a field marker. *)
Definition lbracket : char := 0x3010%N.
Definition rbracket : char := 0x3011%N.

(** The field name of the requirement description. *)
Definition field_description : str := py "需求描述".

Definition k_description : str := py "description".
Definition k_row_number : str := py "row_number".
Definition k_decomposed_list : str := py "decomposed_list".
Definition k_row : str := py "row".
Definition k_concatenated : str := py "concatenated".
Definition k_description_count : str := py "description_count".

(** The pattern: the marker, white space, group 1 taken lazily, white
    space, and a look-ahead for the next opening bracket or the end. *)
Definition pattern (field_name : str) : list re.op :=
  re.Literal lbracket :: re.escaped field_name ++
  [re.Literal rbracket;
   re.MaxRepeat re.Space;
   re.MarkOpen; re.MinRepeat re.Any; re.MarkClose;
   re.MaxRepeat re.Space;
   re.Assert [re.ALiteral lbracket; re.AEnd]].

(** [extract_content(text, field_name)]; [re.search] raises [TypeError]
    on a [text] that is not a string. *)
Definition extract_content (text : json) (field_name : str)
  : result (option str) :=
  match text with
  | JStr t =>
      match re.search (pattern field_name) t with
      | Some m => Ok (Some (strip (re.group1 t m)))
      | None => Ok None
      end
  | _ => Raise TypeError
  end.

(** The loop of [extract_descriptions_from_list] over the items. *)
Fixpoint collect_descriptions (reqs : list json) (descriptions : list str)
  : result (list str) :=
  match reqs with
  | [] => Ok descriptions
  | req :: rest =>
      present <- py_in k_description req ;;
      if present then
        d <- py_subscript req k_description ;;
        if truthy d then
          ar_description <- extract_content d field_description ;;
          match ar_description with
          | Some (c :: a) => collect_descriptions rest (descriptions ++ [c :: a])
          | _ => collect_descriptions rest descriptions
          end
        else collect_descriptions rest descriptions
      else collect_descriptions rest descriptions
  end.

Definition extract_descriptions_from_list (req_list : json)
  : result (list str) :=
  reqs <- py_iter req_list ;;
  collect_descriptions reqs [].

(** The metric record of one row. *)
Definition metric_record (row : json) (descriptions : list str) : json :=
  JDict [(k_row, row);
         (k_concatenated, JStr (join [0x20%N] descriptions));
         (k_description_count, JInt (Z.of_nat (List.length descriptions)))].

(** The loop of [process_json_file] over the loaded items. *)
Fixpoint process_items (items : list json) (results : list json)
  : result (list json) :=
  match items with
  | [] => Ok results
  | item :: rest =>
      row_n <- py_get item k_row_number ;;
      decomposed_list <- py_get item k_decomposed_list ;;
      if truthy row_n && truthy decomposed_list then
        descriptions <- extract_descriptions_from_list decomposed_list ;;
        process_items rest (results ++ [metric_record row_n descriptions])
      else process_items rest results
  end.

Section WithCodec.
Context {FC : FloatCodec}.

Definition process_json_file (fs : filesystem) (file_path : str)
  : result (list json) :=
  match contents fs file_path with
  | None => Raise FileNotFoundError
  | Some text =>
      match Json.loads text with
      | None => Raise JSONDecodeError
      | Some results_data =>
          items <- py_iter results_data ;;
          process_items items []
      end
  end.

End WithCodec.

(** [header.index(column_name)]: the first cell of the header row whose
    value equals the name. *)
Fixpoint index_of (column_name : str) (header : list cell_value)
  : option nat :=
  match header with
  | [] => None
  | v :: header' =>
      match v with
      | CStr s =>
          if str_eqb s column_name then Some 0%nat
          else option_map S (index_of column_name header')
      | _ => option_map S (index_of column_name header')
      end
  end.

(** [[cell.value for cell in sheet[1]]] *)
Definition header_row (sheet : worksheet) : list cell_value :=
  List.map (fun col => cell sheet 1%Z col) (seq 1 (max_column sheet)).

(** [workbook[sheet_name]], when the name is among [workbook.sheetnames]. *)
Fixpoint find_sheet (sheet_name : str) (l : list worksheet)
  : option worksheet :=
  match l with
  | [] => None
  | sh :: l' =>
      if str_eqb (title sh) sheet_name then Some sh
      else find_sheet sheet_name l'
  end.

(** What the body of [get_requirement_from_excel] does once a sheet is
    chosen. *)
Definition read_cell (sheet : worksheet) (column_name : str)
           (row_number : Z) : option str :=
  match index_of column_name (header_row sheet) with
  | None => None
  | Some i =>
      let col_index := (i + 1)%nat in
      if negb ((1 <=? row_number)%Z && (row_number <=? max_row sheet)%Z)
      then None
      else
        match cell sheet row_number col_index with
        | CStr (c :: s) => Some (strip (c :: s))
        | _ => None
        end
  end.

Definition get_requirement_from_excel
           (disk : str -> load_outcome)
           (file_path column_name : str) (row_number : Z)
           (sheet_name : option str) : option str :=
  match disk file_path with
  | Loaded wb =>
      match sheet_name with
      | Some (c :: n) =>
          match find_sheet (c :: n) (sheets wb) with
          | None => None
          | Some sheet => read_cell sheet column_name row_number
          end
      | _ => read_cell (active wb) column_name row_number
      end
  | NotFound => None
  | InvalidFile => None
  | OtherFailure => None
  end.

Definition data_xlsx : str := py "ar_23/data.xlsx".
Definition column_L1 : str := py "L1华为格式".
Definition column_L2 : str := py "L2华为格式".

(** [' '.join(descriptions)] on a list that may hold [None]. *)
Fixpoint all_strings (l : list (option str)) : result (list str) :=
  match l with
  | [] => Ok []
  | Some s :: l' => r <- all_strings l' ;; Ok (s :: r)
  | None :: l' => Raise TypeError
  end.

Definition block (last_row_num : Z) (descriptions : list (option str))
  : result json :=
  texts <- all_strings descriptions ;;
  Ok (JDict [(k_row, JInt last_row_num);
             (k_concatenated, JStr (join [0x20%N] texts));
             (k_description_count, JInt (Z.of_nat (List.length descriptions)))]).

Definition opt_json (o : option str) : json :=
  match o with
  | Some s => JStr s
  | None => JNull
  end.

(** The scan of [process_excel_file] over the row numbers. *)
Fixpoint scan_rows (disk : str -> load_outcome) (rows : list Z)
         (results : list json) (descriptions : list (option str))
         (last_row_num : Z) : result (list json) :=
  match rows with
  | [] =>
      b <- block last_row_num descriptions ;;
      Ok (results ++ [b])
  | row_num :: rows' =>
      let main_requirement :=
        get_requirement_from_excel disk data_xlsx column_L1 row_num None in
      st <- match main_requirement with
            | Some (_ :: _) =>
                b <- block last_row_num descriptions ;;
                Ok (results ++ [b], [], row_num)
            | _ => Ok (results, descriptions, last_row_num)
            end ;;
      let '(results1, descriptions1, last1) := st in
      let decomposed_requirement :=
        get_requirement_from_excel disk data_xlsx column_L2 row_num None in
      d <- extract_content (opt_json decomposed_requirement)
                           field_description ;;
      scan_rows disk rows' results1 (descriptions1 ++ [d]) last1
  end.

(** [range(2, row_end)] *)
Definition range2 (row_end : Z) : list Z :=
  List.map Z.of_nat (seq 2 (Z.to_nat row_end - 2)).

Definition process_excel_file (disk : str -> load_outcome)
           (file_path : str) (row_end : Z) : result (list json) :=
  scan_rows disk (range2 row_end) [] [] 0%Z.

Definition k_req : str := py "req".

(** The loop of [extract_orig_req_from_excel_file] over the row numbers. *)
Fixpoint collect_requirements (disk : str -> load_outcome) (rows : list Z)
         (results : list json) : list json :=
  match rows with
  | [] => results
  | row_num :: rows' =>
      let main_requirement :=
        get_requirement_from_excel disk data_xlsx column_L1 row_num None in
      match main_requirement with
      | Some (c :: s) =>
          collect_requirements disk rows'
            (results ++ [JDict [(k_row, JInt row_num);
                                (k_req, JStr (c :: s))]])
      | _ => collect_requirements disk rows' results
      end
  end.

Definition extract_orig_req_from_excel_file (disk : str -> load_outcome)
           (file_path : str) (row_end : Z) : list json :=
  collect_requirements disk (range2 row_end) [].

End extractor.

(* ===================================================================== *)
(** * The process: requests, output and files                             *)
(* ===================================================================== *)

(** What one request to the chat endpoint comes to: the content of the
    first choice (which may be [None]), or one of the exceptions that
    [_call_llm_api] tells apart.  The texts of the exceptions, which the
    handlers print, and the name of the model are not kept: they are
    taken to be texts the standard output can show. *)
Inductive api_outcome : Type :=
| Content (c : option str)
| APIConnectionError
| RateLimitError
| AuthenticationError
| APIStatusError
| UnknownError.

(** The lines the scripts print, by kind, with the values they show. *)
Inductive message : Type :=
| MsgMissingKey
| MsgCalling
| MsgCallSucceeded
| MsgConnectionFailed
| MsgRateLimited
| MsgAuthenticationFailed
| MsgBadStatus
| MsgUnknownError
| MsgNotAnArray (v : json)
| MsgJsonError (raw : str)
| MsgFileNotFound (path : str)
| MsgFileJsonError (path : str)
| MsgBadFormat (path : str)
| MsgLoaded (path : str) (n : nat)
| MsgReading (path : str)
| MsgLoadFailed
| MsgInvalidItem (row req : json)
| MsgRowStarted (row : json)
| MsgDecomposing
| MsgRowCollected (row : json)
| MsgRowWithoutResult (row : json)
| MsgSaving (path : str)
| MsgSaved
| MsgSaveFailed
| MsgNothingToSave (path : str)
| MsgNoPairs
| MsgAligned (n : nat).

Record world : Type := {
  requests : nat;              (* requests sent to the endpoint so far *)
  stdout : list message;       (* lines printed so far *)
  files : filesystem
}.

(** A computation that reads and changes the world and may raise. *)
Definition M (A : Type) : Type := world -> result A * world.

Definition ret {A} (a : A) : M A := fun w => (Ok a, w).

Definition raise {A} (e : exn) : M A := fun w => (Raise e, w).

Definition mbind {A B} (m : M A) (k : A -> M B) : M B :=
  fun w =>
    match m w with
    | (Ok a, w') => k a w'
    | (Raise e, w') => (Raise e, w')
    end.

Notation "x <-- m ;; k" := (mbind m (fun x => k))
  (at level 61, m at next level, right associativity).
Notation "m ;;; k" := (mbind m (fun _ => k))
  (at level 61, right associativity).

Definition lift {A} (r : result A) : M A := fun w => (r, w).

(** [print(...)]: the line is appended to the output.  A line with a
    lone surrogate, for which a standard output in UTF-8 raises
    [UnicodeEncodeError], and a value beyond the limits of the
    interpreter, which cannot be turned into text, are left out (see
    [printable]). *)
Definition print (msg : message) : M unit :=
  fun w => (Ok tt, {| requests := requests w;
                      stdout := stdout w ++ [msg];
                      files := files w |}).

(** Sending one request: the endpoint answers by the number of the
    request. *)
Definition send (endpoint : nat -> api_outcome) : M api_outcome :=
  fun w => (Ok (endpoint (requests w)),
            {| requests := S (requests w);
               stdout := stdout w;
               files := files w |}).

Definition read_file (path : str) : M (option str) :=
  fun w => (Ok (contents (files w) path), w).

(** [f.write(chunk)] for each piece in turn, on a file opened with
    [encoding='utf-8']: a piece with a character the codec refuses raises,
    and the file keeps what was written before. *)
Fixpoint write_chunks (chunks : list str) (written : str) : result unit * str :=
  match chunks with
  | [] => (Ok tt, written)
  | chunk :: chunks' =>
      if forallb utf8_encodable chunk
      then write_chunks chunks' (written ++ chunk)
      else (Raise UnicodeEncodeError, written)
  end.

Definition set_contents (fs : filesystem) (path : str) (text : str)
  : filesystem :=
  {| contents := fun p => if str_eqb p path then Some text else contents fs p;
     writable := writable fs |}.

(** [with open(path, 'w', encoding='utf-8') as f: json.dump(o, f,
    ensure_ascii=False, indent=2)] *)
Definition dump_to_file {FC : FloatCodec} (o : json) (path : str) : M unit :=
  fun w =>
    if writable (files w) path then
      let (r, text) := write_chunks (Json.iterencode 0 o) [] in
      (r, {| requests := requests w;
             stdout := stdout w;
             files := set_contents (files w) path text |})
    else (Raise FileNotFoundError, w).

(** [try: m except Exception: handler] *)
Definition try_except {A} (m : M A) (handler : M A) : M A :=
  fun w =>
    match m w with
    | (Ok a, w') => (Ok a, w')
    | (Raise _, w') => handler w'
    end.

(* ===================================================================== *)
(** * requirement_decomposer.py                                           *)
(* ===================================================================== *)

Module requirement_decomposer.

Definition k_row : str := py "row".
Definition k_req : str := py "req".
Definition k_row_number : str := py "row_number".
Definition k_decomposed_list : str := py "decomposed_list".

Definition req_source : str := py "ar_23/data.json".
Definition res_file : str := py "ar_23/decomposed_output.json".

(** [isinstance(item, dict) and 'row' in item and 'req' in item] *)
Definition is_requirement_record (item : json) : bool :=
  match item with
  | JDict d => dict_has d k_row && dict_has d k_req
  | _ => false
  end.

Section Process.
Context {FC : FloatCodec}.

(** The environment variable [OPENAI_API_KEY]. *)
Variable api_key : option str.

(** The chat endpoint. *)
Variable endpoint : nat -> api_outcome.

Definition load_requirements_from_json (file_path : str)
           (limit : option Z) : M (option (list json)) :=
  text <-- read_file file_path ;;
  match text with
  | None => print (MsgFileNotFound file_path) ;;; ret None
  | Some t =>
      match Json.loads t with
      | None => print (MsgFileJsonError file_path) ;;; ret None
      | Some (JList data) =>
          if forallb is_requirement_record data then
            match limit with
            | Some n =>
                if (0 <? n)%Z then
                  let data' := firstn (Z.to_nat n) data in
                  print (MsgLoaded file_path (List.length data')) ;;;
                  ret (Some data')
                else
                  print (MsgLoaded file_path (List.length data)) ;;;
                  ret (Some data)
            | None =>
                print (MsgLoaded file_path (List.length data)) ;;;
                ret (Some data)
            end
          else print (MsgBadFormat file_path) ;;; ret None
      | Some _ => print (MsgBadFormat file_path) ;;; ret None
      end
  end.

(** [_build_user_prompt]: the parts are joined with new lines, which
    raises [TypeError] unless the requirement is a string.  The text of
    the prompt has no bearing on what follows and is not kept. *)
Definition _build_user_prompt (original_requirement : json) : M unit :=
  match original_requirement with
  | JStr _ => ret tt
  | _ => raise TypeError
  end.

Definition _call_llm_api : M (option str) :=
  match api_key with
  | Some (_ :: _) =>
      print MsgCalling ;;;
      outcome <-- send endpoint ;;
      match outcome with
      | Content c => print MsgCallSucceeded ;;; ret c
      | APIConnectionError => print MsgConnectionFailed ;;; ret None
      | RateLimitError => print MsgRateLimited ;;; ret None
      | AuthenticationError => print MsgAuthenticationFailed ;;; ret None
      | APIStatusError => print MsgBadStatus ;;; ret None
      | UnknownError => print MsgUnknownError ;;; ret None
      end
  | _ => print MsgMissingKey ;;; ret None
  end.

Definition decompose_requirement (original_requirement : json)
  : M (option (list json)) :=
  _build_user_prompt original_requirement ;;;
  llm_response_str <-- _call_llm_api ;;
  match llm_response_str with
  | Some (c :: s) =>
      match Json.loads (c :: s) with
      | Some (JList sub_requirements_list) =>
          ret (Some sub_requirements_list)
      | Some other => print (MsgNotAnArray other) ;;; ret None
      | None => print (MsgJsonError (c :: s)) ;;; ret None
      end
  | _ => ret None
  end.

Definition save_results_to_json (results : list json) (output_path : str)
  : M unit :=
  try_except
    (print (MsgSaving output_path) ;;;
     dump_to_file (JList results) output_path ;;;
     print MsgSaved)
    (print MsgSaveFailed).

(** The record appended for a row. *)
Definition result_record (row_num : json) (decomposed_list : list json)
  : json :=
  JDict [(k_row_number, row_num);
         (k_decomposed_list, JList decomposed_list)].

(** The loop of [main] over the loaded requirements. *)
Fixpoint main_loop (items : list json) (all_decomposed_results : list json)
  : M (list json) :=
  match items with
  | [] => ret all_decomposed_results
  | req_item :: rest =>
      row_num <-- lift (py_get req_item k_row) ;;
      main_requirement <-- lift (py_get req_item k_req) ;;
      if negb (truthy row_num) || negb (truthy main_requirement) then
        print (MsgInvalidItem row_num main_requirement) ;;;
        main_loop rest all_decomposed_results
      else
        print (MsgRowStarted row_num) ;;;
        print MsgDecomposing ;;;
        decomposed_list <-- decompose_requirement main_requirement ;;
        match decomposed_list with
        | Some (x :: l) =>
            print (MsgRowCollected row_num) ;;;
            main_loop rest
              (all_decomposed_results ++ [result_record row_num (x :: l)])
        | _ =>
            print (MsgRowWithoutResult row_num) ;;;
            main_loop rest all_decomposed_results
        end
  end.

Definition main : M unit :=
  print (MsgReading req_source) ;;;
  all_original_requirements <-- load_requirements_from_json req_source None ;;
  match all_original_requirements with
  | Some (i :: items) =>
      all_decomposed_results <-- main_loop (i :: items) [] ;;
      match all_decomposed_results with
      | _ :: _ => save_results_to_json all_decomposed_results res_file
      | [] => print (MsgNothingToSave res_file)
      end
  | _ => print MsgLoadFailed
  end.

End Process.

(** The rules [main] passes to the decomposer. *)
Definition decomposition_rules : list str :=
  [py "子需求应当是能分配给单一功能模块的，不可再分的最小原子功能需求，单个需求的内容不得跨越不同功能模块实现。";
   py "子需求只是对原始需求的分解而不是细化，不可新增原始需求中没有的内容。";
   py "子需求必须完全涵盖原始需求的所有内容。";
   py "子需求的功能集合不得超出原始需求的功能范围。";
   py "子需求应严格保持原始需求中的技术细节，包括算法、协议、版本等";
   py "原始需求中为“无”等无内容表述的字段，子需求中也保持为“无”等表述";
   py "子需求的性能指标需和原始需求的对应部分保持一致，不得新增或细化"].

(** The lines of the rules, numbered from [i]. *)
Fixpoint numbered (i : Z) (rules : list str) : list str :=
  match rules with
  | [] => []
  | rule :: rules' =>
      (Json.intstr i ++ py ". " ++ rule) :: numbered (i + 1) rules'
  end.

(** The text [_build_user_prompt] returns for a requirement that is a
    string. *)
Definition user_prompt_text (original_requirement : str)
           (rules : option (list str))
           (output_format_instruction : option str) : str :=
  let prompt_parts := [py "根据已定义的规则，分解以下原始需求。"] in
  let prompt_parts :=
    match rules with
    | Some (r :: rs) =>
        prompt_parts ++ (0x0A%N :: py "=== 分解规则 ===") :: numbered 1 (r :: rs)
    | _ => prompt_parts
    end in
  let prompt_parts :=
    prompt_parts ++ [0x0A%N :: py "=== 原始需求 ==="; original_requirement] in
  let prompt_parts :=
    match output_format_instruction with
    | Some (c :: s) =>
        prompt_parts ++ [0x0A%N :: py "=== 额外输出要求 ==="; c :: s]
    | _ => prompt_parts
    end in
  join [0x0A%N] prompt_parts.

End requirement_decomposer.

(* ===================================================================== *)
(** * A script with lines of its own                                      *)
(* ===================================================================== *)

(** The lines that only the main function of the evaluator prints. *)
Inductive eval_message : Type :=
| EvStarted
| EvLoadFailed
| EvInvalidResult (item : json)
| EvNoRequirement (row : json)
| EvRowStarted (row : json)
| EvRowDone (row : json)
| EvRowFailed (row : json)
| EvAllDone (text : str)
| EvSaved
| EvNoEvaluations.

(** A line of the output of the evaluator: one of the lines of the
    functions it calls, or one of its own. *)
Inductive line : Type :=
| Line (m : message)
| EvalLine (m : eval_message).

Record script_world : Type := {
  sent : nat;                  (* requests sent to the endpoint so far *)
  lines : list line;           (* lines printed so far *)
  disk_files : filesystem
}.

Definition Script (A : Type) : Type := script_world -> result A * script_world.

Definition sret {A} (a : A) : Script A := fun s => (Ok a, s).

Definition sbind {A B} (m : Script A) (k : A -> Script B) : Script B :=
  fun s =>
    match m s with
    | (Ok a, s') => k a s'
    | (Raise e, s') => (Raise e, s')
    end.

Notation "x <~~ m ;; k" := (sbind m (fun x => k))
  (at level 61, m at next level, right associativity).
Notation "m ;;~ k" := (sbind m (fun _ => k))
  (at level 61, right associativity).

Definition slift {A} (r : result A) : Script A := fun s => (r, s).

Definition say (m : eval_message) : Script unit :=
  fun s => (Ok tt, {| sent := sent s;
                      lines := lines s ++ [EvalLine m];
                      disk_files := disk_files s |}).

(** A call of a function of the process: its requests and files are those
    of the script, and the lines it prints follow those printed so far. *)
Definition call {A} (m : M A) : Script A :=
  fun s =>
    let (r, w) := m {| requests := sent s; stdout := [];
                       files := disk_files s |} in
    (r, {| sent := requests w;
           lines := lines s ++ List.map Line (stdout w);
           disk_files := files w |}).

(* ===================================================================== *)
(** * evaluater.py                                                        *)
(* ===================================================================== *)

Module evaluater.

Definition k_description : str := py "description".

Section Process.
Context {FC : FloatCodec}.
Variable api_key : option str.
Variable endpoint : nat -> api_outcome.

Definition _call_llm_api : M (option str) :=
  match api_key with
  | Some (_ :: _) =>
      print MsgCalling ;;;
      outcome <-- send endpoint ;;
      match outcome with
      | Content c => print MsgCallSucceeded ;;; ret c
      | APIConnectionError => print MsgConnectionFailed ;;; ret None
      | RateLimitError => print MsgRateLimited ;;; ret None
      | AuthenticationError => print MsgAuthenticationFailed ;;; ret None
      | APIStatusError => print MsgBadStatus ;;; ret None
      | UnknownError => print MsgUnknownError ;;; ret None
      end
  | _ => print MsgMissingKey ;;; ret None
  end.

(** [item['description']] for each item of the list. *)
Fixpoint descriptions_of (items : list json) : result (list json) :=
  match items with
  | [] => Ok []
  | item :: rest =>
      d <- py_subscript item k_description ;;
      ds <- descriptions_of rest ;;
      Ok (d :: ds)
  end.

(** [_build_evaluation_user_prompt]: reads the description of every
    sub-requirement, which may raise.  The text of the prompt has no
    bearing on what follows and is not kept. *)
Definition _build_evaluation_user_prompt
           (original_requirement decomposed_requirements : json)
  : M unit :=
  items <-- lift (py_iter decomposed_requirements) ;;
  lift (descriptions_of items) ;;;
  ret tt.

Definition evaluate_decomposition
           (original_requirement decomposed_requirements : json)
  : M (option json) :=
  _build_evaluation_user_prompt original_requirement
                                decomposed_requirements ;;;
  llm_response_str <-- _call_llm_api ;;
  match llm_response_str with
  | Some (c :: s) =>
      match Json.loads (c :: s) with
      | Some evaluation_result => ret (Some evaluation_result)
      | None => print (MsgJsonError (c :: s)) ;;; ret None
      end
  | _ => ret None
  end.

Definition load_decomposed_results (file_path : str) : M (option json) :=
  text <-- read_file file_path ;;
  match text with
  | None => print (MsgFileNotFound file_path) ;;; ret None
  | Some t =>
      print (MsgReading file_path) ;;;
      match Json.loads t with
      | Some data => ret (Some data)
      | None => print (MsgFileJsonError file_path) ;;; ret None
      end
  end.

Definition k_row_number : str := py "row_number".
Definition k_decomposed_list : str := py "decomposed_list".
Definition k_evaluation : str := py "evaluation".
Definition req_source : str := py "ar_23/data.json".
Definition decomposed_source : str := py "ar_23/decomposed_output.json".
Definition evaluation_output : str := py "ar_23/evaluation_output.json".

(** The dictionary comprehension of [load_original_requirements_from_json]
    over the records. *)
Fixpoint build_req_map (data : list json) (req_map : kdict) : result kdict :=
  match data with
  | [] => Ok req_map
  | item :: rest =>
      row <- py_subscript item requirement_decomposer.k_row ;;
      req <- py_subscript item requirement_decomposer.k_req ;;
      req_map' <- kdict_store req_map row req ;;
      build_req_map rest req_map'
  end.

Definition load_original_requirements_from_json (file_path : str)
  : M (option kdict) :=
  text <-- read_file file_path ;;
  match text with
  | None => print (MsgFileNotFound file_path) ;;; ret None
  | Some t =>
      match Json.loads t with
      | None => print (MsgFileJsonError file_path) ;;; ret None
      | Some (JList data) =>
          if forallb requirement_decomposer.is_requirement_record data then
            req_map <-- lift (build_req_map data []) ;;
            print (MsgLoaded file_path (List.length req_map)) ;;;
            ret (Some req_map)
          else print (MsgBadFormat file_path) ;;; ret None
      | Some _ => print (MsgBadFormat file_path) ;;; ret None
      end
  end.

(** The record appended for a row. *)
Definition evaluation_record (row_num evaluation : json) : json :=
  JDict [(k_row_number, row_num); (k_evaluation, evaluation)].

(** The loop of [main] over the decomposition results. *)
Fixpoint main_loop (original_reqs_map : kdict) (items : list json)
         (all_evaluations : list json) : Script (list json) :=
  match items with
  | [] => sret all_evaluations
  | result_item :: rest =>
      row_num <~~ slift (py_get result_item k_row_number) ;;
      decomposed_list <~~ slift (py_get result_item k_decomposed_list) ;;
      if negb (truthy row_num) || negb (truthy decomposed_list) then
        say (EvInvalidResult result_item) ;;~
        main_loop original_reqs_map rest all_evaluations
      else
        original_req <~~ slift (kdict_get original_reqs_map row_num) ;;
        if negb (truthy original_req) then
          say (EvNoRequirement row_num) ;;~
          main_loop original_reqs_map rest all_evaluations
        else
          say (EvRowStarted row_num) ;;~
          evaluation <~~ call (evaluate_decomposition original_req
                                                      decomposed_list) ;;
          if truthy_opt evaluation then
            let record :=
              evaluation_record row_num
                (match evaluation with Some e => e | None => JNull end) in
            say (EvRowDone row_num) ;;~
            main_loop original_reqs_map rest (all_evaluations ++ [record])
          else
            say (EvRowFailed row_num) ;;~
            main_loop original_reqs_map rest all_evaluations
  end.

Definition main : Script unit :=
  say EvStarted ;;~
  original_reqs_map <~~ call (load_original_requirements_from_json req_source) ;;
  decomposed_data <~~ call (load_decomposed_results decomposed_source) ;;
  match original_reqs_map, decomposed_data with
  | Some (kv :: req_map), Some data =>
      if truthy data then
        items <~~ slift (py_iter data) ;;
        all_evaluations <~~ main_loop (kv :: req_map) items [] ;;
        match all_evaluations with
        | _ :: _ =>
            say (EvAllDone (Json.dumps (JList all_evaluations))) ;;~
            call (dump_to_file (JList all_evaluations) evaluation_output) ;;~
            say EvSaved
        | [] => say EvNoEvaluations
        end
      else say EvLoadFailed
  | _, _ => say EvLoadFailed
  end.

End Process.

End evaluater.

(* ===================================================================== *)
(** * tools/metrics.py                                                    *)
(* ===================================================================== *)

Module metrics.

(** A mapping from row numbers to texts: a [dict] in insertion order. *)
Definition rowmap := list (Z * json).

(** [m[row]], when present. *)
Fixpoint lookup (m : rowmap) (row : Z) : option json :=
  match m with
  | [] => None
  | (r, v) :: m' => if (r =? row)%Z then Some v else lookup m' row
  end.

(** [row in m] *)
Definition mem (row : Z) (m : rowmap) : bool :=
  match lookup m row with Some _ => true | None => false end.

Record aligned : Type := {
  predictions_raw : list json;
  references_raw : list json;
  rows : list Z
}.

(** The loop over [predictions_map.items()]; [printed] are the lines
    printed so far. *)
Fixpoint align_loop (items : list (Z * json)) (references_map : rowmap)
         (acc : aligned) (printed : list message)
  : aligned * list message :=
  match items with
  | [] => (acc, printed)
  | (row, pred_text) :: items' =>
      match lookup references_map row with
      | Some ref_text =>
          align_loop items' references_map
            {| predictions_raw := predictions_raw acc ++ [pred_text];
               references_raw := references_raw acc ++ [ref_text];
               rows := rows acc ++ [row] |} printed
      | None => align_loop items' references_map acc printed
      end
  end.

(** The alignment step of the script and the line printed after it. *)
Definition align (predictions_map references_map : rowmap)
  : aligned * list message :=
  let (a, printed) :=
    align_loop predictions_map references_map
               {| predictions_raw := []; references_raw := []; rows := [] |}
               [] in
  match predictions_raw a with
  | [] => (a, printed ++ [MsgNoPairs])
  | _ :: _ => (a, printed ++ [MsgAligned (List.length (predictions_raw a))])
  end.

Definition k_row : str := py "row".
Definition k_concatenated : str := py "concatenated".

(** The dictionary comprehension of [load_descriptions] over the items. *)
Fixpoint collect_rows (items : list json) (m : kdict) : result kdict :=
  match items with
  | [] => Ok m
  | item :: rest =>
      c <- py_get item k_concatenated ;;
      if truthy c then
        row <- py_subscript item k_row ;;
        text <- py_subscript item k_concatenated ;;
        m' <- kdict_store m row text ;;
        collect_rows rest m'
      else collect_rows rest m
  end.

Definition load_descriptions {FC : FloatCodec} (fs : filesystem)
           (file_path : str) : result kdict :=
  match contents fs file_path with
  | None => Raise FileNotFoundError
  | Some text =>
      match Json.loads text with
      | None => Raise JSONDecodeError
      | Some data =>
          items <- py_iter data ;;
          collect_rows items []
      end
  end.

End metrics.

(* ===================================================================== *)
(** * Notions used to state the properties                                *)
(* ===================================================================== *)

(** The text of [s] up to the next complete marker, an opening bracket
    that a closing bracket follows, or all of [s] when there is none. *)
Fixpoint until_complete_marker (s : str) : str :=
  match s with
  | [] => []
  | x :: s' =>
      if ((x =? extractor.lbracket)%N
          && existsb (fun y => (y =? extractor.rbracket)%N) s')
      then []
      else x :: until_complete_marker s'
  end.

(** The marker of a field. *)
Definition marker_of (field_name : str) : str :=
  extractor.lbracket :: field_name ++ [extractor.rbracket].

(** The section of the requirement description in a text: what stands
    between the first marker of the field and the next opening bracket,
    stripped; [None] without the marker. *)
Definition description_section (t : str) : option str :=
  match str_find (marker_of extractor.field_description) t with
  | Some i =>
      Some (strip (take_until extractor.lbracket
                     (skipn (i + List.length (marker_of extractor.field_description)) t)))
  | None => None
  end.

(** The description of a sub-requirement, when it is a text. *)
Definition description_text (sub : json) : option str :=
  match sub with
  | JDict d =>
      match dict_lookup d extractor.k_description with
      | Some (JStr t) => Some t
      | _ => None
      end
  | _ => None
  end.

(** The non-empty description sections of a list of sub-requirements, in
    the order of the list. *)
Fixpoint description_sections (subs : list json) : list str :=
  match subs with
  | [] => []
  | sub :: rest =>
      match description_text sub with
      | Some t =>
          match description_section t with
          | Some (c :: a) => (c :: a) :: description_sections rest
          | _ => description_sections rest
          end
      | None => description_sections rest
      end
  end.

(** A sub-requirement whose description is a text. *)
Definition has_text_description (sub : json) : bool :=
  match description_text sub with Some _ => true | None => false end.

(** The fields of a decomposition result. *)
Definition row_number_of (item : json) : json :=
  match item with
  | JDict d =>
      match dict_lookup d extractor.k_row_number with
      | Some v => v
      | None => JNull
      end
  | _ => JNull
  end.

Definition decomposed_list_of (item : json) : list json :=
  match item with
  | JDict d =>
      match dict_lookup d extractor.k_decomposed_list with
      | Some (JList l) => l
      | _ => []
      end
  | _ => []
  end.

(** A decomposition result with a row number that counts as given and a
    non-empty list of sub-requirements with text descriptions. *)
Definition is_decomposition_result (item : json) : bool :=
  match item with
  | JDict d =>
      truthy (row_number_of item)
      && match dict_lookup d extractor.k_decomposed_list with
         | Some (JList (s :: subs)) => forallb has_text_description (s :: subs)
         | _ => false
         end
  | _ => false
  end.

(** A codec for documents without floating-point numbers, for examples. *)
Definition example_codec : FloatCodec :=
  {| float_of_lexeme := fun _ => 0%float; float_repr := fun _ => [] |}.

(** A file system with one file. *)
Definition single_file (path text : str) : filesystem :=
  {| contents := fun p => if str_eqb p path then Some text else None;
     writable := fun _ => true |}.

(** The metric record that joins the whole descriptions of a result and
    counts its sub-requirements. *)
Definition whole_descriptions_record (item : json) : json :=
  JDict
    [(extractor.k_row, row_number_of item);
     (extractor.k_concatenated,
      JStr (join [ch " "]
              (flat_map (fun sub => match description_text sub with
                                    | Some t => [t]
                                    | None => []
                                    end)
                        (decomposed_list_of item))));
     (extractor.k_description_count,
      JInt (Z.of_nat (List.length (decomposed_list_of item))))].

(** ** Spreadsheets *)

(** The sheet a call works on: the named one when a name is given, the
    active one otherwise. *)
Definition selected_sheet (wb : workbook) (sheet_name : option str)
  : option worksheet :=
  match sheet_name with
  | Some (c :: n) => extractor.find_sheet (c :: n) (sheets wb)
  | _ => Some (active wb)
  end.

(** The header cell number [i] (from 0) is the first one that holds exactly
    the text [column_name]. *)
Definition first_header_match (sheet : worksheet) (column_name : str)
           (i : nat) : Prop :=
  nth_error (extractor.header_row sheet) i = Some (CStr column_name)
  /\ forall j, (j < i)%nat ->
               nth_error (extractor.header_row sheet) j <> Some (CStr column_name).

(** No header cell holds the text. *)
Definition header_absent (sheet : worksheet) (column_name : str) : Prop :=
  forall i, nth_error (extractor.header_row sheet) i <> Some (CStr column_name).

(** A cell without a text to return: empty, or not a string. *)
Definition without_text (v : cell_value) : Prop :=
  v = CNone \/ v = CStr [] \/ v = COther.

(** A workbook with the single sheet [sh], which is active. *)
Definition single_sheet (sh : worksheet) : workbook :=
  {| sheets := [sh]; active := sh |}.

(** A sheet given by its rows, the first being the header. *)
Definition sheet_of_rows (name : str) (rows : list (list cell_value))
  : worksheet :=
  {| title := name;
     max_row := Z.of_nat (List.length rows);
     max_column := List.length (hd [] rows);
     cell := fun r c =>
               if (r <=? 0)%Z then CNone
               else nth (c - 1) (nth (Z.to_nat r - 1) rows []) CNone |}.

(** The cells of the two columns at a row, as [process_excel_file] reads
    them. *)
Definition L1_cell (disk : str -> load_outcome) (row : Z) : option str :=
  extractor.get_requirement_from_excel disk extractor.data_xlsx
                                       extractor.column_L1 row None.

Definition L2_cell (disk : str -> load_outcome) (row : Z) : option str :=
  extractor.get_requirement_from_excel disk extractor.data_xlsx
                                       extractor.column_L2 row None.

(** The row starts a block: its L1 cell yields a non-empty text. *)
Definition starts_block (disk : str -> load_outcome) (row : Z) : bool :=
  match L1_cell disk row with
  | Some (_ :: _) => true
  | _ => false
  end.

(** The rows before the first one that starts a block. *)
Fixpoint rows_before_first_block (disk : str -> load_outcome) (rows : list Z)
  : list Z :=
  match rows with
  | [] => []
  | row :: rows' =>
      if starts_block disk row then []
      else row :: rows_before_first_block disk rows'
  end.

(** The description section of the L2 cell of a row. *)
Definition L2_section (disk : str -> load_outcome) (row : Z) : option str :=
  match L2_cell disk row with
  | Some t => description_section t
  | None => None
  end.

(** A small workbook for examples: a header row and four data rows. *)
Definition example_sheet : worksheet :=
  sheet_of_rows (py "Sheet1")
    [[CStr (py "id"); CStr extractor.column_L1; CStr extractor.column_L2];
     [COther; CNone; CStr (py "【需求描述】 zero ")];
     [COther; CStr (py " first "); CStr (py "【需求描述】a【x】")];
     [COther; CNone; CStr (py "【需求描述】b")];
     [COther; CStr (py "second"); CStr (py "【需求描述】c")]].

Definition example_disk (path : str) : load_outcome :=
  if str_eqb path extractor.data_xlsx
  then Loaded (single_sheet example_sheet)
  else NotFound.

(** ** Alignment *)

(** The inner join of two row maps on the row key, in the order of the
    first: the rows of both, with the texts of either side. *)
Fixpoint inner_join (predictions_map references_map : metrics.rowmap)
  : list (Z * json * json) :=
  match predictions_map with
  | [] => []
  | (row, pred_text) :: rest =>
      match metrics.lookup references_map row with
      | Some ref_text =>
          (row, pred_text, ref_text) :: inner_join rest references_map
      | None => inner_join rest references_map
      end
  end.

(** The rows of a map. *)
Definition keys (m : metrics.rowmap) : list Z := List.map fst m.

(** ** The batch driver *)

(** The world after some more lines were printed. *)
Definition printed_more (w : world) (msgs : list message) : world :=
  {| requests := requests w; stdout := stdout w ++ msgs; files := files w |}.

(** The fields of a requirement record, as [item.get] returns them. *)
Definition row_of (item : json) : json :=
  match item with
  | JDict d =>
      match dict_lookup d requirement_decomposer.k_row with
      | Some v => v
      | None => JNull
      end
  | _ => JNull
  end.

Definition req_of (item : json) : json :=
  match item with
  | JDict d =>
      match dict_lookup d requirement_decomposer.k_req with
      | Some v => v
      | None => JNull
      end
  | _ => JNull
  end.

(** A record of a valid requirement file: a dictionary with the keys
    [row] and [req], whose requirement is a text or counts as missing. *)
Definition valid_record (item : json) : bool :=
  requirement_decomposer.is_requirement_record item
  && match req_of item with
     | JStr _ => true
     | v => negb (truthy v)
     end.

(** The record passes the test of the driver: both fields count as given. *)
Definition accepted (item : json) : bool :=
  truthy (row_of item) && truthy (req_of item).

(** The loop gets past the record without an exception: it is a
    dictionary, and its requirement is a text unless the record is passed
    over. *)
Definition processable (item : json) : bool :=
  is_dict item
  && (negb (accepted item)
      || match req_of item with JStr _ => true | _ => false end).

(** [row_number] of an output record. *)
Definition output_row (rec : json) : json :=
  match rec with
  | JDict d =>
      match dict_lookup d requirement_decomposer.k_row_number with
      | Some v => v
      | None => JNull
      end
  | _ => JNull
  end.

(** The environment holds an API key. *)
Definition key_given (api_key : option str) : bool :=
  match api_key with
  | Some (_ :: _) => true
  | _ => false
  end.

Section DriverSpec.
Context {FC : FloatCodec}.
Variable api_key : option str.
Variable endpoint : nat -> api_outcome.

(** The list a request yields: the content, when it is a non-empty string
    that parses as a JSON array. *)
Definition decoded (outcome : api_outcome) : option (list json) :=
  match outcome with
  | Content (Some (c :: s)) =>
      match Json.loads (c :: s) with
      | Some (JList l) => Some l
      | _ => None
      end
  | _ => None
  end.

(** [loop_run n items recs n']: starting with request number [n], the
    items yield the records [recs], and [n'] is the number of the next
    request.  An item that is not accepted, or for which no request is
    made, or whose request yields no non-empty list, yields no record; an
    accepted item whose request yields a non-empty list yields one. *)
Inductive loop_run : nat -> list json -> list json -> nat -> Prop :=
| run_done (n : nat) : loop_run n [] [] n
| run_invalid (n n' : nat) (item : json) (items recs : list json) :
    accepted item = false ->
    loop_run n items recs n' ->
    loop_run n (item :: items) recs n'
| run_no_key (n n' : nat) (item : json) (items recs : list json) :
    accepted item = true ->
    key_given api_key = false ->
    loop_run n items recs n' ->
    loop_run n (item :: items) recs n'
| run_failed (n n' : nat) (item : json) (items recs : list json) :
    accepted item = true ->
    key_given api_key = true ->
    (decoded (endpoint n) = None \/ decoded (endpoint n) = Some []) ->
    loop_run (S n) items recs n' ->
    loop_run n (item :: items) recs n'
| run_collected (n n' : nat) (item : json) (items recs : list json)
                (x : json) (l : list json) :
    accepted item = true ->
    key_given api_key = true ->
    decoded (endpoint n) = Some (x :: l) ->
    loop_run (S n) items recs n' ->
    loop_run n (item :: items)
             (requirement_decomposer.result_record (row_of item) (x :: l) :: recs)
             n'.

End DriverSpec.

(** The content a request ends with, and the line printed for it. *)
Definition content_of (outcome : api_outcome) : option str :=
  match outcome with
  | Content c => c
  | _ => None
  end.

Definition outcome_message (outcome : api_outcome) : message :=
  match outcome with
  | Content _ => MsgCallSucceeded
  | APIConnectionError => MsgConnectionFailed
  | RateLimitError => MsgRateLimited
  | AuthenticationError => MsgAuthenticationFailed
  | APIStatusError => MsgBadStatus
  | UnknownError => MsgUnknownError
  end.

(** The world after one request was sent and the lines around it printed. *)
Definition after_request (w : world) (msgs : list message) : world :=
  {| requests := S (requests w); stdout := stdout w ++ msgs; files := files w |}.

(** The line the decomposer prints for a response it rejects. *)
Definition rejection_message {FC : FloatCodec} (response : option str)
  : list message :=
  match response with
  | Some (c :: s) =>
      match Json.loads (c :: s) with
      | Some (JList _) => []
      | Some other => [MsgNotAnArray other]
      | None => [MsgJsonError (c :: s)]
      end
  | _ => []
  end.

(** A world in which nothing was requested or printed yet. *)
Definition initial_world (fs : filesystem) : world :=
  {| requests := 0; stdout := []; files := fs |}.

(** No file at all. *)
Definition empty_files : filesystem :=
  {| contents := fun _ => None; writable := fun _ => true |}.

(** An endpoint that answers every request with the same content. *)
Definition constant_endpoint (response : str) : nat -> api_outcome :=
  fun _ => Content (Some response).

(** ** The evaluator *)

(** A sub-requirement that has a description, whatever it is. *)
Definition has_description (item : json) : bool :=
  match item with
  | JDict d => dict_has d evaluater.k_description
  | _ => false
  end.

(** The value the evaluator reads from a request. *)
Definition parsed {FC : FloatCodec} (outcome : api_outcome) : option json :=
  match outcome with
  | Content (Some (c :: s)) => Json.loads (c :: s)
  | _ => None
  end.

(** An evaluation of the form the schema asks for: an object with a
    [score] and a [justification]. *)
Definition is_evaluation (v : json) : bool :=
  match v with
  | JDict d => dict_has d (py "score") && dict_has d (py "justification")
  | _ => false
  end.

(** A requirement file for examples: two requirements and two records the
    driver does not accept. *)
Definition example_requirements : list json :=
  [JDict [(py "row", JInt 2); (py "req", JStr (py "login"))];
   JDict [(py "row", JInt 0); (py "req", JStr (py "row zero"))];
   JDict [(py "row", JInt 3); (py "req", JStr [])];
   JDict [(py "row", JInt 4); (py "req", JStr (py "logout"))]].

(** An endpoint that answers the first request and refuses the others. *)
Definition example_endpoint (n : nat) : api_outcome :=
  match n with
  | O => Content (Some (pyq "[{'id':'1','description':'【需求描述】x'}]"))
  | S _ => RateLimitError
  end.

(** ** Saved results *)

(** The pieces [f x] for the elements of [l], each preceded by [sep]. *)
Definition tail_text {A : Type} (f : A -> str) (sep : str) : list A -> str :=
  fix go (l : list A) : str :=
    match l with
    | [] => []
    | x :: l' => sep ++ f x ++ go l'
    end.

Section Text.
Context {FC : FloatCodec}.

(** The text of a value as [json.dump] lays it out with [indent=2], in one
    piece. *)
Fixpoint text (level : nat) (o : json) {struct o} : str :=
  match o with
  | JList [] => py "[]"
  | JList (v :: l) =>
      ch "[" :: Json.newline_indent (S level) ++ text (S level) v
      ++ tail_text (text (S level)) (ch "," :: Json.newline_indent (S level)) l
      ++ Json.newline_indent level ++ [ch "]"]
  | JDict [] => py "{}"
  | JDict ((k, v) :: d) =>
      ch "{" :: Json.newline_indent (S level)
      ++ (Json.encode_basestring k ++ py ": " ++ text (S level) v)
      ++ tail_text (fun kv => Json.encode_basestring (fst kv) ++ py ": "
                              ++ text (S level) (snd kv))
                   (ch "," :: Json.newline_indent (S level)) d
      ++ Json.newline_indent level ++ [ch "}"]
  | JNull => py "null"
  | JBool true => py "true"
  | JBool false => py "false"
  | JInt z => Json.intstr z
  | JFloat f => Json.floatstr f
  | JStr s => Json.encode_basestring s
  end.

End Text.

(** The strings of a list are pairwise different. *)
Fixpoint distinct (ks : list str) : bool :=
  match ks with
  | [] => true
  | k :: rest => negb (existsb (str_eqb k) rest) && distinct rest
  end.

(** A value without floating-point numbers whose dictionaries have no
    key twice. *)
Fixpoint plain (v : json) : bool :=
  match v with
  | JFloat _ => false
  | JList l => forallb plain l
  | JDict d => distinct (List.map fst d) && forallb (fun kv => plain (snd kv)) d
  | _ => true
  end.

(** Every character of every string in the value can be written. *)
Fixpoint encodable (v : json) : bool :=
  match v with
  | JStr s => forallb utf8_encodable s
  | JList l => forallb encodable l
  | JDict d =>
      forallb (fun kv => forallb utf8_encodable (fst kv) && encodable (snd kv)) d
  | _ => true
  end.

(** The number of values in a value, itself included. *)
Fixpoint size (v : json) : nat :=
  match v with
  | JList l => S (list_sum (List.map (fun x => S (size x)) l))
  | JDict d => S (list_sum (List.map (fun kv => S (size (snd kv))) d))
  | _ => 1
  end.

(** What may follow a number: not a digit, a point or an exponent. *)
Definition delimited (rest : str) : bool :=
  match rest with
  | [] => true
  | c :: _ =>
      negb (Json.is_digit c || (c =? ch ".") || (c =? ch "e") || (c =? ch "E"))%N
  end.

(** ** Decomposition results, as the interface describes them *)

Record sub_requirement : Type := {
  id : str;
  description : str
}.

Record decomposition_result : Type := {
  row_number : Z;
  decomposed_list : list sub_requirement
}.

Definition sub_requirement_json (s : sub_requirement) : json :=
  JDict [(py "id", JStr (id s)); (py "description", JStr (description s))].

Definition decomposition_result_json (r : decomposition_result) : json :=
  JDict [(requirement_decomposer.k_row_number, JInt (row_number r));
         (requirement_decomposer.k_decomposed_list,
          JList (List.map sub_requirement_json (decomposed_list r)))].

(** All the text of a result can be written in UTF-8. *)
Definition result_encodable (r : decomposition_result) : bool :=
  forallb (fun s => forallb utf8_encodable (id s)
                    && forallb utf8_encodable (description s))
          (decomposed_list r).

(** Results for examples: one row with two sub-requirements. *)
Definition example_results : list decomposition_result :=
  [{| row_number := 12;
      decomposed_list :=
        [{| id := py "1"; description := py "【需求描述】用户名登录" |};
         {| id := py "2"; description := pyq "say 'hi'\" ++ [0x0A%N] |}] |}].

(** A result whose description is a lone surrogate, as [json.loads] makes
    it from the escape [\ud800]. *)
Definition surrogate_results : list decomposition_result :=
  [{| row_number := 1;
      decomposed_list := [{| id := py "1"; description := [0xD800%N] |}] |}].

(** ** Notions used in the proofs *)

(** A character that can start a value: no white space and no closing
    bracket. *)
Definition opens_value (c : char) : bool :=
  negb (Json.is_ws c) && negb (c =? ch "]")%N && negb (c =? ch "}")%N.

(** One more decimal digit. *)
Definition digit_step (acc : Z) (c : char) : Z :=
  (acc * 10 + (Z.of_N c - 0x30))%Z.

(** The string is white space throughout. *)
Definition all_space (s : str) : bool := forallb isspace s.

(** The number of white-space characters [lstrip] removes. *)
Definition leading (s : str) : nat := List.length s - List.length (lstrip s).

(** The look-ahead of the pattern. *)
Definition lookahead : re.op := re.Assert [re.ALiteral extractor.lbracket; re.AEnd].

(** The look-ahead holds at the end and before an opening bracket. *)
Definition at_stop (s : str) : bool :=
  match s with
  | [] => true
  | x :: _ => (extractor.lbracket =? x)%N
  end.

(** The text group 1 takes: the shortest one after which white space
    leads to the end or to an opening bracket. *)
Fixpoint lazy_content (s : str) : str :=
  match s with
  | [] => []
  | x :: s' => if at_stop (lstrip s) then [] else x :: lazy_content s'
  end.

(** What follows the marker in the pattern. *)
Definition after_marker : list re.op :=
  [re.MaxRepeat re.Space; re.MarkOpen; re.MinRepeat re.Any; re.MarkClose;
   re.MaxRepeat re.Space; lookahead].

(** The property of one value that the loops rely on. *)
Definition reads_back {FC : FloatCodec} (v : json) : Prop :=
  plain v = true ->
  forall level rest fuel,
    (size v <= fuel)%nat ->
    delimited rest = true ->
    Json.scan_once fuel (text level v ++ rest) = Json.Parsed v rest.


(** The text of a requirement file holding [example_requirements]. *)
Definition example_input : str :=
  pyq "[{'row': 2, 'req': 'login'}, {'row': 0, 'req': 'row zero'}, {'row': 3, 'req': ''}, {'row': 4, 'req': 'logout'}]".

(* ===================================================================== *)
(** * Notions used to state further properties                            *)
(* ===================================================================== *)

(** A section as the extraction returns it: no white space at either end
    and no opening bracket inside. *)
Definition trimmed_section (r : str) : Prop :=
  strip r = r /\ ~ In extractor.lbracket r.

(** The text of a record in the format the extraction expects: each field
    is its marker followed by its content. *)
Definition render_fields (fields : list (str * str)) : str :=
  List.concat (List.map (fun fc => marker_of (fst fc) ++ snd fc) fields).

(** The character does not occur in the string. *)
Definition lacks (c : char) (s : str) : bool := negb (existsb (N.eqb c) s).

(** Names without brackets, contents without an opening bracket, and no
    name twice. *)
Definition well_formed_fields (fields : list (str * str)) : bool :=
  forallb (fun fc => lacks extractor.lbracket (fst fc)
                     && lacks extractor.rbracket (fst fc)
                     && lacks extractor.lbracket (snd fc)) fields
  && distinct (List.map fst fields).


(** An item on which [extract_descriptions_from_list] raises: a value that
    is no container, a string or a list that holds the key, or a
    dictionary whose description counts as given but is no string. *)
Definition unreadable (item : json) : bool :=
  match item with
  | JNull | JBool _ | JInt _ | JFloat _ => true
  | JStr s => str_contains extractor.k_description s
  | JList l =>
      existsb (fun x => match x with
                        | JStr s => str_eqb extractor.k_description s
                        | _ => false
                        end) l
  | JDict d =>
      match dict_lookup d extractor.k_description with
      | Some (JStr _) => false
      | Some v => truthy v
      | None => false
      end
  end.

(** [decomposed_list] of a result, as [item.get] returns it. *)
Definition decomposed_of (item : json) : json :=
  match item with
  | JDict d =>
      match dict_lookup d extractor.k_decomposed_list with
      | Some v => v
      | None => JNull
      end
  | _ => JNull
  end.

(** The result passes the test of [process_json_file]: its row number and
    its list both count as given. *)
Definition scored (item : json) : bool :=
  truthy (row_number_of item) && truthy (decomposed_of item).

(** The fields of a metric record. *)
Definition metric_row (rec : json) : json :=
  match rec with
  | JDict d =>
      match dict_lookup d extractor.k_row with Some v => v | None => JNull end
  | _ => JNull
  end.

Definition metric_text (rec : json) : json :=
  match rec with
  | JDict d =>
      match dict_lookup d extractor.k_concatenated with
      | Some v => v
      | None => JNull
      end
  | _ => JNull
  end.

Definition metric_count (rec : json) : json :=
  match rec with
  | JDict d =>
      match dict_lookup d extractor.k_description_count with
      | Some v => v
      | None => JNull
      end
  | _ => JNull
  end.

(** The number a record gives as its [description_count]. *)
Definition count_of (rec : json) : Z :=
  match metric_count rec with
  | JInt z => z
  | _ => 0%Z
  end.

(** The sum of a list of integers. *)
Definition total (l : list Z) : Z := fold_right Z.add 0%Z l.

(** The text of the L1 cell of a row, when it is not empty. *)
Definition L1_text (disk : str -> load_outcome) (row : Z) : str :=
  match L1_cell disk row with
  | Some t => t
  | None => []
  end.

(** The requirement record of a row. *)
Definition requirement_record (disk : str -> load_outcome) (row : Z) : json :=
  JDict [(extractor.k_row, JInt row);
         (extractor.k_req, JStr (L1_text disk row))].

(** The integer a requirement record gives as its row. *)
Definition row_value (item : json) : Z :=
  match row_of item with
  | JInt z => z
  | _ => 0%Z
  end.

(** The list [load_requirements_from_json] keeps of the list of a file. *)
Definition limited (limit : option Z) (data : list json) : list json :=
  match limit with
  | Some n => if (0 <? n)%Z then firstn (Z.to_nat n) data else data
  | None => data
  end.

(** The requirements [main] works on: the list of the input file, when it
    is a list of requirement records. *)
Definition loaded_requirements {FC : FloatCodec} (fs : filesystem) : option (list json) :=
  match contents fs requirement_decomposer.req_source with
  | Some t =>
      match Json.loads t with
      | Some (JList data) =>
          if forallb requirement_decomposer.is_requirement_record data
          then Some data
          else None
      | _ => None
      end
  | None => None
  end.

(** What follows the requirement in the prompt: the additional output
    instruction under its heading, when one is given. *)
Definition prompt_tail (output_format_instruction : option str) : str :=
  match output_format_instruction with
  | Some (c :: s) =>
      [0x0A%N] ++ (0x0A%N :: py "=== 额外输出要求 ===") ++ [0x0A%N] ++ c :: s
  | _ => []
  end.

(** A key that is compared by value alone: [None], a boolean, an integer
    or a string. *)
Definition exact_key (v : json) : bool :=
  match v with
  | JFloat _ | JList _ | JDict _ => false
  | _ => true
  end.

(** The requirement of the last record whose row is the key [k]. *)
Definition last_req (data : list json) (k : json) : option json :=
  fold_left (fun found item =>
               if key_eq (row_of item) k then Some (req_of item) else found)
            data None.

(** [concatenated] of a record, as [item.get] returns it. *)
Definition concatenated_of (item : json) : json :=
  match item with
  | JDict d =>
      match dict_lookup d metrics.k_concatenated with
      | Some v => v
      | None => JNull
      end
  | _ => JNull
  end.

(** The text of the last record with a text that counts as given whose
    row is the key [k]. *)
Definition last_text (items : list json) (k : json) : option json :=
  fold_left (fun found item =>
               if truthy (concatenated_of item) && key_eq (row_of item) k
               then Some (concatenated_of item)
               else found)
            items None.

(** What stands for a key when keys are compared. *)
Inductive key_class : Type :=
| KNone
| KNumber (z : Z)
| KText (s : str).

Definition class_of (v : json) : key_class :=
  match v with
  | JBool b => KNumber (if b then 1 else 0)
  | JInt z => KNumber z
  | JStr s => KText s
  | _ => KNone
  end.

(** The exception [load_descriptions] raises on an item, if any: the item
    is no dictionary; or it has a text that counts as given but no row, or
    a row that cannot be a key. *)
Definition row_failure (item : json) : option exn :=
  match item with
  | JDict d =>
      if truthy (concatenated_of item) then
        match dict_lookup d metrics.k_row with
        | Some row => if hashable row then None else Some TypeError
        | None => Some KeyError
        end
      else None
  | _ => Some AttributeError
  end.

(** The failure of the first item that has one. *)
Fixpoint first_failure (items : list json) : option exn :=
  match items with
  | [] => None
  | item :: rest =>
      match row_failure item with
      | Some e => Some e
      | None => first_failure rest
      end
  end.

(** The rows of the items with a text are compared by value alone. *)
Definition exact_rows (items : list json) : bool :=
  forallb (fun item => negb (truthy (concatenated_of item))
                       || exact_key (row_of item)) items.

(** The state of the script before anything was requested or printed. *)
Definition initial_script (fs : filesystem) : script_world :=
  {| sent := 0; lines := []; disk_files := fs |}.

(** What a result record says about the run that appended it: it stems
    from a result [item] whose row number and list count as given and
    whose row has a requirement in the map, and from the request number
    [m], whose response parsed to the evaluation. *)
Definition evaluated {FC : FloatCodec} (endpoint : nat -> api_outcome)
           (original_reqs_map : kdict) (items : list json)
           (n n' : nat) (rec : json) : Prop :=
  exists item m e req,
    In item items
    /\ rec = evaluater.evaluation_record (row_number_of item) e
    /\ truthy (row_number_of item) = true
    /\ truthy (decomposed_of item) = true
    /\ kdict_get original_reqs_map (row_number_of item) = Ok req
    /\ truthy req = true
    /\ (n <= m < n')%nat
    /\ parsed (endpoint m) = Some e
    /\ truthy e = true.

(** The files the evaluator reads, for examples: one requirement and its
    decomposition. *)
Definition example_evaluation_files : filesystem :=
  {| contents := fun p =>
       if str_eqb p evaluater.req_source
       then Some (pyq "[{'row': 2, 'req': 'login'}]")
       else if str_eqb p evaluater.decomposed_source
       then Some (pyq "[{'row_number': 2, 'decomposed_list': [{'id': '1', 'description': 'a'}]}]")
       else None;
     writable := fun _ => true |}.

(** An endpoint that answers every request with the same evaluation. *)
Definition example_evaluator : nat -> api_outcome :=
  constant_endpoint (pyq "{'score': 4, 'justification': 'ok'}").

(** A file of three results: one with two sub-requirements, one whose row
    number is 0 and one whose list is empty. *)
Definition example_results_text : str :=
  pyq "[{'row_number': 3, 'decomposed_list': [{'id': '1', 'description': '【需求描述】a'}, {'id': '2', 'description': 'b'}]}, {'row_number': 0, 'decomposed_list': [{'id': '1', 'description': '【需求描述】c'}]}, {'row_number': 5, 'decomposed_list': []}]".

Definition example_results_items : list json :=
  [JDict [(py "row_number", JInt 3);
          (py "decomposed_list",
           JList [JDict [(py "id", JStr (py "1"));
                         (py "description", JStr (py "【需求描述】a"))];
                  JDict [(py "id", JStr (py "2"));
                         (py "description", JStr (py "b"))]])];
   JDict [(py "row_number", JInt 0);
          (py "decomposed_list",
           JList [JDict [(py "id", JStr (py "1"));
                         (py "description", JStr (py "【需求描述】c"))]])];
   JDict [(py "row_number", JInt 5); (py "decomposed_list", JList [])]].



(** A requirement that is no string. *)
Definition not_text (v : json) : bool :=
  match v with
  | JStr _ => false
  | _ => true
  end.

(** A requirement file whose second record has a number as its
    requirement. *)
Definition example_input_with_number : str :=
  pyq "[{'row': 2, 'req': 'login'}, {'row': 3, 'req': 7}, {'row': 4, 'req': 'logout'}]".

(* ===================================================================== *)
(** * The limits of the interpreter                                       *)
(* ===================================================================== *)

(** Three ways in which CPython stops a script are not part of the
    definitions above: [print], on a standard output in UTF-8, raises
    [UnicodeEncodeError] for a lone surrogate; turning an integer into
    decimal text, or decimal text into an integer, raises [ValueError]
    beyond 4300 digits ([sys.int_info.default_max_str_digits]); and
    following a value or a text that is nested too deeply raises
    [RecursionError].  None of them is caught where [json.loads] or
    [print] is called in the loops of the scripts.  The properties that
    say that a run returns, or what it returns, are therefore stated for
    the inputs that stay clear of the three; this section says which these
    are. *)

(** No character of the string is a surrogate. *)
Definition no_surrogate (s : str) : bool := forallb utf8_encodable s.

(** The number of digits up to which integers are converted. *)
Definition max_str_digits : N := 4300.

(** The number of decimal digits of an integer. *)
Definition decimal_digits (z : Z) : N :=
  N.of_nat (List.length (Json.intstr (Z.abs z))).

(** The integer has at most [max_str_digits] decimal digits. *)
Definition digits_fit (z : Z) : bool :=
  (decimal_digits z <=? max_str_digits)%N.

(** A depth of nesting that the default recursion limit of 1000 frames
    allows, with room for the frames of the callers. *)
Definition max_nesting : nat := 100.

(** The depth to which lists and dictionaries are nested in a value. *)
Fixpoint depth (v : json) : nat :=
  match v with
  | JList l => S (list_max (List.map depth l))
  | JDict d => S (list_max (List.map (fun kv => depth (snd kv)) d))
  | _ => 0
  end.

(** Every integer in the value has at most [max_str_digits] digits. *)
Fixpoint integers_fit (v : json) : bool :=
  match v with
  | JInt z => digits_fit z
  | JList l => forallb integers_fit l
  | JDict d => forallb (fun kv => integers_fit (snd kv)) d
  | _ => true
  end.

(** A value that [str], [repr] and [json.dump] go through without
    [ValueError] or [RecursionError]. *)
Definition within_limits (v : json) : bool :=
  integers_fit v && (depth v <=? max_nesting)%nat.

(** A value whose text the standard output takes when an f-string puts
    it into a line: a string goes in as it is, and must hold no surrogate;
    any other value goes in as its [repr], which escapes the surrogates of
    the strings inside. *)
Definition printable (v : json) : bool :=
  within_limits v
  && match v with
     | JStr s => no_surrogate s
     | _ => true
     end.

(** The row and the requirement of a record can be shown in the lines the
    driver prints about it. *)
Definition fields_printable (item : json) : bool :=
  printable (row_of item) && printable (req_of item).

(** The deepest nesting of brackets in a text, string literals left
    aside: [open] brackets are open at the beginning of [s], and [deepest]
    is the deepest nesting seen before.  Up to the place where the scanner
    of [json.loads] stops, this is the depth of its recursion. *)
Fixpoint nesting (in_string escaped : bool) (open deepest : nat) (s : str)
  : nat :=
  match s with
  | [] => deepest
  | c :: s' =>
      if in_string then
        if escaped then nesting true false open deepest s'
        else if (c =? ch "\")%N then nesting true true open deepest s'
        else if (c =? dquote)%N then nesting false false open deepest s'
        else nesting true false open deepest s'
      else if (c =? dquote)%N then nesting true false open deepest s'
      else if ((c =? ch "[") || (c =? ch "{"))%N
           then nesting false false (S open) (Nat.max deepest (S open)) s'
      else if ((c =? ch "]") || (c =? ch "}"))%N
           then nesting false false (Nat.pred open) deepest s'
      else nesting false false open deepest s'
  end.

(** The length of the longest run of digits in a text that begins after
    [run] digits. *)
Fixpoint digit_run (run : N) (s : str) : N :=
  match s with
  | [] => run
  | c :: s' =>
      if Json.is_digit c then digit_run (N.succ run) s'
      else N.max run (digit_run 0 s')
  end.

(** A text that [json.loads] scans without [RecursionError] and without
    [ValueError]: it is nested to [max_nesting] levels at most, and no
    number in it has more than [max_str_digits] digits. *)
Definition text_within_limits (s : str) : bool :=
  (nesting false false 0 0 s <=? max_nesting)%nat
  && (digit_run 0 s <=? max_str_digits)%N.

Section Responses.
Context {FC : FloatCodec}.

(** An outcome of a request that [decompose_requirement] handles without
    an exception: the content is within the limits; when it does not
    parse, the line that shows it raw can be printed, and so can the line
    that shows the value when it parses to something that is no array. *)
Definition handled_by_decomposer (outcome : api_outcome) : bool :=
  match outcome with
  | Content (Some s) =>
      text_within_limits s
      && match Json.loads s with
         | None => no_surrogate s
         | Some (JList _) => true
         | Some (JStr t) => no_surrogate t
         | Some _ => true
         end
  | _ => true
  end.

(** The same for [evaluate_decomposition], which prints the content only
    when it does not parse. *)
Definition handled_by_evaluator (outcome : api_outcome) : bool :=
  match outcome with
  | Content (Some s) =>
      text_within_limits s
      && match Json.loads s with
         | None => no_surrogate s
         | Some _ => true
         end
  | _ => true
  end.

End Responses.

(** The text of the requirement file, when there is one, is within the
    limits. *)
Definition source_within_limits (fs : filesystem) : bool :=
  match contents fs requirement_decomposer.req_source with
  | Some t => text_within_limits t
  | None => true
  end.

(** A response whose parsed value is a lone surrogate, written as an
    escape. *)
Definition surrogate_response : str := pyq "'\ud800'".

(* ===================================================================== *)
(** * Facts about strings                                                 *)
(* ===================================================================== *)

#[local] Arguments N.eqb : simpl never.
#[local] Arguments N.leb : simpl never.
#[local] Arguments N.ltb : simpl never.

Lemma str_eqb_refl (a : str) : str_eqb a a = true.
Proof.
  induction a as [|x a IH]; simpl; [reflexivity|].
  now rewrite N.eqb_refl, IH.
Qed.

Lemma str_eqb_eq (a b : str) : str_eqb a b = true <-> a = b.
Proof.
  split.
  - revert b. induction a as [|x a IH]; intros [|y b]; simpl; try discriminate; auto.
    intros H. apply andb_true_iff in H as [Hx Hr].
    apply N.eqb_eq in Hx. subst. f_equal. now apply IH.
  - intros ->. apply str_eqb_refl.
Qed.

Lemma str_eqb_neq (a b : str) : str_eqb a b = false <-> a <> b.
Proof.
  split.
  - intros H E. apply str_eqb_eq in E. congruence.
  - intros H. destruct (str_eqb a b) eqn:E; [|reflexivity].
    apply str_eqb_eq in E. contradiction.
Qed.

Lemma strip_prefix_app (p s : str) : strip_prefix p (p ++ s) = Some s.
Proof.
  induction p as [|x p IH]; simpl; [reflexivity|].
  now rewrite N.eqb_refl.
Qed.

Lemma strip_prefix_Some (p s r : str) :
  strip_prefix p s = Some r -> s = p ++ r.
Proof.
  revert s. induction p as [|x p IH]; intros s H; simpl in *.
  - congruence.
  - destruct s as [|y s]; [discriminate|].
    destruct (N.eqb_spec x y); [|discriminate].
    subst. f_equal. now apply IH.
Qed.

Lemma startswith_true (s p : str) :
  startswith s p = true -> exists r, s = p ++ r.
Proof.
  unfold startswith. destruct (strip_prefix p s) eqn:E; [|discriminate].
  intros _. exists s0. now apply strip_prefix_Some.
Qed.

Lemma startswith_app (p r : str) : startswith (p ++ r) p = true.
Proof. unfold startswith. now rewrite strip_prefix_app. Qed.

(** [str_find] returns the place of an occurrence ... *)
Lemma str_find_Some (needle hay : str) (i : nat) :
  str_find needle hay = Some i ->
  hay = firstn i hay ++ needle ++ skipn (i + List.length needle) hay.
Proof.
  revert i. induction hay as [|x hay IH]; intros i; simpl.
  - destruct (startswith [] needle) eqn:E; [|discriminate].
    intros [= <-]. apply startswith_true in E as [r E].
    destruct needle; [reflexivity|discriminate].
  - destruct (startswith (x :: hay) needle) eqn:E.
    + intros [= <-]. apply startswith_true in E as [r E].
      simpl. rewrite E at 1. f_equal.
      rewrite E. rewrite skipn_app, Nat.sub_diag, skipn_all. reflexivity.
    + destruct (str_find needle hay) as [j|] eqn:F; [|discriminate].
      simpl. intros [= <-]. simpl. f_equal. now apply IH.
Qed.

(** ... and [None] only when there is no occurrence at all. *)
Lemma str_find_None (needle hay : str) :
  str_find needle hay = None ->
  forall pre post, hay <> pre ++ needle ++ post.
Proof.
  induction hay as [|x hay IH]; simpl.
  - destruct (startswith [] needle) eqn:E; [discriminate|].
    intros _ pre post H. symmetry in H.
    apply app_eq_nil in H as [-> H]. apply app_eq_nil in H as [-> _].
    discriminate.
  - destruct (startswith (x :: hay) needle) eqn:E; [discriminate|].
    destruct (str_find needle hay) eqn:F; [discriminate|].
    intros _ pre post H. destruct pre as [|y pre]; simpl in H.
    + rewrite H, startswith_app in E. discriminate.
    + injection H as _ H. exact (IH eq_refl pre post H).
Qed.

Lemma str_find_occurs (needle pre post : str) :
  exists i, str_find needle (pre ++ needle ++ post) = Some i.
Proof.
  destruct (str_find needle (pre ++ needle ++ post)) eqn:E; [eauto|].
  exfalso. exact (str_find_None _ _ E pre post eq_refl).
Qed.

(** ** Stripping white space *)

Lemma lstrip_app (a b : str) :
  lstrip (a ++ b) = if all_space a then lstrip b else lstrip a ++ b.
Proof.
  induction a as [|x a IH]; simpl; [reflexivity|].
  destruct (isspace x); simpl; [exact IH|reflexivity].
Qed.

Lemma lstrip_all_space (s : str) : all_space s = true -> lstrip s = [].
Proof.
  induction s as [|x s IH]; simpl; [reflexivity|].
  destruct (isspace x); simpl; [exact IH|discriminate].
Qed.

Lemma lstrip_nil_all_space (s : str) : lstrip s = [] -> all_space s = true.
Proof.
  induction s as [|x s IH]; simpl; [reflexivity|].
  destruct (isspace x); simpl; [exact IH|discriminate].
Qed.

Lemma all_space_rev (s : str) : all_space (rev s) = all_space s.
Proof.
  unfold all_space. induction s as [|x s IH]; simpl; [reflexivity|].
  rewrite forallb_app, IH. simpl. rewrite andb_true_r. apply andb_comm.
Qed.

Lemma rstrip_nil : rstrip [] = [].
Proof. reflexivity. Qed.

(** [rstrip] seen from the front of the string. *)
Lemma rstrip_cons (x : char) (s : str) :
  rstrip (x :: s) =
  if all_space (x :: s) then [] else x :: rstrip s.
Proof.
  unfold rstrip. simpl rev. rewrite lstrip_app, all_space_rev.
  simpl. destruct (all_space s) eqn:Hs.
  - rewrite andb_true_r. simpl. destruct (isspace x); simpl; [reflexivity|].
    rewrite (lstrip_all_space (rev s)) by now rewrite all_space_rev.
    reflexivity.
  - rewrite andb_false_r. rewrite rev_app_distr. reflexivity.
Qed.

Lemma rstrip_all_space (s : str) : all_space s = true -> rstrip s = [].
Proof.
  intros H. unfold rstrip. rewrite lstrip_all_space; [reflexivity|].
  now rewrite all_space_rev.
Qed.

Lemma lstrip_idem (s : str) : lstrip (lstrip s) = lstrip s.
Proof.
  induction s as [|x s IH]; simpl; [reflexivity|].
  destruct (isspace x) eqn:E; [exact IH|]. simpl. now rewrite E.
Qed.

Lemma rstrip_idem (s : str) : rstrip (rstrip s) = rstrip s.
Proof.
  unfold rstrip. rewrite rev_involutive, lstrip_idem. reflexivity.
Qed.

(** A string that starts with no white space keeps its head under
    [rstrip]. *)
Lemma lstrip_rstrip_head (s : str) :
  lstrip s = s -> lstrip (rstrip s) = rstrip s.
Proof.
  destruct s as [|x s]; [reflexivity|].
  simpl. destruct (isspace x) eqn:E.
  - intros H. exfalso.
    assert (L : (List.length (lstrip s) <= List.length s)%nat).
    { clear. induction s as [|y s IH]; simpl; [lia|].
      destruct (isspace y); simpl; lia. }
    rewrite H in L. simpl in L. lia.
  - intros _. rewrite rstrip_cons. simpl. rewrite E. simpl. now rewrite E.
Qed.

Lemma strip_idem (s : str) : strip (strip s) = strip s.
Proof.
  unfold strip.
  rewrite (lstrip_rstrip_head (lstrip s)) by apply lstrip_idem.
  apply rstrip_idem.
Qed.

Lemma strip_lstrip (s : str) : strip (lstrip s) = strip s.
Proof. unfold strip. now rewrite lstrip_idem. Qed.

Lemma strip_rstrip_lstrip (s : str) : strip (rstrip (lstrip s)) = strip s.
Proof. exact (strip_idem s). Qed.

(* ===================================================================== *)
(** * The pattern of [extract_content]                                    *)
(* ===================================================================== *)

Section Pattern.
Import re.

Lemma run_max_nil cat k pos m :
  run (MaxRepeat cat :: k) [] pos m = run k [] pos m.
Proof. reflexivity. Qed.

Lemma run_max_cons cat k x s pos m :
  run (MaxRepeat cat :: k) (x :: s) pos m =
  if in_category cat x then
    match run (MaxRepeat cat :: k) s (S pos) m with
    | Some r => Some r
    | None => run k (x :: s) pos m
    end
  else run k (x :: s) pos m.
Proof. reflexivity. Qed.

Lemma run_min_eq cat k s pos m :
  run (MinRepeat cat :: k) s pos m =
  match run k s pos m with
  | Some r => Some r
  | None =>
      match s with
      | x :: s' =>
          if in_category cat x then run (MinRepeat cat :: k) s' (S pos) m
          else None
      | [] => None
      end
  end.
Proof. destruct s; reflexivity. Qed.

(** A run of literals consumes exactly that prefix. *)
Lemma run_escaped lits k s pos m :
  run (escaped lits ++ k) s pos m =
  match strip_prefix lits s with
  | Some r => run k r (pos + List.length lits) m
  | None => None
  end.
Proof.
  revert s pos. induction lits as [|c lits IH]; intros s pos; simpl.
  - now rewrite Nat.add_0_r.
  - destruct s as [|x s]; [reflexivity|].
    destruct (c =? x)%N; [|reflexivity].
    unfold escaped in IH. rewrite IH. now rewrite Nat.add_succ_r.
Qed.

Lemma lstrip_length (s : str) : (List.length (lstrip s) <= List.length s)%nat.
Proof.
  induction s as [|x s IH]; simpl; [lia|].
  destruct (isspace x); simpl; lia.
Qed.

Lemma leading_cons_space x s :
  isspace x = true -> leading (x :: s) = S (leading s).
Proof.
  intros H. unfold leading. cbn [lstrip]. rewrite H. cbn [List.length].
  pose proof (lstrip_length s). lia.
Qed.

Lemma leading_cons_other x s : isspace x = false -> leading (x :: s) = 0%nat.
Proof. intros H. unfold leading. cbn [lstrip]. rewrite H. lia. Qed.

Lemma skipn_leading (s : str) : skipn (leading s) s = lstrip s.
Proof.
  induction s as [|x s IH]; [reflexivity|].
  destruct (isspace x) eqn:E.
  - rewrite leading_cons_space by assumption. simpl. now rewrite E.
  - rewrite leading_cons_other by assumption. simpl. now rewrite E.
Qed.

(** Greedy white space: when the rest of the pattern matches after all
    of it, that match is taken. *)
Lemma run_max_space_all k s pos m r :
  run k (lstrip s) (pos + leading s) m = Some r ->
  run (MaxRepeat Space :: k) s pos m = Some r.
Proof.
  revert pos. induction s as [|x s IH]; intros pos H.
  - rewrite run_max_nil. simpl in H. now rewrite Nat.add_0_r in H.
  - rewrite run_max_cons. simpl in_category. destruct (isspace x) eqn:E.
    + rewrite leading_cons_space in H by assumption.
      simpl lstrip in H. rewrite E in H.
      rewrite (IH (S pos)); [reflexivity|].
      now rewrite Nat.add_succ_l, <- Nat.add_succ_r.
    + rewrite leading_cons_other in H by assumption.
      simpl lstrip in H. rewrite E, Nat.add_0_r in H. exact H.
Qed.

Lemma lookahead_run s pos m :
  run [lookahead] s pos m = if at_stop s then Some m else None.
Proof.
  unfold lookahead. simpl. destruct s as [|x s]; simpl; [reflexivity|].
  now rewrite orb_false_r.
Qed.

Lemma isspace_lbracket x :
  (extractor.lbracket =? x)%N = true -> isspace x = false.
Proof. intros H. apply N.eqb_eq in H. subst. reflexivity. Qed.

(** White space and the look-ahead: backtracking into the white space
    never helps. *)
Lemma run_space_lookahead s pos m :
  run [MaxRepeat Space; lookahead] s pos m =
  if at_stop (lstrip s) then Some m else None.
Proof.
  revert pos. induction s as [|x s IH]; intros pos.
  - reflexivity.
  - rewrite run_max_cons. simpl in_category. simpl lstrip.
    destruct (isspace x) eqn:E.
    + rewrite IH. destruct (at_stop (lstrip s)); [reflexivity|].
      rewrite lookahead_run. simpl.
      destruct (extractor.lbracket =? x)%N eqn:L; [|reflexivity].
      apply isspace_lbracket in L. congruence.
    + apply lookahead_run.
Qed.

Lemma run_group s pos m :
  run [MinRepeat Any; MarkClose; MaxRepeat Space; lookahead] s pos m =
  Some (fst m, pos + List.length (lazy_content s)).
Proof.
  revert pos. induction s as [|x s IH]; intros pos.
  - simpl. now rewrite Nat.add_0_r.
  - rewrite run_min_eq.
    change (run [MarkClose; MaxRepeat Space; lookahead] (x :: s) pos m)
      with (run [MaxRepeat Space; lookahead] (x :: s) pos (fst m, pos)).
    rewrite run_space_lookahead. cbn [lazy_content].
    destruct (at_stop (lstrip (x :: s))).
    + cbn [List.length]. now rewrite Nat.add_0_r.
    + cbn [in_category]. rewrite IH. cbn [List.length].
      now rewrite Nat.add_succ_r.
Qed.

Lemma run_after_marker s pos m :
  run after_marker s pos m =
  Some (pos + leading s,
        pos + leading s + List.length (lazy_content (lstrip s))).
Proof.
  unfold after_marker. apply run_max_space_all.
  change (run (MarkOpen :: ?k) ?s ?p ?m) with (run k s p (p, snd m)).
  rewrite run_group. reflexivity.
Qed.

Lemma pattern_eq field_name :
  extractor.pattern field_name =
  escaped (marker_of field_name) ++ after_marker.
Proof.
  unfold extractor.pattern, marker_of, escaped. simpl. f_equal.
  rewrite map_app, <- app_assoc. reflexivity.
Qed.

(** One attempt of the pattern at a position. *)
Lemma run_pattern field_name s pos m :
  run (extractor.pattern field_name) s pos m =
  match strip_prefix (marker_of field_name) s with
  | Some r =>
      let p := (pos + List.length (marker_of field_name))%nat in
      Some (p + leading r,
            p + leading r + List.length (lazy_content (lstrip r)))
  | None => None
  end.
Proof.
  rewrite pattern_eq, run_escaped.
  destruct (strip_prefix (marker_of field_name) s); [|reflexivity].
  apply run_after_marker.
Qed.

(** [re.search] finds the first occurrence of the marker. *)
Lemma search_from_found field_name s pos i :
  str_find (marker_of field_name) s = Some i ->
  search_from (extractor.pattern field_name) s pos =
  let r := skipn (i + List.length (marker_of field_name)) s in
  let p := (pos + i + List.length (marker_of field_name))%nat in
  Some (p + leading r, p + leading r + List.length (lazy_content (lstrip r))).
Proof.
  revert pos i. induction s as [|x s IH]; intros pos i H.
  - simpl in H. unfold startswith in H.
    destruct (strip_prefix (marker_of field_name) []) eqn:E; [|discriminate].
    unfold marker_of in E. simpl in E. discriminate.
  - simpl in H. unfold startswith in H.
    cbn [search_from]. rewrite run_pattern.
    destruct (strip_prefix (marker_of field_name) (x :: s)) as [r|] eqn:E.
    + injection H as <-. apply strip_prefix_Some in E.
      cbn zeta. rewrite Nat.add_0_l, Nat.add_0_r.
      rewrite E at 1 2 3. rewrite skipn_app, Nat.sub_diag, skipn_all.
      reflexivity.
    + destruct (str_find (marker_of field_name) s) as [j|] eqn:F;
        [|discriminate].
      simpl in H. injection H as <-.
      rewrite (IH (S pos) j eq_refl). cbn zeta. simpl skipn.
      replace (S pos + j)%nat with (pos + S j)%nat by lia. reflexivity.
Qed.

Lemma search_from_absent field_name s pos :
  str_find (marker_of field_name) s = None ->
  search_from (extractor.pattern field_name) s pos = None.
Proof.
  revert pos. induction s as [|x s IH]; intros pos H.
  - reflexivity.
  - simpl in H. unfold startswith in H.
    cbn [search_from]. rewrite run_pattern.
    destruct (strip_prefix (marker_of field_name) (x :: s)); [discriminate|].
    destruct (str_find (marker_of field_name) s); [discriminate|].
    now apply IH.
Qed.

(** ** Group 1 is the stripped text before the next opening bracket *)

Lemma take_until_lstrip (s : str) :
  lstrip (take_until extractor.lbracket s) =
  take_until extractor.lbracket (lstrip s).
Proof.
  induction s as [|x s IH]; [reflexivity|].
  simpl. destruct (x =? extractor.lbracket)%N eqn:L.
  - apply N.eqb_eq in L. subst. reflexivity.
  - simpl. destruct (isspace x); [exact IH|]. simpl. now rewrite L.
Qed.

Lemma at_stop_all_space (s : str) :
  at_stop (lstrip s) = all_space (take_until extractor.lbracket s).
Proof.
  induction s as [|x s IH]; [reflexivity|].
  simpl. destruct (isspace x) eqn:E.
  - destruct (x =? extractor.lbracket)%N eqn:L.
    + apply N.eqb_eq in L. subst. discriminate.
    + simpl. rewrite E. exact IH.
  - simpl. rewrite (N.eqb_sym extractor.lbracket x).
    destruct (x =? extractor.lbracket)%N; [reflexivity|].
    simpl. now rewrite E.
Qed.

Lemma lazy_content_rstrip (s : str) :
  lazy_content s = rstrip (take_until extractor.lbracket s).
Proof.
  induction s as [|x s IH]; [reflexivity|].
  cbn [lazy_content]. rewrite at_stop_all_space.
  destruct (all_space (take_until extractor.lbracket (x :: s))) eqn:A.
  - now rewrite rstrip_all_space.
  - simpl in A |- *. destruct (x =? extractor.lbracket)%N; [discriminate|].
    rewrite rstrip_cons, A, IH. reflexivity.
Qed.

Lemma group1_at (pre body post : str) :
  group1 (pre ++ body ++ post)
         (List.length pre, List.length pre + List.length body) = body.
Proof.
  unfold group1. simpl.
  replace (List.length pre + List.length body - List.length pre)%nat
    with (List.length body) by lia.
  rewrite skipn_app, Nat.sub_diag, skipn_all. simpl.
  rewrite firstn_app, Nat.sub_diag, firstn_all. simpl.
  now rewrite app_nil_r.
Qed.

Lemma lazy_content_prefix (s : str) :
  exists post, s = lazy_content s ++ post.
Proof.
  induction s as [|x s [post IH]]; [now exists []|].
  cbn [lazy_content]. destruct (at_stop (lstrip (x :: s))).
  - now exists (x :: s).
  - exists post. simpl. now rewrite <- IH.
Qed.

End Pattern.

(* ===================================================================== *)
(** * Content extraction                                                  *)
(* ===================================================================== *)

Lemma group1_lazy_content (text : str) (i n : nat) :
  (i + n <= List.length text)%nat ->
  re.group1 text
    (0 + i + n + leading (skipn (i + n) text),
     0 + i + n + leading (skipn (i + n) text)
     + List.length (lazy_content (lstrip (skipn (i + n) text))))%nat
  = lazy_content (lstrip (skipn (i + n) text)).
Proof.
  intros Hlen. set (r := skipn (i + n) text).
  destruct (lazy_content_prefix (lstrip r)) as [post Hpost].
  assert (Hr : r = firstn (leading r) r ++ lstrip r).
  { rewrite <- skipn_leading. symmetry. apply firstn_skipn. }
  assert (Ht : text =
               (firstn (i + n) text ++ firstn (leading r) r)
               ++ lazy_content (lstrip r) ++ post).
  { rewrite <- app_assoc, <- Hpost, <- Hr. symmetry. apply firstn_skipn. }
  assert (Hl : List.length (firstn (i + n) text ++ firstn (leading r) r)
               = (0 + i + n + leading r)%nat).
  { rewrite length_app, !firstn_length_le; [lia| |lia].
    unfold leading. lia. }
  rewrite <- Hl. rewrite Ht at 1. apply group1_at.
Qed.

(** What [extract_content] returns on a text, for any field name. *)
Lemma extract_content_field (text field_name : str) :
  extractor.extract_content (JStr text) field_name =
  Ok (match str_find (marker_of field_name) text with
      | Some i =>
          Some (strip (take_until extractor.lbracket
                         (skipn (i + List.length (marker_of field_name)) text)))
      | None => None
      end).
Proof.
  destruct (str_find (marker_of field_name) text) as [i|] eqn:H.
  - unfold extractor.extract_content, re.search.
    rewrite (search_from_found field_name text 0 i H). cbv beta iota zeta.
    rewrite group1_lazy_content.
    + rewrite lazy_content_rstrip, <- take_until_lstrip.
      now rewrite strip_rstrip_lstrip.
    + apply str_find_Some in H.
      apply (f_equal (@List.length char)) in H.
      rewrite !length_app, length_firstn, length_skipn in H.
      assert (0 < List.length (marker_of field_name))%nat
        by (unfold marker_of; cbn [List.length]; lia).
      lia.
  - unfold extractor.extract_content, re.search.
    now rewrite search_from_absent.
Qed.

(** C6 (as the code has it): when the marker of the field occurs in the
    text, [extract_content] returns the text between the first occurrence
    of the marker and the next opening bracket (or the end of the text when
    no opening bracket follows), with the white space at both ends removed;
    when the marker does not occur, it returns [None]. *)
Theorem extract_content_until_bracket (text field_name : str) :
  (forall i,
      str_find (marker_of field_name) text = Some i ->
      extractor.extract_content (JStr text) field_name =
      Ok (Some (strip (take_until extractor.lbracket
                         (skipn (i + List.length (marker_of field_name)) text)))))
  /\ (str_find (marker_of field_name) text = None ->
      extractor.extract_content (JStr text) field_name = Ok None).
Proof.
  split.
  - intros i H. unfold extractor.extract_content, re.search.
    rewrite (search_from_found field_name text 0 i H). cbv beta iota zeta.
    rewrite group1_lazy_content.
    + rewrite lazy_content_rstrip, <- take_until_lstrip.
      now rewrite strip_rstrip_lstrip.
    + apply str_find_Some in H.
      apply (f_equal (@List.length char)) in H.
      rewrite !length_app, length_firstn, length_skipn in H.
      assert (0 < List.length (marker_of field_name))%nat
        by (unfold marker_of; cbn [List.length]; lia).
      lia.
  - intros H. unfold extractor.extract_content, re.search.
    now rewrite search_from_absent.
Qed.

Lemma extract_content_until_bracket_witness :
  str_find (marker_of extractor.field_description)
           (py "x【需求描述】  a b  【c】d") = Some 1%nat
  /\ extractor.extract_content (JStr (py "x【需求描述】  a b  【c】d"))
                               extractor.field_description
     = Ok (Some (py "a b"))
  /\ str_find (marker_of extractor.field_description) (py "【需求描述") = None
  /\ extractor.extract_content (JStr (py "【需求描述"))
                               extractor.field_description = Ok None.
Proof.
  split; [reflexivity|]. split.
  - exact (proj1 (extract_content_until_bracket
                    (py "x【需求描述】  a b  【c】d")
                    extractor.field_description) 1%nat eq_refl).
  - split; [reflexivity|].
    exact (proj2 (extract_content_until_bracket
                    (py "【需求描述") extractor.field_description) eq_refl).
Defined.

(** C6 as stated fails where an opening bracket is not the start of a
    complete marker: the extraction stops there all the same. *)
Lemma extract_content_stops_at_lone_bracket :
  let text := py "【需求描述】a【b" in
  str_find (marker_of extractor.field_description) text = Some 0%nat
  /\ until_complete_marker (skipn 6 text) = py "a【b"
  /\ extractor.extract_content (JStr text) extractor.field_description
     = Ok (Some (py "a"))
  /\ extractor.extract_content (JStr text) extractor.field_description
     <> Ok (Some (strip (until_complete_marker (skipn 6 text)))).
Proof.
  cbv zeta. repeat split; try reflexivity.
  vm_compute. discriminate.
Qed.

(* ===================================================================== *)
(** * Metric records                                                      *)
(* ===================================================================== *)

Lemma extract_content_section (t : str) :
  extractor.extract_content (JStr t) extractor.field_description
  = Ok (description_section t).
Proof.
  unfold description_section. apply extract_content_field.
Qed.

Lemma description_section_nil : description_section [] = None.
Proof. reflexivity. Qed.

Lemma collect_descriptions_sections (subs : list json) (acc : list str) :
  forallb has_text_description subs = true ->
  extractor.collect_descriptions subs acc = Ok (acc ++ description_sections subs).
Proof.
  revert acc. induction subs as [|sub rest IH]; intros acc H.
  - simpl. now rewrite app_nil_r.
  - cbn [forallb] in H. apply andb_true_iff in H as [Hsub Hrest].
    unfold has_text_description in Hsub.
    cbn [extractor.collect_descriptions description_sections].
    destruct sub as [| | | | |l|d]; try discriminate.
    cbn [description_text] in *.
    cbn [py_in py_subscript bind]. unfold dict_has.
    destruct (dict_lookup d extractor.k_description) as [v|]; [|discriminate].
    destruct v; try discriminate.
    cbn [bind]. destruct s as [|c s].
    + cbn [truthy]. rewrite description_section_nil. now apply IH.
    + cbn [truthy]. rewrite extract_content_section. cbn [bind].
      destruct (description_section (c :: s)) as [[|x a]|].
      * now apply IH.
      * rewrite IH by assumption. now rewrite <- app_assoc.
      * now apply IH.
Qed.

Lemma description_sections_length (subs : list json) :
  (List.length (description_sections subs) <= List.length subs)%nat.
Proof.
  induction subs as [|sub rest IH]; simpl; [lia|].
  destruct (description_text sub) as [t|]; [|lia].
  destruct (description_section t) as [[|c a]|]; simpl; lia.
Qed.

Lemma process_items_records (items results : list json) :
  forallb is_decomposition_result items = true ->
  extractor.process_items items results =
  Ok (results ++
      List.map (fun item =>
                  extractor.metric_record (row_number_of item)
                    (description_sections (decomposed_list_of item))) items).
Proof.
  revert results. induction items as [|item rest IH]; intros results H.
  - simpl. now rewrite app_nil_r.
  - cbn [forallb] in H. apply andb_true_iff in H as [Hitem Hrest].
    cbn [extractor.process_items List.map].
    destruct item as [| | | | |l|d]; try discriminate.
    cbn [is_decomposition_result] in Hitem.
    apply andb_true_iff in Hitem as [Hrow Hsubs].
    cbn [py_get bind row_number_of decomposed_list_of] in *.
    destruct (dict_lookup d extractor.k_decomposed_list) as [v|];
      [|discriminate].
    destruct v as [| | | | |subs|]; try discriminate.
    destruct subs as [|s subs]; [discriminate|].
    rewrite Hrow. cbn [truthy andb].
    unfold extractor.extract_descriptions_from_list. cbn [py_iter bind].
    rewrite collect_descriptions_sections by assumption.
    cbn [bind app]. rewrite IH by assumption.
    now rewrite <- app_assoc.
Qed.

(** C5 (as the code has it): for a file of decomposition results, each
    with a row number that counts as given and a non-empty list of
    sub-requirements with text descriptions, [process_json_file] yields one
    metric record per result, in order; its [concatenated] is the join,
    with single spaces, of the non-empty description sections found in the
    descriptions, and its [description_count] is the number of these
    sections, which is at most the number of sub-requirements. *)
Theorem process_json_file_metric_records
        {FC : FloatCodec} (fs : filesystem) (file_path text : str)
        (items : list json) :
  contents fs file_path = Some text ->
  Json.loads text = Some (JList items) ->
  forallb is_decomposition_result items = true ->
  extractor.process_json_file fs file_path =
  Ok (List.map
        (fun item =>
           JDict
             [(extractor.k_row, row_number_of item);
              (extractor.k_concatenated,
               JStr (join [ch " "]
                          (description_sections (decomposed_list_of item))));
              (extractor.k_description_count,
               JInt (Z.of_nat (List.length
                       (description_sections (decomposed_list_of item)))))])
        items)
  /\ forall item,
      (List.length (description_sections (decomposed_list_of item))
       <= List.length (decomposed_list_of item))%nat.
Proof.
  intros Hfile Hload Hitems. split.
  - unfold extractor.process_json_file. rewrite Hfile, Hload.
    cbn [py_iter bind]. now rewrite process_items_records.
  - intros item. apply description_sections_length.
Qed.

Lemma process_json_file_metric_records_witness :
  let path := py "ar_23/decomposed_output.json" in
  let text :=
    pyq "[{'row_number': 3, 'decomposed_list': [{'id': '1', 'description': '【需求描述】用户名登录 【目标用户】全部'}, {'id': '2', 'description': '无标记'}, {'id': '3', 'description': '【需求场景】x【需求描述】 手机号登录'}]}]" in
  extractor.process_json_file (FC := example_codec) (single_file path text) path
  = Ok [JDict [(extractor.k_row, JInt 3);
               (extractor.k_concatenated, JStr (py "用户名登录 手机号登录"));
               (extractor.k_description_count, JInt 2)]].
Proof.
  cbv zeta.
  refine (proj1 (@process_json_file_metric_records example_codec
                   (single_file (py "ar_23/decomposed_output.json") _)
                   (py "ar_23/decomposed_output.json") _
                   [JDict [(extractor.k_row_number, JInt 3);
                           (extractor.k_decomposed_list,
                            JList [JDict [(py "id", JStr (py "1"));
                                          (extractor.k_description,
                                           JStr (py "【需求描述】用户名登录 【目标用户】全部"))];
                                   JDict [(py "id", JStr (py "2"));
                                          (extractor.k_description,
                                           JStr (py "无标记"))];
                                   JDict [(py "id", JStr (py "3"));
                                          (extractor.k_description,
                                           JStr (py "【需求场景】x【需求描述】 手机号登录"))]])]]
                   _ _ _)).
  - vm_compute. reflexivity.
  - vm_compute. reflexivity.
  - vm_compute. reflexivity.
Defined.

(** C5 as stated fails for a sub-requirement whose description has no
    marker of the description field: it adds nothing to [concatenated] and
    is not counted. *)
Lemma process_json_file_skips_unmarked :
  let path := py "ar_23/decomposed_output.json" in
  let item :=
    JDict [(extractor.k_row_number, JInt 1);
           (extractor.k_decomposed_list,
            JList [JDict [(py "id", JStr (py "1"));
                          (extractor.k_description, JStr (py "abc"))]])] in
  let text :=
    pyq "[{'row_number': 1, 'decomposed_list': [{'id': '1', 'description': 'abc'}]}]" in
  Json.loads (FC := example_codec) text = Some (JList [item])
  /\ is_decomposition_result item = true
  /\ extractor.process_json_file (FC := example_codec)
       (single_file path text) path
     = Ok [JDict [(extractor.k_row, JInt 1);
                  (extractor.k_concatenated, JStr []);
                  (extractor.k_description_count, JInt 0)]]
  /\ whole_descriptions_record item
     = JDict [(extractor.k_row, JInt 1);
              (extractor.k_concatenated, JStr (py "abc"));
              (extractor.k_description_count, JInt 1)]
  /\ extractor.process_json_file (FC := example_codec)
       (single_file path text) path
     <> Ok [whole_descriptions_record item].
Proof.
  cbv zeta. repeat split; try (vm_compute; reflexivity).
  vm_compute. discriminate.
Qed.

(* ===================================================================== *)
(** * Reading a cell of a spreadsheet                                     *)
(* ===================================================================== *)

Lemma index_of_Some (column_name : str) (header : list cell_value) (i : nat) :
  extractor.index_of column_name header = Some i ->
  nth_error header i = Some (CStr column_name)
  /\ forall j, (j < i)%nat -> nth_error header j <> Some (CStr column_name).
Proof.
  revert i. induction header as [|v header IH]; intros i H; [discriminate|].
  cbn [extractor.index_of] in H.
  assert (Hrec : forall k,
             v <> CStr column_name ->
             option_map S (extractor.index_of column_name header) = Some k ->
             nth_error (v :: header) k = Some (CStr column_name)
             /\ forall j, (j < k)%nat ->
                          nth_error (v :: header) j <> Some (CStr column_name)).
  { intros k Hv Hk.
    destruct (extractor.index_of column_name header) as [i'|]; [|discriminate].
    injection Hk as <-. destruct (IH i' eq_refl) as [Hn Hf]. split; [exact Hn|].
    intros [|j] Hj; cbn [nth_error].
    - congruence.
    - apply Hf. lia. }
  destruct v as [|s|].
  - apply Hrec; [discriminate|exact H].
  - destruct (str_eqb s column_name) eqn:E.
    + injection H as <-. apply str_eqb_eq in E. subst. split; [reflexivity|].
      intros j Hj. lia.
    + apply Hrec; [|exact H]. apply str_eqb_neq in E. congruence.
  - apply Hrec; [discriminate|exact H].
Qed.

Lemma index_of_None (column_name : str) (header : list cell_value) :
  extractor.index_of column_name header = None ->
  forall i, nth_error header i <> Some (CStr column_name).
Proof.
  induction header as [|v header IH]; intros H i.
  - destruct i; discriminate.
  - cbn [extractor.index_of] in H.
    assert (Hnone : extractor.index_of column_name header = None
                    /\ v <> CStr column_name).
    { destruct v as [|s|].
      - destruct (extractor.index_of column_name header); [discriminate|].
        split; [reflexivity|discriminate].
      - destruct (str_eqb s column_name) eqn:E; [discriminate|].
        destruct (extractor.index_of column_name header); [discriminate|].
        split; [reflexivity|]. apply str_eqb_neq in E. congruence.
      - destruct (extractor.index_of column_name header); [discriminate|].
        split; [reflexivity|discriminate]. }
    destruct Hnone as [Hn Hv]. destruct i as [|i]; cbn [nth_error].
    + congruence.
    + now apply IH.
Qed.

Lemma first_header_match_unique (sheet : worksheet) (column_name : str)
      (i j : nat) :
  first_header_match sheet column_name i ->
  first_header_match sheet column_name j -> i = j.
Proof.
  intros [Hi Fi] [Hj Fj].
  destruct (Nat.lt_trichotomy i j) as [L|[E|L]]; [|exact E|].
  - exfalso. exact (Fj i L Hi).
  - exfalso. exact (Fi j L Hj).
Qed.

(** What [read_cell] returns, case by case. *)
Lemma read_cell_cases (sheet : worksheet) (column_name : str) (row_number : Z) :
  (header_absent sheet column_name
   /\ extractor.read_cell sheet column_name row_number = None)
  \/ exists i,
      first_header_match sheet column_name i
      /\ ((~ (1 <= row_number <= max_row sheet)%Z
           /\ extractor.read_cell sheet column_name row_number = None)
          \/ ((1 <= row_number <= max_row sheet)%Z
              /\ ((without_text (cell sheet row_number (i + 1))
                   /\ extractor.read_cell sheet column_name row_number = None)
                  \/ exists c t,
                      cell sheet row_number (i + 1) = CStr (c :: t)
                      /\ extractor.read_cell sheet column_name row_number
                         = Some (strip (c :: t))))).
Proof.
  unfold extractor.read_cell.
  destruct (extractor.index_of column_name (extractor.header_row sheet))
    as [i|] eqn:Hi.
  - right. exists i. split; [exact (index_of_Some _ _ _ Hi)|].
    destruct (1 <=? row_number)%Z eqn:L1;
      destruct (row_number <=? max_row sheet)%Z eqn:L2; cbn [andb negb];
      try (left; split; [lia|reflexivity]).
    right. split; [lia|].
    destruct (cell sheet row_number (i + 1)) as [|[|c t]|] eqn:C.
    + left. split; [left; reflexivity|reflexivity].
    + left. split; [right; left; reflexivity|reflexivity].
    + right. exists c, t. split; reflexivity.
    + left. split; [right; right; reflexivity|reflexivity].
  - left. split; [exact (index_of_None _ _ Hi)|reflexivity].
Qed.

(** C7 (as the code has it): [get_requirement_from_excel] returns [None]
    exactly when the workbook cannot be opened, or a sheet name is given
    that the workbook does not have, or, on the sheet it works on, no cell
    of the header row holds exactly the column name, or the row number is
    outside 1..max_row, or the addressed cell is empty or holds no string;
    in every other case it returns the stripped text of the cell in the
    column of the first header cell equal to the column name. *)
Theorem get_requirement_from_excel_cases
        (disk : str -> load_outcome) (file_path column_name : str)
        (row_number : Z) (sheet_name : option str) :
  (extractor.get_requirement_from_excel disk file_path column_name
                                        row_number sheet_name = None
   <->
   (forall wb, disk file_path <> Loaded wb)
   \/ exists wb,
       disk file_path = Loaded wb
       /\ (selected_sheet wb sheet_name = None
           \/ exists sheet,
               selected_sheet wb sheet_name = Some sheet
               /\ (header_absent sheet column_name
                   \/ ~ (1 <= row_number <= max_row sheet)%Z
                   \/ exists i,
                       first_header_match sheet column_name i
                       /\ without_text (cell sheet row_number (i + 1)))))
  /\ (forall s,
         extractor.get_requirement_from_excel disk file_path column_name
                                              row_number sheet_name = Some s ->
         exists wb sheet i t,
           disk file_path = Loaded wb
           /\ selected_sheet wb sheet_name = Some sheet
           /\ first_header_match sheet column_name i
           /\ (1 <= row_number <= max_row sheet)%Z
           /\ cell sheet row_number (i + 1) = CStr t
           /\ t <> []
           /\ s = strip t).
Proof.
  assert (Hsel : forall wb,
             disk file_path = Loaded wb ->
             extractor.get_requirement_from_excel disk file_path column_name
                                                  row_number sheet_name
             = match selected_sheet wb sheet_name with
               | Some sheet => extractor.read_cell sheet column_name row_number
               | None => None
               end).
  { intros wb Hwb. unfold extractor.get_requirement_from_excel, selected_sheet.
    rewrite Hwb. destruct sheet_name as [[|c n]|]; reflexivity. }
  split; [split|].
  - (* None: one of the cases holds *)
    intros H. destruct (disk file_path) as [| | |wb] eqn:Hd;
      try (left; intros wb; discriminate).
    right. exists wb. split; [reflexivity|].
    rewrite (Hsel wb eq_refl) in H.
    destruct (selected_sheet wb sheet_name) as [sheet|]; [|now left].
    right. exists sheet. split; [reflexivity|].
    destruct (read_cell_cases sheet column_name row_number)
      as [[Ha _]|[i [Hm [[Hr _]|[Hr [[Hw _]|[c [t [_ Hs]]]]]]]]].
    + now left.
    + right. now left.
    + right. right. exists i. now split.
    + congruence.
  - (* each case gives None *)
    intros [Hfail|[wb [Hwb Hcase]]].
    + unfold extractor.get_requirement_from_excel.
      destruct (disk file_path) as [| | |wb]; try reflexivity.
      exfalso. exact (Hfail wb eq_refl).
    + rewrite (Hsel wb Hwb).
      destruct Hcase as [Hnone|[sheet [Hsheet Hcase]]]; [now rewrite Hnone|].
      rewrite Hsheet.
      destruct (read_cell_cases sheet column_name row_number)
        as [[_ Hn]|[i [Hm [[_ Hn]|[Hr [[_ Hn]|[c [t [Hc Hs]]]]]]]]];
        try exact Hn.
      exfalso. destruct Hcase as [Ha|[Hout|[j [Hj Hw]]]].
      * destruct Hm as [Hm _]. exact (Ha i Hm).
      * exact (Hout Hr).
      * rewrite (first_header_match_unique _ _ _ _ Hj Hm) in Hw.
        rewrite Hc in Hw. destruct Hw as [Hw|[Hw|Hw]]; discriminate.
  - (* a text is the stripped cell *)
    intros s H.
    destruct (disk file_path) as [| | |wb] eqn:Hd;
      try (unfold extractor.get_requirement_from_excel in H;
           rewrite Hd in H; discriminate).
    rewrite (Hsel wb eq_refl) in H.
    destruct (selected_sheet wb sheet_name) as [sheet|] eqn:Hsheet;
      [|discriminate].
    destruct (read_cell_cases sheet column_name row_number)
      as [[_ Hn]|[i [Hm [[_ Hn]|[Hr [[_ Hn]|[c [t [Hc Hv]]]]]]]]];
      try congruence.
    exists wb, sheet, i, (c :: t). repeat split; try assumption.
    + apply Hm.
    + apply Hm.
    + lia.
    + lia.
    + discriminate.
    + congruence.
Qed.

Lemma get_requirement_from_excel_cases_witness :
  extractor.get_requirement_from_excel example_disk extractor.data_xlsx
    extractor.column_L1 9 None = None
  /\ exists wb sheet i t,
      example_disk extractor.data_xlsx = Loaded wb
      /\ selected_sheet wb None = Some sheet
      /\ first_header_match sheet extractor.column_L1 i
      /\ (1 <= 3 <= max_row sheet)%Z
      /\ cell sheet 3 (i + 1) = CStr t
      /\ t <> []
      /\ py "first" = strip t.
Proof.
  split.
  - apply (proj1 (get_requirement_from_excel_cases
                    example_disk extractor.data_xlsx extractor.column_L1 9 None)).
    right. exists (single_sheet example_sheet). split; [reflexivity|].
    right. exists example_sheet. split; [reflexivity|].
    right. left. vm_compute. intros [_ H]. apply H. reflexivity.
  - apply (proj2 (get_requirement_from_excel_cases
                    example_disk extractor.data_xlsx extractor.column_L1 3 None)
                 (py "first")).
    reflexivity.
Defined.

(** C7 as stated fails when a sheet name is given that the workbook does
    not have: the header matches, the row is in range and the cell holds a
    text on the only sheet there is, and the call still returns [None]. *)
Lemma get_requirement_from_excel_missing_sheet :
  example_disk extractor.data_xlsx = Loaded (single_sheet example_sheet)
  /\ first_header_match example_sheet extractor.column_L1 1
  /\ (1 <= 3 <= max_row example_sheet)%Z
  /\ cell example_sheet 3 2 = CStr (py " first ")
  /\ extractor.get_requirement_from_excel example_disk extractor.data_xlsx
       extractor.column_L1 3 None = Some (py "first")
  /\ extractor.get_requirement_from_excel example_disk extractor.data_xlsx
       extractor.column_L1 3 (Some (py "Other")) = None.
Proof.
  split; [reflexivity|]. split.
  - split; [reflexivity|].
    intros [|j] Hj; [vm_compute; discriminate|lia].
  - split; [vm_compute; split; discriminate|].
    repeat split; vm_compute; reflexivity.
Qed.

(* ===================================================================== *)
(** * Grouping the rows of the spreadsheet                                *)
(* ===================================================================== *)

Lemma extract_content_raises (v : json) (field_name : str) (e : exn) :
  extractor.extract_content v field_name = Raise e -> e = TypeError.
Proof.
  unfold extractor.extract_content.
  destruct v; try (intros [= <-]; reflexivity).
  destruct (re.search (extractor.pattern field_name) s); discriminate.
Qed.

Lemma extract_content_opt_json (o : option str) :
  extractor.extract_content (extractor.opt_json o) extractor.field_description
  = match o with
    | Some t => Ok (description_section t)
    | None => Raise TypeError
    end.
Proof.
  destruct o as [t|]; [|reflexivity]. apply extract_content_section.
Qed.

Lemma all_strings_raises (l : list (option str)) (e : exn) :
  extractor.all_strings l = Raise e -> e = TypeError.
Proof.
  induction l as [|[s|] l IH]; cbn [extractor.all_strings].
  - discriminate.
  - destruct (extractor.all_strings l); cbn [bind]; [discriminate|].
    intros [= <-]. now apply IH.
  - intros [= <-]. reflexivity.
Qed.

Lemma all_strings_None (l : list (option str)) :
  In None l -> extractor.all_strings l = Raise TypeError.
Proof.
  induction l as [|[s|] l IH]; cbn [extractor.all_strings]; intros H.
  - destruct H.
  - destruct H as [H|H]; [discriminate|]. now rewrite IH.
  - reflexivity.
Qed.

Lemma block_raises (last : Z) (l : list (option str)) (e : exn) :
  extractor.block last l = Raise e -> e = TypeError.
Proof.
  unfold extractor.block.
  destruct (extractor.all_strings l) eqn:E; cbn [bind]; [discriminate|].
  intros [= <-]. exact (all_strings_raises _ _ E).
Qed.

Lemma block_None (last : Z) (l : list (option str)) :
  In None l -> extractor.block last l = Raise TypeError.
Proof.
  intros H. unfold extractor.block. now rewrite all_strings_None.
Qed.

(** One step of the scan, with the reads of the two cells named. *)
Lemma scan_rows_cons (disk : str -> load_outcome) (row : Z) (rows : list Z)
      (results : list json) (descriptions : list (option str)) (last : Z) :
  extractor.scan_rows disk (row :: rows) results descriptions last =
  if starts_block disk row then
    b <- extractor.block last descriptions ;;
    d <- extractor.extract_content (extractor.opt_json (L2_cell disk row))
                                   extractor.field_description ;;
    extractor.scan_rows disk rows (results ++ [b]) [d] row
  else
    d <- extractor.extract_content (extractor.opt_json (L2_cell disk row))
                                   extractor.field_description ;;
    extractor.scan_rows disk rows results (descriptions ++ [d]) last.
Proof.
  cbn [extractor.scan_rows]. unfold starts_block, L1_cell, L2_cell.
  destruct (extractor.get_requirement_from_excel disk extractor.data_xlsx
              extractor.column_L1 row None) as [[|c t]|]; cbn [bind];
    try reflexivity.
  destruct (extractor.block last descriptions); reflexivity.
Qed.

(** The scan raises nothing but [TypeError]. *)
Lemma scan_rows_raises (disk : str -> load_outcome) (rows : list Z) :
  forall results descriptions last e,
    extractor.scan_rows disk rows results descriptions last = Raise e ->
    e = TypeError.
Proof.
  induction rows as [|row rows IH]; intros results descriptions last e.
  - cbn [extractor.scan_rows].
    destruct (extractor.block last descriptions) eqn:B; cbn [bind];
      [discriminate|].
    intros [= <-]. exact (block_raises _ _ _ B).
  - rewrite scan_rows_cons.
    destruct (starts_block disk row).
    + destruct (extractor.block last descriptions) eqn:B; cbn [bind].
      * destruct (extractor.extract_content _ _) eqn:X; cbn [bind].
        -- apply IH.
        -- intros [= <-]. exact (extract_content_raises _ _ _ X).
      * intros [= <-]. exact (block_raises _ _ _ B).
    + destruct (extractor.extract_content _ _) eqn:X; cbn [bind].
      * apply IH.
      * intros [= <-]. exact (extract_content_raises _ _ _ X).
Qed.

(** Once a description is [None], the scan cannot return. *)
Lemma scan_rows_pending_None (disk : str -> load_outcome) (rows : list Z) :
  forall results descriptions last,
    In None descriptions ->
    extractor.scan_rows disk rows results descriptions last = Raise TypeError.
Proof.
  induction rows as [|row rows IH]; intros results descriptions last H.
  - cbn [extractor.scan_rows]. now rewrite block_None.
  - rewrite scan_rows_cons. destruct (starts_block disk row).
    + now rewrite block_None.
    + destruct (extractor.extract_content _ _) eqn:X; cbn [bind].
      * apply IH. apply in_or_app. now left.
      * f_equal. exact (extract_content_raises _ _ _ X).
Qed.

(** A row whose L2 cell has no description section stops the scan. *)
Lemma scan_rows_without_section (disk : str -> load_outcome) (rows : list Z)
      (row : Z) :
  In row rows -> L2_section disk row = None ->
  forall results descriptions last,
    extractor.scan_rows disk rows results descriptions last = Raise TypeError.
Proof.
  intros Hin Hsec.
  induction rows as [|r rows IH]; intros results descriptions last;
    [destruct Hin|].
  assert (Hstep : forall res descs l,
             (d <- extractor.extract_content
                    (extractor.opt_json (L2_cell disk r))
                    extractor.field_description ;;
              extractor.scan_rows disk rows res (descs ++ [d]) l)
             = Raise TypeError).
  { intros res descs l. rewrite extract_content_opt_json.
    destruct Hin as [->|Hin].
    - unfold L2_section in Hsec.
      destruct (L2_cell disk row) as [t|]; [|reflexivity].
      rewrite Hsec. cbn [bind]. apply scan_rows_pending_None.
      apply in_or_app. right. now left.
    - destruct (L2_cell disk r) as [t|]; [|reflexivity].
      cbn [bind]. now apply IH. }
  rewrite scan_rows_cons. destruct (starts_block disk r).
  - destruct (extractor.block last descriptions) eqn:B; cbn [bind].
    + exact (Hstep (results ++ [a]) [] r).
    + f_equal. exact (block_raises _ _ _ B).
  - apply Hstep.
Qed.

(** The results collected so far stay at the front. *)
Lemma scan_rows_extends (disk : str -> load_outcome) (rows : list Z) :
  forall results descriptions last out,
    extractor.scan_rows disk rows results descriptions last = Ok out ->
    exists rest, out = results ++ rest.
Proof.
  induction rows as [|row rows IH]; intros results descriptions last out.
  - cbn [extractor.scan_rows].
    destruct (extractor.block last descriptions); cbn [bind]; [|discriminate].
    intros [= <-]. now exists [a].
  - rewrite scan_rows_cons. destruct (starts_block disk row).
    + destruct (extractor.block last descriptions); cbn [bind]; [|discriminate].
      destruct (extractor.extract_content _ _); cbn [bind]; [|discriminate].
      intros H. apply IH in H as [rest ->]. exists (a :: rest).
      now rewrite <- app_assoc.
    + destruct (extractor.extract_content _ _); cbn [bind]; [|discriminate].
      apply IH.
Qed.

(** The first block closed holds the rows before the first block start. *)
Lemma scan_rows_first_block (disk : str -> load_outcome) (rows : list Z) :
  forall results descriptions last out,
    extractor.scan_rows disk rows results descriptions last = Ok out ->
    exists b rest,
      extractor.block last
        (descriptions
         ++ List.map (L2_section disk) (rows_before_first_block disk rows))
      = Ok b
      /\ out = results ++ b :: rest.
Proof.
  induction rows as [|row rows IH]; intros results descriptions last out.
  - cbn [extractor.scan_rows rows_before_first_block List.map].
    rewrite app_nil_r.
    destruct (extractor.block last descriptions); cbn [bind]; [|discriminate].
    intros [= <-]. now exists a, [].
  - rewrite scan_rows_cons. cbn [rows_before_first_block].
    destruct (starts_block disk row).
    + cbn [List.map]. rewrite app_nil_r.
      destruct (extractor.block last descriptions); cbn [bind]; [|discriminate].
      destruct (extractor.extract_content _ _); cbn [bind]; [|discriminate].
      intros H. apply scan_rows_extends in H as [rest ->].
      exists a, rest. split; [reflexivity|]. now rewrite <- app_assoc.
    + rewrite extract_content_opt_json. cbn [List.map].
      destruct (L2_cell disk row) as [t|] eqn:Hc; cbn [bind]; [|discriminate].
      replace (L2_section disk row) with (description_section t)
        by (unfold L2_section; now rewrite Hc).
      intros H. apply IH in H as [b [rest [Hb ->]]].
      exists b, rest. split; [|reflexivity].
      now rewrite <- app_assoc in Hb.
Qed.

Lemma In_range2 (row_end row : Z) :
  In row (extractor.range2 row_end) <-> (2 <= row < row_end)%Z.
Proof.
  unfold extractor.range2. rewrite in_map_iff. split.
  - intros [n [<- Hn]]. apply in_seq in Hn. lia.
  - intros H. exists (Z.to_nat row). split; [lia|]. apply in_seq. lia.
Qed.

Lemma L2_section_None_of_cell (disk : str -> load_outcome) (row : Z) :
  (L2_cell disk row = None \/ L2_cell disk row = Some []) ->
  L2_section disk row = None.
Proof.
  unfold L2_section. intros [-> | ->]; reflexivity.
Qed.

(** C9: whenever the L2 cell of a scanned row yields [None] (or the empty
    string), [process_excel_file] raises [TypeError] instead of returning;
    so it returns only when every scanned L2 cell yields a non-empty
    string.  When it returns, the first block of the result is keyed by
    row 0 and holds the rows that precede the first non-empty L1 cell. *)
Theorem process_excel_file_partial
        (disk : str -> load_outcome) (file_path : str) (row_end : Z) :
  (forall row,
      (2 <= row < row_end)%Z ->
      (L2_cell disk row = None \/ L2_cell disk row = Some []) ->
      extractor.process_excel_file disk file_path row_end = Raise TypeError)
  /\ (forall out,
         extractor.process_excel_file disk file_path row_end = Ok out ->
         (forall row, (2 <= row < row_end)%Z ->
                      exists c t, L2_cell disk row = Some (c :: t))
         /\ exists texts rest,
             let before :=
               rows_before_first_block disk (extractor.range2 row_end) in
             extractor.all_strings (List.map (L2_section disk) before)
             = Ok texts
             /\ out =
                JDict [(extractor.k_row, JInt 0);
                       (extractor.k_concatenated, JStr (join [ch " "] texts));
                       (extractor.k_description_count,
                        JInt (Z.of_nat (List.length before)))]
                :: rest).
Proof.
  assert (Hraise : forall row,
             (2 <= row < row_end)%Z ->
             (L2_cell disk row = None \/ L2_cell disk row = Some []) ->
             extractor.process_excel_file disk file_path row_end
             = Raise TypeError).
  { intros row Hrow Hcell. unfold extractor.process_excel_file.
    apply (scan_rows_without_section disk _ row).
    - now apply In_range2.
    - now apply L2_section_None_of_cell. }
  split; [exact Hraise|].
  intros out Hout. split.
  - intros row Hrow.
    destruct (L2_cell disk row) as [[|c t]|] eqn:Hcell.
    + rewrite (Hraise row Hrow) in Hout by (now right). discriminate.
    + now exists c, t.
    + rewrite (Hraise row Hrow) in Hout by (now left). discriminate.
  - unfold extractor.process_excel_file in Hout.
    apply scan_rows_first_block in Hout as [b [rest [Hb ->]]].
    cbn [app] in Hb |- *. unfold extractor.block in Hb.
    destruct (extractor.all_strings _) as [texts|] eqn:Htexts;
      cbn [bind] in Hb; [|discriminate].
    injection Hb as <-. exists texts, rest. cbv zeta.
    split; [reflexivity|]. now rewrite length_map.
Qed.

Lemma process_excel_file_partial_witness :
  extractor.process_excel_file example_disk (py "ar_23/data.xlsx") 7
  = Raise TypeError
  /\ exists out,
      extractor.process_excel_file example_disk (py "ar_23/data.xlsx") 6
      = Ok out
      /\ (forall row, (2 <= row < 6)%Z ->
                      exists c t, L2_cell example_disk row = Some (c :: t))
      /\ exists texts rest,
          let before :=
            rows_before_first_block example_disk (extractor.range2 6) in
          extractor.all_strings (List.map (L2_section example_disk) before)
          = Ok texts
          /\ out =
             JDict [(extractor.k_row, JInt 0);
                    (extractor.k_concatenated, JStr (join [ch " "] texts));
                    (extractor.k_description_count,
                     JInt (Z.of_nat (List.length before)))]
             :: rest.
Proof.
  split.
  - apply (proj1 (process_excel_file_partial
                    example_disk (py "ar_23/data.xlsx") 7) 6%Z).
    + lia.
    + left. reflexivity.
  - eexists. split.
    + vm_compute. reflexivity.
    + apply (proj2 (process_excel_file_partial
                      example_disk (py "ar_23/data.xlsx") 6)).
      vm_compute. reflexivity.
Defined.

(* ===================================================================== *)
(** * Alignment of predictions and references                             *)
(* ===================================================================== *)

Lemma lookup_In_keys (m : metrics.rowmap) (row : Z) :
  In row (keys m) <-> exists v, metrics.lookup m row = Some v.
Proof.
  induction m as [|[r v] m IH]; cbn [keys List.map metrics.lookup In fst].
  - split; [intros []|intros [v H]; discriminate].
  - destruct (Z.eqb_spec r row) as [->|Hne].
    + split; [intros _; now exists v|intros _; now left].
    + rewrite <- IH. unfold keys. split; [intros [H|H]|intros H]; tauto.
Qed.

Lemma align_loop_join (items references_map : metrics.rowmap)
      (acc : metrics.aligned) (printed : list message) :
  metrics.align_loop items references_map acc printed =
  ({| metrics.predictions_raw :=
        metrics.predictions_raw acc
        ++ List.map (fun t => snd (fst t)) (inner_join items references_map);
      metrics.references_raw :=
        metrics.references_raw acc
        ++ List.map snd (inner_join items references_map);
      metrics.rows :=
        metrics.rows acc
        ++ List.map (fun t => fst (fst t)) (inner_join items references_map) |},
   printed).
Proof.
  revert acc. induction items as [|[row p] items IH]; intros acc.
  - cbn. rewrite !app_nil_r. now destruct acc.
  - cbn [metrics.align_loop inner_join].
    destruct (metrics.lookup references_map row) as [r|].
    + rewrite IH. cbn. now rewrite <- !app_assoc.
    + apply IH.
Qed.

Lemma inner_join_rows (predictions_map references_map : metrics.rowmap)
      (row : Z) :
  In row (List.map (fun t => fst (fst t))
                   (inner_join predictions_map references_map))
  <-> In row (keys predictions_map) /\ In row (keys references_map).
Proof.
  induction predictions_map as [|[r p] m IH]; cbn [inner_join keys List.map In fst].
  - tauto.
  - destruct (metrics.lookup references_map r) as [v|] eqn:L.
    + cbn [List.map In fst]. rewrite IH. unfold keys. split.
      * intros [<-|[H1 H2]]; [|tauto].
        split; [now left|]. apply lookup_In_keys. now exists v.
      * intros [[<-|H1] H2]; tauto.
    + rewrite IH. unfold keys. split; [tauto|].
      intros [[<-|H1] H2]; [|tauto].
      apply lookup_In_keys in H2 as [v H2]. congruence.
Qed.

Lemma inner_join_sound (predictions_map references_map : metrics.rowmap)
      (row : Z) (p r : json) :
  In (row, p, r) (inner_join predictions_map references_map) ->
  In (row, p) predictions_map /\ metrics.lookup references_map row = Some r.
Proof.
  induction predictions_map as [|[r0 p0] m IH]; cbn [inner_join In].
  - intros [].
  - destruct (metrics.lookup references_map r0) as [v|] eqn:L.
    + intros [[= <- <- <-]|H]; [now split; [left|]|].
      apply IH in H. tauto.
    + intros H. apply IH in H. tauto.
Qed.

(** C4 (as the code has it): the alignment scores exactly the rows present
    in both maps (an inner join on the row key, in the order of the
    predictions, each prediction with the reference of its row); a row
    present in only one map is left out without any line being printed for
    it: the only line printed reports the number of aligned pairs, or that
    there is none. *)
Theorem align_inner_join (predictions_map references_map : metrics.rowmap) :
  let a := fst (metrics.align predictions_map references_map) in
  let printed := snd (metrics.align predictions_map references_map) in
  (forall row,
      In row (metrics.rows a)
      <-> In row (keys predictions_map) /\ In row (keys references_map))
  /\ metrics.rows a
     = List.map (fun t => fst (fst t)) (inner_join predictions_map references_map)
  /\ metrics.predictions_raw a
     = List.map (fun t => snd (fst t)) (inner_join predictions_map references_map)
  /\ metrics.references_raw a
     = List.map snd (inner_join predictions_map references_map)
  /\ (forall row p r,
         In (row, p, r) (inner_join predictions_map references_map) ->
         In (row, p) predictions_map
         /\ metrics.lookup references_map row = Some r)
  /\ printed = [match metrics.rows a with
                | [] => MsgNoPairs
                | _ :: _ => MsgAligned (List.length (metrics.rows a))
                end].
Proof.
  pose proof (inner_join_rows predictions_map references_map) as Hrows.
  pose proof (inner_join_sound predictions_map references_map) as Hsound.
  unfold metrics.align. rewrite align_loop_join.
  destruct (inner_join predictions_map references_map) as [|t j];
    cbn [List.map app metrics.predictions_raw metrics.references_raw
         metrics.rows fst snd];
    (split; [exact Hrows|]); (split; [reflexivity|]);
    (split; [reflexivity|]); (split; [reflexivity|]);
    (split; [exact Hsound|]).
  - reflexivity.
  - cbn [List.length]. now rewrite !length_map.
Qed.

(** C4 as stated fails on its own example: rows 1 and 3 are left out, and
    no line is printed for either; the one line printed counts the pairs. *)
Lemma align_prints_no_skip :
  let predictions_map := [(1%Z, JStr (py "a")); (2%Z, JStr (py "b"))] in
  let references_map := [(2%Z, JStr (py "x")); (3%Z, JStr (py "y"))] in
  metrics.rows (fst (metrics.align predictions_map references_map)) = [2%Z]
  /\ snd (metrics.align predictions_map references_map) = [MsgAligned 1]
  /\ ~ (2 <= List.length (snd (metrics.align predictions_map references_map)))%nat.
Proof.
  cbv zeta. split; [reflexivity|]. split; [reflexivity|].
  vm_compute. lia.
Qed.

(* ===================================================================== *)
(** * Requests and the batch driver                                       *)
(* ===================================================================== *)

Lemma world_eta (w : world) :
  {| requests := requests w; stdout := stdout w; files := files w |} = w.
Proof. now destruct w. Qed.

Lemma printed_more_nil (w : world) : printed_more w [] = w.
Proof. unfold printed_more. rewrite app_nil_r. apply world_eta. Qed.

Lemma loads_nil {FC : FloatCodec} : Json.loads [] = None.
Proof. reflexivity. Qed.

Section Driver.
Context {FC : FloatCodec}.
Variable api_key : option str.
Variable endpoint : nat -> api_outcome.

Lemma call_llm_api_eq (w : world) :
  requirement_decomposer._call_llm_api api_key endpoint w =
  if key_given api_key then
    (Ok (content_of (endpoint (requests w))),
     after_request w [MsgCalling; outcome_message (endpoint (requests w))])
  else (Ok None, printed_more w [MsgMissingKey]).
Proof.
  unfold requirement_decomposer._call_llm_api, key_given.
  destruct api_key as [[|k ks]|]; try reflexivity.
  unfold mbind, print, send, ret, after_request. cbn.
  destruct (endpoint (requests w)); cbn; rewrite <- app_assoc; reflexivity.
Qed.

(** The decomposer on a requirement text: one request when a key is
    given, none otherwise, and the decoded list as the result. *)
Lemma decompose_requirement_eq (text : str) (w : world) :
  requirement_decomposer.decompose_requirement api_key endpoint (JStr text) w =
  if key_given api_key then
    (Ok (decoded (endpoint (requests w))),
     after_request w
       ([MsgCalling; outcome_message (endpoint (requests w))]
        ++ rejection_message (content_of (endpoint (requests w)))))
  else (Ok None, printed_more w [MsgMissingKey]).
Proof.
  unfold requirement_decomposer.decompose_requirement.
  unfold requirement_decomposer._build_user_prompt.
  unfold mbind at 1. unfold ret at 1. unfold mbind at 1.
  rewrite call_llm_api_eq.
  destruct (key_given api_key); [|reflexivity].
  unfold decoded, rejection_message.
  destruct (endpoint (requests w)) as [[[|c s]|]| | | | |]; cbn [content_of];
    try (unfold ret; now rewrite app_nil_r).
  destruct (Json.loads (c :: s)) as [v|].
  - destruct v; unfold mbind, print, ret, after_request; cbn;
      rewrite <- ?app_assoc, ?app_nil_r; reflexivity.
  - unfold mbind, print, ret, after_request; cbn.
    rewrite <- app_assoc. reflexivity.
Qed.

(** A requirement that is not a text makes the construction of the prompt
    raise, before any request. *)
Lemma decompose_requirement_not_text (v : json) (w : world) :
  (forall t, v <> JStr t) ->
  requirement_decomposer.decompose_requirement api_key endpoint v w
  = (Raise TypeError, w).
Proof.
  intros H. unfold requirement_decomposer.decompose_requirement.
  destruct v; try reflexivity. exfalso. exact (H s eq_refl).
Qed.

End Driver.

(* ===================================================================== *)
(** * The response of the decomposer                                      *)
(* ===================================================================== *)

(** C2: [decompose_requirement] sends at most one request.  With
    [response] the raw content it gets back (absent when the call fails),
    a content that is within the limits of the interpreter and can be
    printed where the decomposer rejects it, it returns [None] exactly
    when the response is absent or empty, or does not parse as JSON, or
    parses to something that is not an array; and it returns a list
    exactly when the response parses to that array, which is returned as
    parsed. *)
Theorem decompose_requirement_response
        {FC : FloatCodec} (api_key : option str) (endpoint : nat -> api_outcome) :
  (forall requirement w,
      (requests (snd (requirement_decomposer.decompose_requirement
                        api_key endpoint requirement w))
       <= S (requests w))%nat)
  /\ (forall text w,
         key_given api_key = true ->
         handled_by_decomposer (endpoint (requests w)) = true ->
         let response := content_of (endpoint (requests w)) in
         let r := fst (requirement_decomposer.decompose_requirement
                         api_key endpoint (JStr text) w) in
         let w' := snd (requirement_decomposer.decompose_requirement
                          api_key endpoint (JStr text) w) in
         (r = Ok None <->
          response = None \/ response = Some []
          \/ exists s, response = Some s
                       /\ (Json.loads s = None
                           \/ exists v, Json.loads s = Some v
                                        /\ is_list v = false))
         /\ (forall l, r = Ok (Some l) <->
                       exists s, response = Some s
                                 /\ Json.loads s = Some (JList l))
         /\ requests w' = S (requests w)).
Proof.
  split.
  - intros requirement w. destruct requirement;
      try (rewrite decompose_requirement_not_text by discriminate; cbn; lia).
    rewrite decompose_requirement_eq.
    destruct (key_given api_key); cbn; lia.
  - intros text w Hkey _. cbv zeta. rewrite decompose_requirement_eq, Hkey.
    cbn [fst snd after_request requests]. unfold decoded.
    destruct (endpoint (requests w)) as [[[|c s]|]| | | | |]; cbn [content_of];
      try (split; [split; [intros _; auto|reflexivity]|];
           split; [|reflexivity];
           intros l; split; [discriminate|];
           intros [s' [Hs Hl]]; try discriminate;
           injection Hs as <-; rewrite loads_nil in Hl; discriminate).
    destruct (Json.loads (c :: s)) as [v|] eqn:Hl.
    + destruct v;
        try (split;
             [split; [intros _; right; right; exists (c :: s);
                      split; [reflexivity|]; right; eexists;
                      split; [exact Hl|reflexivity]
                     |reflexivity]|];
             split; [|reflexivity];
             intros l'; split; [discriminate|];
             intros [s' [Hs Hl']]; injection Hs as <-;
             rewrite Hl in Hl'; discriminate).
      split; [|split; [|reflexivity]].
      * split; [discriminate|].
        intros [H|[H|[s' [Hs [H|[v [Hv Hnl]]]]]]]; try discriminate;
          injection Hs as <-; rewrite Hl in *; try discriminate.
        injection Hv as <-. discriminate.
      * intros l'. split.
        -- intros [= <-]. now exists (c :: s).
        -- intros [s' [Hs Hl']]. injection Hs as <-.
           rewrite Hl in Hl'. now injection Hl' as <-.
    + split; [split; [intros _; right; right; exists (c :: s);
                      split; [reflexivity|now left]
                     |reflexivity]|].
      split; [|reflexivity].
      intros l'; split; [discriminate|].
      intros [s' [Hs Hl']]; injection Hs as <-. rewrite Hl in Hl'. discriminate.
Qed.

(** The example of the specification: two sub-requirements come back, with
    their identifiers, in the order of the response. *)
Example decompose_requirement_two_records :
  fst (requirement_decomposer.decompose_requirement
         (FC := example_codec) (Some (py "key"))
         (constant_endpoint
            (pyq "[{'id':'1','description':'【需求描述】用户名登录'},{'id':'2','description':'【需求描述】手机号登录'}]"))
         (JStr (py "用户可以通过用户名或手机号登录系统"))
         (initial_world empty_files))
  = Ok (Some [JDict [(py "id", JStr (py "1"));
                     (py "description", JStr (py "【需求描述】用户名登录"))];
              JDict [(py "id", JStr (py "2"));
                     (py "description", JStr (py "【需求描述】手机号登录"))]]).
Proof. vm_compute. reflexivity. Qed.

Lemma decompose_requirement_response_witness :
  let endpoint := constant_endpoint (pyq "[{'id':'1'}]") in
  let call :=
    requirement_decomposer.decompose_requirement
      (FC := example_codec) (Some (py "key")) endpoint
      (JStr (py "login")) (initial_world empty_files) in
  (forall l, fst call = Ok (Some l) <->
             exists s, content_of (endpoint 0%nat) = Some s
                       /\ Json.loads (FC := example_codec) s = Some (JList l))
  /\ requests (snd call) = 1%nat.
Proof.
  cbv zeta.
  refine (proj2 (proj2 (@decompose_requirement_response
                          example_codec (Some (py "key"))
                          (constant_endpoint (pyq "[{'id':'1'}]")))
                       (py "login") (initial_world empty_files) eq_refl _)).
  vm_compute. reflexivity.
Defined.

(* ===================================================================== *)
(** * The response of the evaluator                                       *)
(* ===================================================================== *)

Section Evaluator.
Context {FC : FloatCodec}.
Variable api_key : option str.
Variable endpoint : nat -> api_outcome.

Lemma evaluater_call_llm_api_eq (w : world) :
  evaluater._call_llm_api api_key endpoint w =
  if key_given api_key then
    (Ok (content_of (endpoint (requests w))),
     after_request w [MsgCalling; outcome_message (endpoint (requests w))])
  else (Ok None, printed_more w [MsgMissingKey]).
Proof.
  unfold evaluater._call_llm_api, key_given.
  destruct api_key as [[|k ks]|]; try reflexivity.
  unfold mbind, print, send, ret, after_request. cbn.
  destruct (endpoint (requests w)); cbn; rewrite <- app_assoc; reflexivity.
Qed.

Lemma descriptions_of_ok (items : list json) :
  forallb has_description items = true ->
  exists ds, evaluater.descriptions_of items = Ok ds.
Proof.
  induction items as [|item items IH]; intros H.
  - now exists [].
  - cbn [forallb] in H. apply andb_true_iff in H as [Hi Hr].
    destruct (IH Hr) as [ds Hds]. cbn [evaluater.descriptions_of].
    destruct item; try discriminate. cbn [has_description] in Hi.
    unfold dict_has in Hi.
    cbn [py_subscript].
    destruct (dict_lookup d evaluater.k_description) as [v|]; [|discriminate].
    cbn [bind]. rewrite Hds. cbn [bind]. now exists (v :: ds).
Qed.

(** The evaluator on a list of sub-requirements with descriptions: one
    request when a key is given, and whatever the response parses to. *)
Lemma evaluate_decomposition_eq (original : json) (items : list json)
      (w : world) :
  forallb has_description items = true ->
  key_given api_key = true ->
  exists w',
    evaluater.evaluate_decomposition api_key endpoint original (JList items) w
    = (Ok (parsed (endpoint (requests w))), w')
    /\ requests w' = S (requests w).
Proof.
  intros Hitems Hkey. destruct (descriptions_of_ok items Hitems) as [ds Hds].
  unfold evaluater.evaluate_decomposition.
  unfold evaluater._build_evaluation_user_prompt.
  unfold mbind at 1. unfold mbind at 1. unfold lift at 1. cbn [py_iter].
  unfold mbind at 1. unfold lift. rewrite Hds. unfold ret at 1.
  unfold mbind at 1. rewrite evaluater_call_llm_api_eq, Hkey.
  unfold parsed.
  destruct (endpoint (requests w)) as [[[|c s]|]| | | | |]; cbn [content_of];
    try (eexists; split; [reflexivity|reflexivity]).
  destruct (Json.loads (c :: s)) as [v|].
  - eexists; split; reflexivity.
  - unfold mbind, print, ret. cbn. eexists; split; reflexivity.
Qed.

End Evaluator.

(** C3 (as the code has it): for a requirement and sub-requirements with
    descriptions that are within the limits of the interpreter, a key
    given, and a response that is within these limits and can be printed
    when it does not parse, [evaluate_decomposition] sends one request; it
    returns [None] when the response is absent or empty or does not parse
    as JSON; and when the response parses to a JSON object it returns that
    object as parsed, without looking at its fields. *)
Theorem evaluate_decomposition_response
        {FC : FloatCodec} (api_key : option str) (endpoint : nat -> api_outcome)
        (original : json) (items : list json) (w : world) :
  forallb has_description items = true ->
  within_limits original = true ->
  forallb within_limits items = true ->
  key_given api_key = true ->
  handled_by_evaluator (endpoint (requests w)) = true ->
  let response := content_of (endpoint (requests w)) in
  let r := fst (evaluater.evaluate_decomposition
                  api_key endpoint original (JList items) w) in
  let w' := snd (evaluater.evaluate_decomposition
                   api_key endpoint original (JList items) w) in
  ((response = None \/ response = Some []
    \/ exists s, response = Some s /\ Json.loads s = None) ->
   r = Ok None)
  /\ (forall s d, response = Some s -> Json.loads s = Some (JDict d) ->
                  r = Ok (Some (JDict d)))
  /\ requests w' = S (requests w).
Proof.
  intros Hitems _ _ Hkey _. cbv zeta.
  destruct (evaluate_decomposition_eq api_key endpoint original items w
              Hitems Hkey) as [w' [-> Hreq]].
  cbn [fst snd]. unfold parsed.
  split; [|split; [|exact Hreq]].
  - intros [H|[H|[s [Hs Hl]]]].
    + destruct (endpoint (requests w)) as [[[|c t]|]| | | | |];
        cbn [content_of] in H; try reflexivity; discriminate.
    + destruct (endpoint (requests w)) as [[[|c t]|]| | | | |];
        cbn [content_of] in H; try reflexivity; discriminate.
    + destruct (endpoint (requests w)) as [[[|c t]|]| | | | |];
        cbn [content_of] in Hs; try reflexivity.
      injection Hs as <-. now rewrite Hl.
  - intros s d Hs Hl.
    destruct (endpoint (requests w)) as [[[|c t]|]| | | | |];
      cbn [content_of] in Hs; try discriminate.
    + injection Hs as <-. rewrite loads_nil in Hl. discriminate.
    + injection Hs as <-. now rewrite Hl.
Qed.

Lemma evaluate_decomposition_response_witness :
  let endpoint :=
    constant_endpoint (pyq "{'score': 4, 'justification': 'ok'}") in
  let items := [JDict [(py "id", JStr (py "1"));
                       (py "description", JStr (py "a"))]] in
  fst (evaluater.evaluate_decomposition
         (FC := example_codec) (Some (py "key")) endpoint
         (JStr (py "login")) (JList items) (initial_world empty_files))
  = Ok (Some (JDict [(py "score", JInt 4);
                     (py "justification", JStr (py "ok"))])).
Proof.
  cbv zeta.
  refine (proj1 (proj2 (@evaluate_decomposition_response
                          example_codec (Some (py "key"))
                          (constant_endpoint
                             (pyq "{'score': 4, 'justification': 'ok'}"))
                          (JStr (py "login"))
                          [JDict [(py "id", JStr (py "1"));
                                  (py "description", JStr (py "a"))]]
                          (initial_world empty_files) eq_refl eq_refl
                          eq_refl eq_refl _))
                _ _ eq_refl _);
    vm_compute; reflexivity.
Defined.

(** C3 as stated fails for a response that is an object without a score
    or a justification: the evaluator returns it all the same. *)
Lemma evaluate_decomposition_unchecked_object :
  let endpoint := constant_endpoint (pyq "{'foo': 1}") in
  let items := [JDict [(py "id", JStr (py "1"));
                       (py "description", JStr (py "a"))]] in
  let r := fst (evaluater.evaluate_decomposition
                  (FC := example_codec) (Some (py "key")) endpoint
                  (JStr (py "login")) (JList items)
                  (initial_world empty_files)) in
  r = Ok (Some (JDict [(py "foo", JInt 1)]))
  /\ is_evaluation (JDict [(py "foo", JInt 1)]) = false
  /\ r <> Ok None.
Proof.
  cbv zeta. split; [vm_compute; reflexivity|].
  split; [vm_compute; reflexivity|].
  vm_compute. discriminate.
Qed.

(* ===================================================================== *)
(** * The loop of the batch driver                                        *)
(* ===================================================================== *)

Section Loop.
Context {FC : FloatCodec}.
Variable api_key : option str.
Variable endpoint : nat -> api_outcome.

Lemma valid_record_processable (item : json) :
  valid_record item = true -> processable item = true.
Proof.
  unfold valid_record, processable, accepted. intros H.
  apply andb_true_iff in H as [Hd Hr].
  destruct item; try discriminate. cbn [is_dict andb].
  destruct (req_of (JDict d)); try (apply orb_true_r);
    apply negb_true_iff in Hr; rewrite Hr, andb_false_r; reflexivity.
Qed.

Lemma processable_dict (item : json) :
  processable item = true ->
  exists d, item = JDict d.
Proof.
  unfold processable. destruct item; try discriminate. intros _. now exists d.
Qed.

Lemma accepted_text (item : json) :
  processable item = true -> accepted item = true ->
  exists c t, req_of item = JStr (c :: t).
Proof.
  unfold processable. intros Hv Ha. rewrite Ha in Hv.
  apply andb_true_iff in Hv as [_ Hv]. cbn [negb orb] in Hv.
  unfold accepted in Ha. apply andb_true_iff in Ha as [_ Ha].
  destruct (req_of item) as [| | | |[|c t]| |]; try discriminate.
  now exists c, t.
Qed.

(** One turn of the loop. *)
Lemma main_loop_cons (d : pydict) (rest acc : list json) (w : world) :
  requirement_decomposer.main_loop api_key endpoint (JDict d :: rest) acc w =
  let row := row_of (JDict d) in
  let req := req_of (JDict d) in
  if negb (truthy row) || negb (truthy req) then
    requirement_decomposer.main_loop api_key endpoint rest acc
      (printed_more w [MsgInvalidItem row req])
  else
    match requirement_decomposer.decompose_requirement api_key endpoint req
            (printed_more (printed_more w [MsgRowStarted row]) [MsgDecomposing])
    with
    | (Ok (Some (x :: l)), w2) =>
        requirement_decomposer.main_loop api_key endpoint rest
          (acc ++ [requirement_decomposer.result_record row (x :: l)])
          (printed_more w2 [MsgRowCollected row])
    | (Ok _, w2) =>
        requirement_decomposer.main_loop api_key endpoint rest acc
          (printed_more w2 [MsgRowWithoutResult row])
    | (Raise e, w2) => (Raise e, w2)
    end.
Proof.
  cbn [requirement_decomposer.main_loop]. cbv zeta.
  unfold mbind, lift, print, printed_more.
  cbn [py_get row_of req_of requests stdout files].
  destruct (negb _ || negb _); [reflexivity|].
  match goal with
  | |- context [requirement_decomposer.decompose_requirement _ _ ?r ?w0] =>
      destruct (requirement_decomposer.decompose_requirement api_key endpoint
                  r w0) as [[[[|x l]|]|e] w2]
  end; reflexivity.
Qed.

(** One turn of the loop, in each of its four cases. *)
Lemma main_loop_step (item : json) (rest acc : list json) (w : world) :
  processable item = true ->
  exists w1,
    files w1 = files w
    /\ ((accepted item = false
         /\ requests w1 = requests w
         /\ requirement_decomposer.main_loop api_key endpoint (item :: rest) acc w
            = requirement_decomposer.main_loop api_key endpoint rest acc w1)
        \/ (accepted item = true /\ key_given api_key = false
            /\ requests w1 = requests w
            /\ requirement_decomposer.main_loop api_key endpoint (item :: rest) acc w
               = requirement_decomposer.main_loop api_key endpoint rest acc w1)
        \/ (accepted item = true /\ key_given api_key = true
            /\ (decoded (endpoint (requests w)) = None
                \/ decoded (endpoint (requests w)) = Some [])
            /\ requests w1 = S (requests w)
            /\ requirement_decomposer.main_loop api_key endpoint (item :: rest) acc w
               = requirement_decomposer.main_loop api_key endpoint rest acc w1)
        \/ (exists x l,
               accepted item = true /\ key_given api_key = true
               /\ decoded (endpoint (requests w)) = Some (x :: l)
               /\ requests w1 = S (requests w)
               /\ requirement_decomposer.main_loop api_key endpoint
                    (item :: rest) acc w
                  = requirement_decomposer.main_loop api_key endpoint rest
                      (acc ++ [requirement_decomposer.result_record
                                 (row_of item) (x :: l)]) w1)).
Proof.
  intros Hv. destruct (processable_dict item Hv) as [d ->].
  rewrite main_loop_cons. cbv zeta.
  destruct (accepted (JDict d)) eqn:Ha.
  - destruct (accepted_text _ Hv Ha) as [c [t Hreq]].
    unfold accepted in Ha. apply andb_true_iff in Ha as [Hrow Hreqt].
    rewrite Hrow, Hreqt. cbn [negb orb].
    rewrite Hreq, decompose_requirement_eq.
    destruct (key_given api_key) eqn:Hkey.
    + cbn [requests printed_more].
      destruct (decoded (endpoint (requests w))) as [[|x l]|] eqn:Hd;
        match goal with
        | |- context [requirement_decomposer.main_loop _ _ rest _ ?W] =>
            exists W
        end; (split; [reflexivity|]).
      * right; right; left. repeat split; auto.
      * right; right; right. exists x, l. repeat split; auto.
      * right; right; left. repeat split; auto.
    + match goal with
      | |- context [requirement_decomposer.main_loop _ _ rest _ ?W] =>
          exists W
      end. split; [reflexivity|]. right; left. repeat split; auto.
  - assert (Hneg : negb (truthy (row_of (JDict d)))
                   || negb (truthy (req_of (JDict d))) = true).
    { unfold accepted in Ha. apply andb_false_iff in Ha as [-> | ->]; cbn;
        [reflexivity|apply orb_true_r]. }
    rewrite Hneg.
    match goal with
    | |- context [requirement_decomposer.main_loop _ _ rest _ ?W] =>
        exists W
    end. split; [reflexivity|]. left. repeat split; auto.
Qed.

(** The loop returns when every record is processable, and what it
    returns is a run of the items from the request number it started
    with. *)
Lemma main_loop_run (items : list json) :
  forall acc w,
    forallb processable items = true ->
    exists new w',
      requirement_decomposer.main_loop api_key endpoint items acc w
      = (Ok (acc ++ new), w')
      /\ loop_run api_key endpoint (requests w) items new (requests w')
      /\ files w' = files w.
Proof.
  induction items as [|item rest IH]; intros acc w Hv.
  - exists [], w. cbn. rewrite app_nil_r. repeat split. constructor.
  - cbn [forallb] in Hv. apply andb_true_iff in Hv as [Hitem Hrest].
    destruct (main_loop_step item rest acc w Hitem)
      as [w1 [Hf [[Ha [Hr E]]|[[Ha [Hk [Hr E]]]|[[Ha [Hk [Hd [Hr E]]]]
                 |[x [l [Ha [Hk [Hd [Hr E]]]]]]]]]]];
      rewrite E.
    + destruct (IH acc w1 Hrest) as [new [w' [E' [Hrun Hf']]]].
      exists new, w'. rewrite Hr in Hrun. split; [exact E'|].
      split; [now apply run_invalid|congruence].
    + destruct (IH acc w1 Hrest) as [new [w' [E' [Hrun Hf']]]].
      exists new, w'. rewrite Hr in Hrun. split; [exact E'|].
      split; [now apply run_no_key|congruence].
    + destruct (IH acc w1 Hrest) as [new [w' [E' [Hrun Hf']]]].
      exists new, w'. rewrite Hr in Hrun. split; [exact E'|].
      split; [now apply run_failed|congruence].
    + destruct (IH (acc ++ [requirement_decomposer.result_record
                              (row_of item) (x :: l)]) w1 Hrest)
        as [new [w' [E' [Hrun Hf']]]].
      exists (requirement_decomposer.result_record (row_of item) (x :: l) :: new), w'.
      rewrite Hr in Hrun. split; [now rewrite E', <- app_assoc|].
      split; [now apply run_collected|congruence].
Qed.

(** The loop returns only when every record is processable. *)
Lemma main_loop_returns (items : list json) :
  forall acc w out w',
    requirement_decomposer.main_loop api_key endpoint items acc w = (Ok out, w') ->
    forallb processable items = true.
Proof.
  induction items as [|item rest IH]; intros acc w out w' E; [reflexivity|].
  cbn [forallb].
  assert (Hp : processable item = true).
  { destruct item as [| | | | | |d];
      try (cbn [requirement_decomposer.main_loop] in E;
           unfold mbind, lift in E; cbn [py_get] in E; discriminate).
    unfold processable. cbn [is_dict andb].
    destruct (accepted (JDict d)) eqn:Ha; [|reflexivity]. cbn [negb orb].
    destruct (req_of (JDict d)) eqn:Hreq; try reflexivity; exfalso;
      rewrite main_loop_cons in E; cbv zeta in E;
      unfold accepted in Ha; apply andb_true_iff in Ha as [Hrow Hreqt];
      rewrite Hrow, Hreqt in E; cbn [negb orb] in E;
      rewrite Hreq, decompose_requirement_not_text in E by discriminate;
      discriminate. }
  rewrite Hp. cbn [andb].
  destruct (main_loop_step item rest acc w Hp)
    as [w1 [_ [[_ [_ E1]]|[[_ [_ [_ E1]]]|[[_ [_ [_ [_ E1]]]]
               |[x [l [_ [_ [_ [_ E1]]]]]]]]]]];
    rewrite E1 in E; exact (IH _ _ _ _ E).
Qed.

(** What a run says about each record it produced. *)
Lemma loop_run_records (n n' : nat) (items recs : list json) :
  loop_run api_key endpoint n items recs n' ->
  forall rec,
    In rec recs ->
    exists item m x l,
      In item items
      /\ accepted item = true
      /\ (n <= m < n')%nat
      /\ decoded (endpoint m) = Some (x :: l)
      /\ rec = requirement_decomposer.result_record (row_of item) (x :: l).
Proof.
  assert (Hmono : forall a b its rs,
             loop_run api_key endpoint a its rs b -> (a <= b)%nat).
  { intros a b its rs H. induction H; lia. }
  induction 1 as [n|n n' item items recs Ha Hrun IH
                  |n n' item items recs Ha Hk Hrun IH
                  |n n' item items recs Ha Hk Hd Hrun IH
                  |n n' item items recs x l Ha Hk Hd Hrun IH];
    intros rec Hin.
  - destruct Hin.
  - destruct (IH rec Hin) as [it [m [x [l [H1 [H2 [H3 [H4 H5]]]]]]]].
    exists it, m, x, l. repeat split; auto; try lia. now right.
  - destruct (IH rec Hin) as [it [m [x [l [H1 [H2 [H3 [H4 H5]]]]]]]].
    exists it, m, x, l. repeat split; auto; try lia. now right.
  - destruct (IH rec Hin) as [it [m [x [l [H1 [H2 [H3 [H4 H5]]]]]]]].
    exists it, m, x, l. repeat split; auto; try lia. now right.
  - destruct Hin as [<-|Hin].
    + exists item, n, x, l. apply Hmono in Hrun.
      repeat split; auto; try lia. now left.
    + destruct (IH rec Hin) as [it [m [x' [l' [H1 [H2 [H3 [H4 H5]]]]]]]].
      exists it, m, x', l'. repeat split; auto; try lia. now right.
Qed.

(** A run produces at most one record per item, in the order of the
    items. *)
Lemma loop_run_length (n n' : nat) (items recs : list json) :
  loop_run api_key endpoint n items recs n' ->
  (List.length recs <= List.length items)%nat.
Proof. induction 1; cbn [List.length]; lia. Qed.

(** Without a successful request there is no record. *)
Lemma loop_run_all_failed (n n' : nat) (items recs : list json) :
  loop_run api_key endpoint n items recs n' ->
  (forall m, decoded (endpoint m) = None \/ decoded (endpoint m) = Some []) ->
  recs = [].
Proof.
  intros H Hfail. induction H; auto.
  destruct (Hfail n) as [E|E]; congruence.
Qed.

Lemma output_row_record (row : json) (l : list json) :
  output_row (requirement_decomposer.result_record row l) = row.
Proof. reflexivity. Qed.

End Loop.

(* ===================================================================== *)
(** * The output of the batch driver                                      *)
(* ===================================================================== *)

(** C1: on a valid requirement file whose rows and requirements can be
    printed, and with responses that the decomposer handles within the
    limits of the interpreter, the loop of the driver returns; and
    whenever it returns, every row number in its output is the row of an
    input record; every output record stems from an accepted input record
    and from a request that yielded a non-empty list; records that are not
    accepted, and records whose request fails, yield no output record (the
    output is a run of the items); and there are no more output records
    than input records. *)
Theorem driver_output_rows_subset
        {FC : FloatCodec} (api_key : option str) (endpoint : nat -> api_outcome)
        (items : list json) (w : world) :
  (forallb valid_record items = true ->
   forallb fields_printable items = true ->
   (forall m, handled_by_decomposer (endpoint m) = true) ->
   exists out w',
     requirement_decomposer.main_loop api_key endpoint items [] w = (Ok out, w'))
  /\ forall out w',
      requirement_decomposer.main_loop api_key endpoint items [] w = (Ok out, w') ->
      incl (List.map output_row out) (List.map row_of items)
      /\ (forall rec,
             In rec out ->
             exists item m x l,
               In item items
               /\ accepted item = true
               /\ (requests w <= m < requests w')%nat
               /\ decoded (endpoint m) = Some (x :: l)
               /\ rec = requirement_decomposer.result_record (row_of item) (x :: l))
      /\ loop_run api_key endpoint (requests w) items out (requests w')
      /\ (List.length out <= List.length items)%nat.
Proof.
  split.
  - intros Hv _ _.
    assert (Hp : forallb processable items = true).
    { rewrite forallb_forall in Hv |- *. intros x Hx.
      apply valid_record_processable. now apply Hv. }
    destruct (main_loop_run api_key endpoint items [] w Hp)
      as [out [w' [E _]]].
    now exists out, w'.
  - intros out w' E.
    pose proof (main_loop_returns api_key endpoint items [] w out w' E) as Hp.
    destruct (main_loop_run api_key endpoint items [] w Hp)
      as [out0 [w0 [E0 [Hrun _]]]].
    cbn [app] in E0. rewrite E in E0. injection E0 as <- <-.
    pose proof (loop_run_records api_key endpoint _ _ _ _ Hrun) as Hrecs.
    split; [|split; [exact Hrecs|split; [exact Hrun|]]].
    + intros row Hrow. apply in_map_iff in Hrow as [rec [<- Hrec]].
      destruct (Hrecs rec Hrec) as [item [m [x [l [Hin [_ [_ [_ ->]]]]]]]].
      rewrite output_row_record. now apply in_map.
    + exact (loop_run_length api_key endpoint _ _ _ _ Hrun).
Qed.

Lemma driver_output_rows_subset_witness :
  (exists out w',
      requirement_decomposer.main_loop (FC := example_codec)
        (Some (py "key")) example_endpoint example_requirements []
        (initial_world empty_files) = (Ok out, w'))
  /\ incl (List.map output_row
             [requirement_decomposer.result_record
                (JInt 2)
                [JDict [(py "id", JStr (py "1"));
                        (py "description", JStr (py "【需求描述】x"))]]])
          (List.map row_of example_requirements).
Proof.
  split.
  - refine (proj1 (@driver_output_rows_subset example_codec (Some (py "key"))
                     example_endpoint example_requirements
                     (initial_world empty_files)) _ _ _).
    + vm_compute. reflexivity.
    + vm_compute. reflexivity.
    + intros [|m]; vm_compute; reflexivity.
  - refine (proj1 (proj2 (@driver_output_rows_subset example_codec
                            (Some (py "key")) example_endpoint
                            example_requirements (initial_world empty_files))
                         _ _ _)).
    vm_compute. reflexivity.
Defined.

(** The example run: of four records, one is collected; the record with
    row 0 and the one with an empty requirement are passed over without a
    request, and the record whose request is refused leaves nothing. *)
Example driver_example_output :
  fst (requirement_decomposer.main_loop (FC := example_codec)
         (Some (py "key")) example_endpoint example_requirements []
         (initial_world empty_files))
  = Ok [JDict [(py "row_number", JInt 2);
               (py "decomposed_list",
                JList [JDict [(py "id", JStr (py "1"));
                              (py "description", JStr (py "【需求描述】x"))]])]].
Proof. vm_compute. reflexivity. Qed.

(** C10: a record whose row is the integer 0, and likewise a record whose
    requirement is the empty string, is passed over as invalid: a warning
    is printed, no request is sent and nothing is appended, and the loop
    goes on with the next record; this for a record whose row and
    requirement can be printed in the warning.  Accordingly,
    every record of the output has a row number other than 0 and stems
    from an item whose requirement is a non-empty text. *)
Theorem driver_skips_falsy_fields
        {FC : FloatCodec} (api_key : option str) (endpoint : nat -> api_outcome) :
  (forall d rest acc w,
      row_of (JDict d) = JInt 0 \/ req_of (JDict d) = JStr [] ->
      fields_printable (JDict d) = true ->
      requirement_decomposer.main_loop api_key endpoint (JDict d :: rest) acc w
      = requirement_decomposer.main_loop api_key endpoint rest acc
          (printed_more w [MsgInvalidItem (row_of (JDict d)) (req_of (JDict d))]))
  /\ (forall items w out w',
         requirement_decomposer.main_loop api_key endpoint items [] w
         = (Ok out, w') ->
         forall rec,
           In rec out ->
           output_row rec <> JInt 0
           /\ exists item c t l,
               In item items
               /\ row_of item <> JInt 0
               /\ req_of item = JStr (c :: t)
               /\ rec = requirement_decomposer.result_record (row_of item) l).
Proof.
  split.
  - intros d rest acc w H _. rewrite main_loop_cons. cbv zeta.
    destruct H as [-> | ->]; cbn [truthy Z.eqb negb orb]; [reflexivity|].
    now rewrite orb_true_r.
  - intros items w out w' E rec Hrec.
    pose proof (main_loop_returns api_key endpoint items [] w out w' E) as Hv.
    destruct (main_loop_run api_key endpoint items [] w Hv)
      as [out0 [w0 [E0 [Hrun _]]]].
    cbn [app] in E0. rewrite E in E0. injection E0 as <- <-.
    destruct (loop_run_records api_key endpoint _ _ _ _ Hrun rec Hrec)
      as [item [m [x [l [Hin [Ha [_ [_ ->]]]]]]]].
    assert (Hvi : processable item = true).
    { rewrite forallb_forall in Hv. now apply Hv. }
    destruct (accepted_text item Hvi Ha) as [c [t Hreq]].
    unfold accepted in Ha. apply andb_true_iff in Ha as [Hrow _].
    assert (Hnz : row_of item <> JInt 0).
    { intros Hz. rewrite Hz in Hrow. discriminate. }
    split; [now rewrite output_row_record|].
    exists item, c, t, (x :: l). repeat split; assumption.
Qed.

Lemma driver_skips_falsy_fields_witness :
  requirement_decomposer.main_loop (FC := example_codec) (Some (py "key"))
    example_endpoint
    [JDict [(py "row", JInt 0); (py "req", JStr (py "row zero"))]] []
    (initial_world empty_files)
  = (Ok [],
     printed_more (initial_world empty_files)
       [MsgInvalidItem (JInt 0) (JStr (py "row zero"))])
  /\ forall rec,
      In rec [requirement_decomposer.result_record
                (JInt 2)
                [JDict [(py "id", JStr (py "1"));
                        (py "description", JStr (py "【需求描述】x"))]]] ->
      output_row rec <> JInt 0
      /\ exists item c t l,
          In item example_requirements
          /\ row_of item <> JInt 0
          /\ req_of item = JStr (c :: t)
          /\ rec = requirement_decomposer.result_record (row_of item) l.
Proof.
  split.
  - exact (proj1 (@driver_skips_falsy_fields example_codec (Some (py "key"))
                    example_endpoint)
                 [(py "row", JInt 0); (py "req", JStr (py "row zero"))]
                 [] [] (initial_world empty_files) (or_introl eq_refl)
                 eq_refl).
  - refine (proj2 (@driver_skips_falsy_fields example_codec (Some (py "key"))
                     example_endpoint)
                  example_requirements (initial_world empty_files) _ _ _).
    vm_compute. reflexivity.
Defined.

(* ===================================================================== *)
(** * The JSON codec: writing and reading back                            *)
(* ===================================================================== *)

(** Induction on values, with the hypothesis for every element of a list
    and every value of a dictionary. *)
Lemma json_induction (P : json -> Prop) :
  P JNull ->
  (forall b, P (JBool b)) ->
  (forall z, P (JInt z)) ->
  (forall f, P (JFloat f)) ->
  (forall s, P (JStr s)) ->
  (forall l, Forall P l -> P (JList l)) ->
  (forall d, Forall (fun kv => P (snd kv)) d -> P (JDict d)) ->
  forall v, P v.
Proof.
  intros Hnull Hbool Hint Hfloat Hstr Hlist Hdict.
  fix IH 1. intros [| b | z | f | s | l | d].
  - exact Hnull.
  - apply Hbool.
  - apply Hint.
  - apply Hfloat.
  - apply Hstr.
  - apply Hlist. induction l as [|x l IHl]; constructor; [apply IH|exact IHl].
  - apply Hdict. induction d as [|[k x] d IHd]; constructor;
      [apply IH|exact IHd].
Qed.

Section Codec.
Context {FC : FloatCodec}.

Lemma scalar_text_text (level : nat) (v : json) (t : str) :
  Json.scalar_text v = Some t -> text level v = t.
Proof.
  destruct v as [| [|] | z | f | s | l | d]; cbn; try congruence.
Qed.

Lemma scalar_text_None (v : json) :
  Json.scalar_text v = None ->
  (exists l, v = JList l) \/ (exists d, v = JDict d).
Proof.
  destruct v as [| [|] | z | f | s | l | d]; cbn; try discriminate; eauto.
Qed.

(** The pieces of [iterencode], put together, are [text]. *)
Lemma concat_iterencode (v : json) :
  forall level, List.concat (Json.iterencode level v) = text level v.
Proof.
  revert v. apply (json_induction
    (fun v => forall level, List.concat (Json.iterencode level v) = text level v)).
  - reflexivity.
  - intros [|] level; reflexivity.
  - intros z level. cbn [Json.iterencode Json.scalar_text List.concat text].
    apply app_nil_r.
  - intros f level. cbn [Json.iterencode Json.scalar_text List.concat text].
    apply app_nil_r.
  - intros s level. cbn [Json.iterencode Json.scalar_text List.concat text].
    apply app_nil_r.
  - (* lists *)
    intros l IHl level.
    destruct l as [|v l]; [reflexivity|].
    cbn [Json.iterencode text]. rewrite concat_app. cbn [List.concat].
    rewrite app_nil_r.
    assert (Hel : forall l0 buf,
               Forall (fun v0 => forall level0,
                           List.concat (Json.iterencode level0 v0)
                           = text level0 v0) l0 ->
               List.concat
                 ((fix elems (buf : str) (l : list json) {struct l} : list str :=
                     match l with
                     | [] => []
                     | v :: l' =>
                         match Json.scalar_text v with
                         | Some t => [buf ++ t]
                         | None => buf :: Json.iterencode (S level) v
                         end ++ elems (ch "," :: Json.newline_indent (S level)) l'
                     end) buf l0)
               = tail_text (fun x => x) [] 
                   (match l0 with
                    | [] => []
                    | v0 :: l1 =>
                        [buf ++ text (S level) v0
                         ++ tail_text (text (S level))
                              (ch "," :: Json.newline_indent (S level)) l1]
                    end)).
    { induction l0 as [|v0 l0 IH0]; intros buf Hall; [reflexivity|].
      inversion Hall as [|? ? Hv0 Hl0]; subst.
      rewrite concat_app, (IH0 _ Hl0). cbn [tail_text app].
      rewrite app_nil_r.
      assert (Hhead : List.concat
                        match Json.scalar_text v0 with
                        | Some t => [buf ++ t]
                        | None => buf :: Json.iterencode (S level) v0
                        end = buf ++ text (S level) v0).
      { destruct (Json.scalar_text v0) as [t|] eqn:Hs.
        - cbn. rewrite app_nil_r. now rewrite (scalar_text_text (S level) v0 t Hs).
        - cbn [List.concat]. now rewrite Hv0. }
      rewrite Hhead, <- app_assoc. f_equal. f_equal.
      destruct l0 as [|v1 l1]; [reflexivity|].
      cbn [tail_text app]. rewrite app_nil_r. reflexivity. }
    rewrite (Hel (v :: l) _ IHl). cbn [tail_text app].
    rewrite app_nil_r, <- !app_assoc. reflexivity.
  - (* dictionaries *)
    intros d IHd level.
    destruct d as [|[k v] d]; [reflexivity|].
    cbn [Json.iterencode text]. cbn [List.concat]. rewrite concat_app.
    cbn [List.concat]. rewrite app_nil_r.
    assert (Hvalue : forall v0,
               (forall level0, List.concat (Json.iterencode level0 v0)
                               = text level0 v0) ->
               List.concat
                 match Json.scalar_text v0 with
                 | Some t => [t]
                 | None => Json.iterencode (S level) v0
                 end = text (S level) v0).
    { intros v0 Hv0. destruct (Json.scalar_text v0) as [t|] eqn:Hs.
      - cbn. rewrite app_nil_r. now rewrite (scalar_text_text (S level) v0 t Hs).
      - apply Hv0. }
    assert (Hmem : forall d0,
               Forall (fun kv => forall level0,
                           List.concat (Json.iterencode level0 (snd kv))
                           = text level0 (snd kv)) d0 ->
               List.concat
                 ((fix members (first : bool) (d : list (str * json)) {struct d}
                     : list str :=
                     match d with
                     | [] => []
                     | (k, v) :: d' =>
                         (if first then []
                          else [ch "," :: Json.newline_indent (S level)])
                         ++ Json.encode_basestring k :: py ": " ::
                         match Json.scalar_text v with
                         | Some t => [t]
                         | None => Json.iterencode (S level) v
                         end ++ members false d'
                     end) false d0)
               = tail_text (fun kv => Json.encode_basestring (fst kv) ++ py ": "
                                      ++ text (S level) (snd kv))
                           (ch "," :: Json.newline_indent (S level)) d0).
    { induction d0 as [|[k0 v0] d0 IH0]; intros Hall; [reflexivity|].
      inversion Hall as [|? ? Hv0 Hd0]; subst. cbn [snd] in Hv0.
      cbn [app List.concat tail_text fst snd].
      rewrite concat_app, <- !app_assoc. do 4 f_equal.
      f_equal; [exact (Hvalue v0 Hv0)|exact (IH0 Hd0)]. }
    inversion IHd as [|? ? Hv Hd]; subst. cbn [snd] in Hv.
    cbn [app List.concat]. rewrite concat_app, <- !app_assoc. do 4 f_equal.
    f_equal; [exact (Hvalue v Hv)|f_equal; exact (Hmem d Hd)].
Qed.

Lemma dumps_text (v : json) : Json.dumps v = text 0 v.
Proof. apply concat_iterencode. Qed.

End Codec.

(* ===================================================================== *)
(** * Reading back strings and numbers                                    *)
(* ===================================================================== *)

(** Decide the comparisons between character constants in the goal. *)
Ltac decide_constants :=
  repeat match goal with
         | |- context [(?a =? ?b)%N] =>
             first [change (a =? b)%N with true
                   |change (a =? b)%N with false]; cbv iota
         | |- context [(?a <? ?b)%N] =>
             first [change (a <? b)%N with true
                   |change (a <? b)%N with false]; cbv iota
         | |- context [(?a <=? ?b)%N] =>
             first [change (a <=? b)%N with true
                   |change (a <=? b)%N with false]; cbv iota
         end.

Lemma skip_ws_solid (c : char) (s : str) :
  Json.is_ws c = false -> Json.skip_ws (c :: s) = c :: s.
Proof. intros H. cbn [Json.skip_ws]. now rewrite H. Qed.

Lemma skip_ws_spaces (n : nat) (s : str) :
  Json.skip_ws (repeat 0x20%N n ++ s) = Json.skip_ws s.
Proof. induction n as [|n IH]; [reflexivity|exact IH]. Qed.

Lemma skip_ws_newline_indent (level : nat) (s : str) :
  Json.skip_ws (Json.newline_indent level ++ s) = Json.skip_ws s.
Proof.
  unfold Json.newline_indent. cbn [app Json.skip_ws].
  change (Json.is_ws 10%N) with true. cbv iota. apply skip_ws_spaces.
Qed.

(** ** Strings *)

(** A property of the characters below 0x20 that holds by inspection. *)
Lemma small_chars (P : char -> bool) :
  forallb P (List.map N.of_nat (seq 0 32)) = true ->
  forall c, (c < 0x20)%N -> P c = true.
Proof.
  intros H c Hc. rewrite forallb_forall in H. apply H.
  apply in_map_iff. exists (N.to_nat c). split; [apply N2Nat.id|].
  apply in_seq. lia.
Qed.

Lemma hex4_small (c : char) :
  (c < 0x20)%N ->
  Json.hex4 (ch "0") (ch "0") (Json.hex_char (c / 16)) (Json.hex_char (c mod 16))
  = Some c.
Proof.
  intros Hc.
  assert (H : (match Json.hex4 (ch "0") (ch "0") (Json.hex_char (c / 16))
                               (Json.hex_char (c mod 16)) with
               | Some x => (x =? c)%N
               | None => false
               end) = true).
  { revert c Hc.
    apply (small_chars
             (fun c => match Json.hex4 (ch "0") (ch "0")
                                       (Json.hex_char (c / 16))
                                       (Json.hex_char (c mod 16)) with
                       | Some x => (x =? c)%N
                       | None => false
                       end)).
    vm_compute. reflexivity. }
  destruct (Json.hex4 _ _ _ _) as [x|]; [|discriminate].
  apply N.eqb_eq in H. now subst.
Qed.

Lemma scanstring_u (h1 h2 h3 h4 u : char) (X : str) :
  Json.hex4 h1 h2 h3 h4 = Some u ->
  Json.is_high_surrogate u = false ->
  Json.scanstring (ch "\" :: ch "u" :: h1 :: h2 :: h3 :: h4 :: X)
  = Json.scan_map (cons u) (Json.scanstring X).
Proof.
  intros H1 H2. cbn [Json.scanstring]. decide_constants.
  now rewrite H1, H2.
Qed.

(** Reading an escaped character gives the character back. *)
Lemma scanstring_escape_char (c : char) (X : str) :
  Json.scanstring (Json.escape_char c ++ X)
  = Json.scan_map (cons c) (Json.scanstring X).
Proof.
  unfold Json.escape_char.
  repeat match goal with
         | |- context [if (c =? ?k)%N then _ else _] =>
             destruct (N.eqb_spec c k) as [->|?];
             [cbn [app Json.scanstring]; decide_constants; reflexivity|]
         end.
  destruct (N.ltb_spec c 0x20) as [Hlt|Hge].
  - cbn [app]. apply scanstring_u; [now apply hex4_small|].
    unfold Json.is_high_surrogate.
    destruct (N.leb_spec 0xD800 c); [lia|reflexivity].
  - cbn [app Json.scanstring].
    destruct (N.eqb_spec c dquote); [contradiction|].
    destruct (N.eqb_spec c (ch "\")); [contradiction|].
    destruct (N.ltb_spec c 0x20); [lia|reflexivity].
Qed.

Lemma scanstring_escaped (s rest : str) :
  Json.scanstring (flat_map Json.escape_char s ++ dquote :: rest)
  = Json.Parsed s rest.
Proof.
  induction s as [|c s IH].
  - cbn [flat_map app Json.scanstring]. decide_constants. reflexivity.
  - cbn [flat_map]. rewrite <- app_assoc, scanstring_escape_char, IH.
    reflexivity.
Qed.

Lemma scanstring_basestring (s rest : str) :
  exists t,
    Json.encode_basestring s ++ rest = dquote :: t
    /\ Json.scanstring t = Json.Parsed s rest.
Proof.
  exists (flat_map Json.escape_char s ++ dquote :: rest). split.
  - unfold Json.encode_basestring. cbn [app]. now rewrite <- app_assoc.
  - apply scanstring_escaped.
Qed.

(** ** Integers *)

Lemma digits_of_uint_digits (u : Decimal.uint) :
  forallb Json.is_digit (Json.digits_of_uint u) = true.
Proof.
  induction u; cbn [Json.digits_of_uint forallb]; try reflexivity;
    rewrite IHu; reflexivity.
Qed.

Lemma span_digits_app (ds rest : str) :
  forallb Json.is_digit ds = true ->
  match rest with [] => true | c :: _ => negb (Json.is_digit c) end = true ->
  Json.span_digits (ds ++ rest) = (ds, rest).
Proof.
  intros Hds Hrest. induction ds as [|d ds IH].
  - destruct rest as [|c rest]; [reflexivity|].
    cbn [app Json.span_digits]. apply negb_true_iff in Hrest.
    now rewrite Hrest.
  - cbn [forallb] in Hds. apply andb_true_iff in Hds as [Hd Hds].
    cbn [app Json.span_digits]. now rewrite Hd, (IH Hds).
Qed.

Lemma fold_digits_acc (u : Decimal.uint) (acc : positive) :
  fold_left digit_step (Json.digits_of_uint u) (Zpos acc)
  = Zpos (Pos.of_uint_acc u acc).
Proof.
  revert acc. induction u; intros acc; cbn [Json.digits_of_uint fold_left];
    try reflexivity;
    cbn [Pos.of_uint_acc]; rewrite <- IHu; f_equal;
    unfold digit_step;
    match goal with
    | |- context [Z.of_N (ch ?a)] =>
        let v := eval vm_compute in (Z.of_N (ch a)) in
        change (Z.of_N (ch a)) with v
    end; lia.
Qed.

Lemma nat_value_digits (u : Decimal.uint) :
  Json.nat_value (Json.digits_of_uint u) = Z.of_N (Pos.of_uint u).
Proof.
  change (fold_left digit_step (Json.digits_of_uint u) 0%Z
          = Z.of_N (Pos.of_uint u)).
  induction u; cbn [Json.digits_of_uint fold_left Pos.of_uint];
    try reflexivity;
    try (change (digit_step 0 (ch "0")) with 0%Z; exact IHu);
    match goal with
    | |- fold_left _ _ (digit_step 0 ?c) = _ =>
        let v := eval vm_compute in (digit_step 0 c) in
        change (digit_step 0 c) with v
    end;
    rewrite fold_digits_acc; reflexivity.
Qed.

Lemma nat_value_to_uint (p : positive) :
  Json.nat_value (Json.digits_of_uint (Pos.to_uint p)) = Zpos p.
Proof.
  rewrite nat_value_digits, DecimalPos.Unsigned.of_to. reflexivity.
Qed.

(** The decimal digits of a positive number start with a digit other
    than 0. *)
Lemma to_uint_head (p : positive) :
  exists c ds,
    Json.digits_of_uint (Pos.to_uint p) = c :: ds
    /\ Json.is_digit c = true
    /\ (c =? ch "0")%N = false.
Proof.
  pose proof (DecimalPos.Unsigned.to_uint_nonzero p) as Hnz.
  pose proof (DecimalPos.Unsigned.to_of (Pos.to_uint p)) as Hnorm.
  rewrite DecimalPos.Unsigned.of_to in Hnorm. cbn [N.to_uint] in Hnorm.
  destruct (Pos.to_uint p) as [|u|u|u|u|u|u|u|u|u|u] eqn:E;
    try (cbn [Json.digits_of_uint]; eexists; eexists;
         split; [reflexivity|split; reflexivity]).
  - exfalso. exact (DecimalPos.Unsigned.to_uint_nonnil p E).
  - exfalso. unfold Decimal.unorm in Hnorm. cbn [Decimal.nzhead] in Hnorm.
    destruct (Decimal.nzhead u) eqn:Hh; try discriminate.
    all: try (apply Hnz; exact Hnorm).
    exact (DecimalFacts.nzhead_nonzero u _ Hh).
Qed.

Lemma delimited_not_digit (rest : str) :
  delimited rest = true ->
  match rest with [] => true | c :: _ => negb (Json.is_digit c) end = true.
Proof.
  destruct rest as [|c rest]; [reflexivity|]. unfold delimited.
  destruct (Json.is_digit c); [discriminate|reflexivity].
Qed.

Lemma match_frac_delimited (rest : str) :
  delimited rest = true -> Json.match_frac rest = ([], rest).
Proof.
  destruct rest as [|c [|d rest]]; try reflexivity.
  unfold delimited, Json.match_frac. intros H.
  destruct (c =? ch ".")%N; [|reflexivity].
  rewrite orb_true_r in H. discriminate.
Qed.

Lemma match_exp_delimited (rest : str) :
  delimited rest = true -> Json.match_exp rest = ([], rest).
Proof.
  destruct rest as [|c rest]; try reflexivity.
  unfold delimited, Json.match_exp. intros H.
  destruct (c =? ch "e")%N; [rewrite ?orb_true_r in H; discriminate|].
  destruct (c =? ch "E")%N; [rewrite ?orb_true_r in H; discriminate|].
  reflexivity.
Qed.

Lemma digit_not (c : char) (k : char) :
  Json.is_digit c = true -> Json.is_digit k = false -> (k =? c)%N = false.
Proof.
  intros Hc Hk. destruct (N.eqb_spec k c) as [->|]; congruence.
Qed.

Lemma match_integer_digits (c : char) (ds rest : str) :
  Json.is_digit c = true ->
  (c =? ch "0")%N = false ->
  forallb Json.is_digit ds = true ->
  delimited rest = true ->
  Json.match_integer (c :: ds ++ rest) = Some (false, c :: ds, rest)
  /\ Json.match_integer (ch "-" :: c :: ds ++ rest) = Some (true, c :: ds, rest).
Proof.
  intros Hc H0 Hds Hrest. unfold Json.match_integer.
  replace (c =? ch "-")%N with false
    by (destruct (N.eqb_spec c (ch "-")) as [->|]; [discriminate|reflexivity]).
  change (ch "-" =? ch "-")%N with true. cbv iota.
  rewrite H0, Hc, span_digits_app; auto using delimited_not_digit.
Qed.

Section Numbers.
Context {FC : FloatCodec}.

Lemma match_number_integer (neg : bool) (digits rest s : str) :
  Json.match_integer s = Some (neg, digits, rest) ->
  delimited rest = true ->
  Json.match_number s
  = Json.Parsed (JInt (if neg then - Json.nat_value digits
                       else Json.nat_value digits)%Z) rest.
Proof.
  intros Hs Hrest. unfold Json.match_number.
  rewrite Hs, (match_frac_delimited rest Hrest), (match_exp_delimited rest Hrest).
  reflexivity.
Qed.

Lemma match_number_intstr (z : Z) (rest : str) :
  delimited rest = true ->
  Json.match_number (Json.intstr z ++ rest) = Json.Parsed (JInt z) rest.
Proof.
  intros Hrest. unfold Json.intstr. destruct z as [|p|p]; cbn [Z.to_int].
  - apply (match_number_integer false [ch "0"] rest); [|exact Hrest].
    reflexivity.
  - destruct (to_uint_head p) as [c [ds [E [Hc H0]]]].
    pose proof (digits_of_uint_digits (Pos.to_uint p)) as Hall.
    pose proof (nat_value_to_uint p) as Hval.
    rewrite E in *. cbn [forallb] in Hall.
    apply andb_true_iff in Hall as [_ Hds].
    rewrite (match_number_integer false (c :: ds) rest).
    + now rewrite Hval.
    + cbn [app]. now apply match_integer_digits.
    + exact Hrest.
  - destruct (to_uint_head p) as [c [ds [E [Hc H0]]]].
    pose proof (digits_of_uint_digits (Pos.to_uint p)) as Hall.
    pose proof (nat_value_to_uint p) as Hval.
    rewrite E in *. cbn [forallb] in Hall.
    apply andb_true_iff in Hall as [_ Hds].
    rewrite (match_number_integer true (c :: ds) rest).
    + now rewrite Hval.
    + cbn [app]. now apply match_integer_digits.
    + exact Hrest.
Qed.

(** A text that starts as a number is not one of the literals. *)
Lemma scan_atom_digit (c : char) (s : str) :
  Json.is_digit c = true ->
  Json.scan_atom (c :: s) = Json.match_number (c :: s)
  /\ Json.scan_atom (ch "-" :: c :: s) = Json.match_number (ch "-" :: c :: s).
Proof.
  intros Hc. unfold Json.scan_atom.
  repeat match goal with
         | |- context [py ?lit] =>
             let v := eval vm_compute in (py lit) in change (py lit) with v
         end.
  cbn [strip_prefix]. decide_constants.
  repeat match goal with
         | |- context [(?k =? c)%N] =>
             rewrite (digit_not c k Hc) by reflexivity
         end.
  split; reflexivity.
Qed.

Lemma intstr_head (z : Z) :
  (exists c ds, Json.intstr z = c :: ds /\ Json.is_digit c = true)
  \/ (exists c ds, Json.intstr z = ch "-" :: c :: ds /\ Json.is_digit c = true).
Proof.
  unfold Json.intstr. destruct z as [|p|p]; cbn [Z.to_int].
  - left. now exists (ch "0"), [].
  - left. destruct (to_uint_head p) as [c [ds [E [Hc _]]]]. now exists c, ds.
  - right. destruct (to_uint_head p) as [c [ds [E [Hc _]]]].
    exists c, ds. now rewrite E.
Qed.

Lemma scan_atom_intstr (z : Z) (rest : str) :
  delimited rest = true ->
  Json.scan_atom (Json.intstr z ++ rest) = Json.Parsed (JInt z) rest.
Proof.
  intros Hrest. rewrite <- (match_number_intstr z rest Hrest).
  destruct (intstr_head z) as [[c [ds [E Hc]]]|[c [ds [E Hc]]]]; rewrite E;
    cbn [app]; now apply scan_atom_digit.
Qed.

End Numbers.

(* ===================================================================== *)
(** * Reading back a written value                                        *)
(* ===================================================================== *)

(** Write the character constants of the goal as numbers. *)
Ltac eval_chars :=
  repeat match goal with
         | |- context [ch ?a] =>
             let v := eval vm_compute in (ch a) in change (ch a) with v
         | |- context [py ?lit] =>
             let v := eval vm_compute in (py lit) in change (py lit) with v
         end;
  unfold dquote.

Lemma digit_bounds (c : char) :
  Json.is_digit c = true -> (0x30 <= c <= 0x39)%N.
Proof.
  unfold Json.is_digit. intros H. apply andb_true_iff in H as [H1 H2].
  apply N.leb_le in H1. apply N.leb_le in H2. lia.
Qed.

Lemma not_digit_eqb (c k : char) :
  Json.is_digit c = true -> (k < 0x30 \/ 0x39 < k)%N -> (c =? k)%N = false.
Proof.
  intros Hc Hk. apply digit_bounds in Hc.
  destruct (N.eqb_spec c k); [lia|reflexivity].
Qed.

(** Dictionaries built from pairs with distinct keys keep the pairs. *)
Lemma dict_set_fresh (d : pydict) (k : str) (v : json) :
  existsb (str_eqb k) (List.map fst d) = false ->
  dict_set d k v = d ++ [(k, v)].
Proof.
  induction d as [|[k' v'] d IH]; intros H; [reflexivity|].
  cbn [List.map fst existsb] in H. apply orb_false_iff in H as [Hk Hd].
  cbn [dict_set app].
  replace (str_eqb k' k) with false.
  - now rewrite IH.
  - symmetry. apply str_eqb_neq. apply str_eqb_neq in Hk. congruence.
Qed.

Lemma existsb_app_false (k : str) (a b : list str) :
  existsb (str_eqb k) a = false -> existsb (str_eqb k) b = false ->
  existsb (str_eqb k) (a ++ b) = false.
Proof. intros Ha Hb. now rewrite existsb_app, Ha, Hb. Qed.

Lemma fold_dict_set (pairs acc : pydict) :
  distinct (List.map fst pairs) = true ->
  (forall k, In k (List.map fst pairs) ->
             existsb (str_eqb k) (List.map fst acc) = false) ->
  fold_left (fun d kv => dict_set d (fst kv) (snd kv)) pairs acc
  = acc ++ pairs.
Proof.
  revert acc. induction pairs as [|[k v] pairs IH]; intros acc Hd Hacc.
  - cbn. now rewrite app_nil_r.
  - cbn [List.map fst distinct] in Hd. apply andb_true_iff in Hd as [Hk Hd].
    apply negb_true_iff in Hk.
    cbn [fold_left fst snd]. rewrite dict_set_fresh.
    + rewrite IH; [now rewrite <- app_assoc|exact Hd|].
      intros k' Hk'. rewrite map_app. apply existsb_app_false.
      * apply Hacc. now right.
      * cbn [List.map fst existsb]. rewrite orb_false_r.
        destruct (str_eqb k' k) eqn:E; [|reflexivity].
        apply str_eqb_eq in E. subst k'. exfalso.
        assert (Hex : existsb (str_eqb k) (List.map fst pairs) = true).
        { apply existsb_exists. exists k. split; [exact Hk'|apply str_eqb_refl]. }
        rewrite Hex in Hk. discriminate.
    + apply Hacc. now left.
Qed.

Lemma dict_of_pairs_distinct (pairs : pydict) :
  distinct (List.map fst pairs) = true -> dict_of_pairs pairs = pairs.
Proof.
  intros H. unfold dict_of_pairs. rewrite fold_dict_set; auto.
Qed.

Section RoundTrip.
Context {FC : FloatCodec}.

Lemma opens_value_digit (c : char) :
  Json.is_digit c = true -> opens_value c = true.
Proof.
  intros H. apply digit_bounds in H.
  unfold opens_value, Json.is_ws. eval_chars.
  repeat match goal with
         | |- context [(c =? ?k)%N] =>
             destruct (N.eqb_spec c k); [lia|]
         end.
  reflexivity.
Qed.

(** The first character of a written value. *)
Lemma text_head (v : json) (level : nat) :
  plain v = true ->
  exists c t, text level v = c :: t /\ opens_value c = true.
Proof.
  destruct v as [| [|] | z | f | s | [|x l] | [|[k x] d]]; intros H;
    try discriminate;
    try (cbn [text]; eval_chars; eexists; eexists; split; reflexivity).
  destruct (intstr_head z) as [[c [ds [E Hc]]]|[c [ds [E Hc]]]];
    cbn [text]; rewrite E.
  - exists c, ds. split; [reflexivity|now apply opens_value_digit].
  - eexists; eexists; split; reflexivity.
Qed.

Lemma skip_ws_newline_text (v : json) (level level' : nat) (rest : str) :
  plain v = true ->
  Json.skip_ws (Json.newline_indent level' ++ text level v ++ rest)
  = text level v ++ rest.
Proof.
  intros H. rewrite skip_ws_newline_indent.
  destruct (text_head v level H) as [c [t [E Hc]]]. rewrite E. cbn [app].
  apply skip_ws_solid. unfold opens_value in Hc.
  apply andb_true_iff in Hc as [Hc _]. apply andb_true_iff in Hc as [Hc _].
  now apply negb_true_iff.
Qed.

Lemma scan_once_atom (n : nat) (c : char) (s : str) :
  (c =? dquote)%N = false -> (c =? ch "{")%N = false ->
  (c =? ch "[")%N = false ->
  Json.scan_once (S n) (c :: s) = Json.scan_atom (c :: s).
Proof.
  intros H1 H2 H3. cbn [Json.scan_once]. now rewrite H1, H2, H3.
Qed.

Lemma scan_once_intstr (n : nat) (z : Z) (rest : str) :
  delimited rest = true ->
  Json.scan_once (S n) (Json.intstr z ++ rest) = Json.Parsed (JInt z) rest.
Proof.
  intros Hrest. rewrite <- (scan_atom_intstr z rest Hrest).
  destruct (intstr_head z) as [[c [ds [E Hc]]]|[c [ds [E Hc]]]]; rewrite E;
    cbn [app].
  - apply scan_once_atom; apply not_digit_eqb; auto; unfold dquote;
      eval_chars; lia.
  - apply scan_once_atom; reflexivity.
Qed.

Lemma scan_once_basestring (n : nat) (s rest : str) :
  Json.scan_once (S n) (Json.encode_basestring s ++ rest)
  = Json.Parsed (JStr s) rest.
Proof.
  destruct (scanstring_basestring s rest) as [t [E Ht]]. rewrite E.
  cbn [Json.scan_once]. rewrite N.eqb_refl, Ht. reflexivity.
Qed.

(** A delimiter of the layout may follow a number. *)
Lemma delimited_comma (s : str) : delimited (ch "," :: s) = true.
Proof. reflexivity. Qed.

Lemma delimited_newline (level : nat) (s : str) :
  delimited (Json.newline_indent level ++ s) = true.
Proof. reflexivity. Qed.

Lemma parse_items_text (level : nat) (rest : str) (l : list json) :
  Forall reads_back l ->
  forallb plain l = true ->
  forall v fuel,
    reads_back v -> plain v = true ->
    (list_sum (List.map (fun x => S (size x)) (v :: l)) <= fuel)%nat ->
    Json.parse_items fuel
      (text (S level) v
       ++ tail_text (text (S level)) (ch "," :: Json.newline_indent (S level)) l
       ++ Json.newline_indent level ++ ch "]" :: rest)
    = Json.Parsed (v :: l) rest.
Proof.
  induction l as [|v' l IH]; intros Hall Hplain v fuel Hv Hpv Hfuel.
  - unfold list_sum in Hfuel; cbn [List.map fold_right] in Hfuel.
    destruct fuel as [|n]; [lia|]. cbn [Json.parse_items tail_text app].
    rewrite (Hv Hpv (S level) _ n) by (try lia; apply delimited_newline).
    rewrite skip_ws_newline_indent. cbn [Json.skip_ws].
    change (Json.is_ws (ch "]")) with false. cbv iota.
    rewrite N.eqb_refl. reflexivity.
  - unfold list_sum in Hfuel; cbn [List.map fold_right] in Hfuel.
    destruct fuel as [|n]; [lia|]. cbn [Json.parse_items tail_text].
    inversion Hall as [|? ? Hv' Hl]; subst.
    cbn [forallb] in Hplain. apply andb_true_iff in Hplain as [Hpv' Hpl].
    rewrite <- !app_assoc.
    rewrite (Hv Hpv (S level) _ n) by (try lia; reflexivity).
    cbn [app Json.skip_ws].
    change (Json.is_ws (ch ",")) with false. cbv iota.
    change (ch "," =? ch "]")%N with false. cbv iota.
    rewrite N.eqb_refl.
    rewrite (skip_ws_newline_text v' (S level) (S level)) by exact Hpv'.
    rewrite (IH Hl Hpl v' n Hv' Hpv') by (unfold list_sum; cbn [List.map fold_right]; lia).
    reflexivity.
Qed.

Lemma skip_ws_text (v : json) (level : nat) (rest : str) :
  plain v = true ->
  Json.skip_ws (text level v ++ rest) = text level v ++ rest.
Proof.
  intros H. destruct (text_head v level H) as [c [t [E Hc]]]. rewrite E.
  cbn [app]. apply skip_ws_solid. unfold opens_value in Hc.
  apply andb_true_iff in Hc as [Hc _]. apply andb_true_iff in Hc as [Hc _].
  now apply negb_true_iff.
Qed.

Lemma skip_ws_basestring (k X : str) :
  Json.skip_ws (Json.encode_basestring k ++ X) = Json.encode_basestring k ++ X.
Proof.
  unfold Json.encode_basestring. cbn [app]. now apply skip_ws_solid.
Qed.

Lemma skip_ws_colon (X : str) :
  Json.skip_ws (py ": " ++ X) = ch ":" :: 0x20%N :: X.
Proof. reflexivity. Qed.

Lemma skip_ws_space (X : str) : Json.skip_ws (0x20%N :: X) = Json.skip_ws X.
Proof. reflexivity. Qed.

(** One member of an object: the key, the colon and the value. *)
Lemma parse_members_step (n : nat) (k : str) (v : json) (level : nat)
      (R : str) :
  reads_back v -> plain v = true -> (size v <= n)%nat ->
  delimited R = true ->
  Json.parse_members (S n)
    (Json.encode_basestring k ++ py ": " ++ text (S level) v ++ R)
  = match Json.skip_ws R with
    | c :: r3 =>
        if (c =? ch "}")%N then Json.Parsed [(k, v)] r3
        else if (c =? ch ",")%N then
          Json.scan_map (cons (k, v)) (Json.parse_members n (Json.skip_ws r3))
        else Json.Invalid
    | [] => Json.Invalid
    end.
Proof.
  intros Hv Hpv Hn HR.
  destruct (scanstring_basestring k (py ": " ++ text (S level) v ++ R))
    as [t [E Ht]].
  rewrite E. cbn [Json.parse_members]. rewrite N.eqb_refl, Ht.
  rewrite skip_ws_colon, N.eqb_refl, skip_ws_space.
  rewrite (skip_ws_text v (S level) R Hpv).
  rewrite (Hv Hpv (S level) R n Hn HR). reflexivity.
Qed.

Lemma parse_members_text (level : nat) (rest : str) (d : list (str * json)) :
  Forall (fun kv => reads_back (snd kv)) d ->
  forallb (fun kv => plain (snd kv)) d = true ->
  forall k v fuel,
    reads_back v -> plain v = true ->
    (list_sum (List.map (fun kv => S (size (snd kv))) ((k, v) :: d)) <= fuel)%nat ->
    Json.parse_members fuel
      ((Json.encode_basestring k ++ py ": " ++ text (S level) v)
       ++ tail_text (fun kv => Json.encode_basestring (fst kv) ++ py ": "
                               ++ text (S level) (snd kv))
                    (ch "," :: Json.newline_indent (S level)) d
       ++ Json.newline_indent level ++ ch "}" :: rest)
    = Json.Parsed ((k, v) :: d) rest.
Proof.
  induction d as [|[k' v'] d IH]; intros Hall Hplain k v fuel Hv Hpv Hfuel.
  - unfold list_sum in Hfuel; cbn [List.map fold_right snd] in Hfuel.
    destruct fuel as [|n]; [lia|].
    rewrite <- !app_assoc. cbn [tail_text app].
    rewrite parse_members_step
      by (try assumption; try lia; apply delimited_newline).
    rewrite skip_ws_newline_indent. cbn [Json.skip_ws].
    change (Json.is_ws (ch "}")) with false. cbv iota.
    rewrite N.eqb_refl. reflexivity.
  - unfold list_sum in Hfuel; cbn [List.map fold_right snd] in Hfuel.
    destruct fuel as [|n]; [lia|].
    inversion Hall as [|? ? Hv' Hd]; subst. cbn [snd] in Hv'.
    cbn [forallb snd] in Hplain. apply andb_true_iff in Hplain as [Hpv' Hpd].
    rewrite <- !app_assoc. cbn [tail_text fst snd].
    rewrite parse_members_step by (try assumption; try lia; reflexivity).
    cbn [app Json.skip_ws].
    change (Json.is_ws (ch ",")) with false. cbv iota.
    change (ch "," =? ch "}")%N with false. cbv iota.
    rewrite N.eqb_refl.
    rewrite <- !app_assoc.
    rewrite skip_ws_newline_indent, skip_ws_basestring.
    pose proof (IH Hd Hpd k' v' n Hv' Hpv') as IH'.
    rewrite <- !app_assoc in IH'.
    rewrite IH' by (unfold list_sum; cbn [List.map fold_right snd]; lia).
    reflexivity.
Qed.

Lemma opens_value_not_closing (c : char) :
  opens_value c = true ->
  (c =? ch "]")%N = false /\ (c =? ch "}")%N = false.
Proof.
  unfold opens_value. intros H.
  apply andb_true_iff in H as [H H2]. apply andb_true_iff in H as [_ H1].
  split; now apply negb_true_iff.
Qed.

(** Every plain value is read back from its text, with fuel for its
    size. *)
Lemma all_read_back (v : json) : reads_back v.
Proof.
  revert v. apply json_induction; unfold reads_back.
  - intros _ level rest [|n] Hf Hd; [cbn in Hf; lia|reflexivity].
  - intros [|] _ level rest [|n] Hf Hd; try (cbn in Hf; lia); reflexivity.
  - intros z _ level rest [|n] Hf Hd; [cbn in Hf; lia|].
    cbn [text]. now apply scan_once_intstr.
  - intros f H. discriminate.
  - intros s _ level rest [|n] Hf Hd; [cbn in Hf; lia|].
    cbn [text]. apply scan_once_basestring.
  - intros l IHl Hp level rest [|n] Hf Hd; [cbn in Hf; lia|].
    destruct l as [|v l]; [reflexivity|].
    cbn [plain forallb] in Hp. apply andb_true_iff in Hp as [Hpv Hpl].
    inversion IHl as [|? ? Hv Hl]; subst.
    cbn [size] in Hf. apply le_S_n in Hf.
    cbn [text app Json.scan_once]. decide_constants.
    rewrite <- !app_assoc.
    rewrite (skip_ws_newline_text v (S level) (S level)) by exact Hpv.
    destruct (text_head v (S level) Hpv) as [c [t [E Hc]]].
    destruct (opens_value_not_closing c Hc) as [Hc1 _].
    rewrite E at 1. cbn [app]. rewrite Hc1.
    change (c :: t ++ ?x) with ((c :: t) ++ x). rewrite <- E.
    cbn [app]. rewrite (parse_items_text level rest l Hl Hpl v n Hv Hpv Hf).
    reflexivity.
  - intros d IHd Hp level rest [|n] Hf Hd; [cbn in Hf; lia|].
    destruct d as [|[k v] d]; [reflexivity|].
    cbn [plain] in Hp. apply andb_true_iff in Hp as [Hkeys Hp].
    cbn [forallb snd] in Hp. apply andb_true_iff in Hp as [Hpv Hpd].
    inversion IHd as [|? ? Hv Hd']; subst. cbn [snd] in Hv.
    cbn [size] in Hf. apply le_S_n in Hf.
    cbn [text app Json.scan_once]. decide_constants.
    rewrite <- !app_assoc.
    rewrite skip_ws_newline_indent, skip_ws_basestring.
    unfold Json.encode_basestring at 1. cbn [app].
    change (dquote =? ch "}")%N with false. cbv iota.
    change (dquote :: (flat_map Json.escape_char k ++ [dquote]) ++ ?x)
      with (Json.encode_basestring k ++ x).
    pose proof (parse_members_text level rest d Hd' Hpd k v n Hv Hpv Hf) as Hm.
    rewrite <- !app_assoc in Hm. rewrite Hm.
    cbn [Json.scan_map]. now rewrite dict_of_pairs_distinct.
Qed.

Lemma text_head_ascii (v : json) (level : nat) :
  plain v = true ->
  exists c t, text level v = c :: t /\ (c <? 0x80)%N = true.
Proof.
  destruct v as [| [|] | z | f | s | [|x l] | [|[k x] d]]; intros H;
    try discriminate;
    try (cbn [text]; eval_chars; eexists; eexists; split; reflexivity).
  destruct (intstr_head z) as [[c [ds [E Hc]]]|[c [ds [E Hc]]]];
    cbn [text]; rewrite E.
  - exists c, ds. split; [reflexivity|]. apply digit_bounds in Hc.
    apply N.ltb_lt. lia.
  - eexists; eexists; split; reflexivity.
Qed.

Lemma tail_text_length {A : Type} (f : A -> str) (g : A -> nat) (sep : str)
      (l : list A) :
  (1 <= List.length sep)%nat ->
  Forall (fun x => (g x <= List.length (f x))%nat) l ->
  (list_sum (List.map (fun x => S (g x)) l)
   <= List.length (tail_text f sep l))%nat.
Proof.
  intros Hsep. induction 1 as [|x l Hx Hl IH]; [cbn; lia|].
  unfold list_sum in *. cbn [List.map fold_right tail_text].
  rewrite !length_app. lia.
Qed.

(** A plain value has at least as many characters as it has values. *)
Lemma size_le_text (v : json) :
  plain v = true -> forall level, (size v <= List.length (text level v))%nat.
Proof.
  revert v. apply (json_induction
    (fun v => plain v = true ->
              forall level, (size v <= List.length (text level v))%nat)).
  - intros _ level. cbn [size text]. eval_chars. cbn [List.length]. lia.
  - intros [|] _ level; cbn [size text]; eval_chars; cbn [List.length]; lia.
  - intros z _ level. cbn [size text].
    destruct (intstr_head z) as [[c [ds [E _]]]|[c [ds [E _]]]]; rewrite E;
      cbn [List.length]; lia.
  - intros f H. discriminate.
  - intros s _ level. cbn [size text]. unfold Json.encode_basestring.
    cbn [List.length]. lia.
  - intros l IHl Hp level.
    destruct l as [|v l];
      [cbn [size text List.map list_sum fold_right]; eval_chars;
       cbn [List.length]; lia|].
    cbn [plain forallb] in Hp. apply andb_true_iff in Hp as [Hpv Hpl].
    inversion IHl as [|? ? Hv Hl]; subst.
    cbn [size text]. unfold list_sum. cbn [List.map fold_right List.length].
    rewrite !length_app.
    assert (Ht : (list_sum (List.map (fun x => S (size x)) l)
                  <= List.length
                       (tail_text (text (S level))
                                  (ch "," :: Json.newline_indent (S level)) l))%nat).
    { apply tail_text_length; [cbn [List.length]; lia|].
      rewrite Forall_forall in Hl |- *. intros x Hx. apply Hl; [exact Hx|].
      rewrite forallb_forall in Hpl. now apply Hpl. }
    unfold list_sum in Ht. specialize (Hv Hpv (S level)).
    cbn [Json.newline_indent List.length]. lia.
  - intros d IHd Hp level.
    destruct d as [|[k v] d];
      [cbn [size text List.map list_sum fold_right]; eval_chars;
       cbn [List.length]; lia|].
    cbn [plain] in Hp. apply andb_true_iff in Hp as [_ Hp].
    cbn [forallb snd] in Hp. apply andb_true_iff in Hp as [Hpv Hpd].
    inversion IHd as [|? ? Hv Hd]; subst. cbn [snd] in Hv.
    cbn [size text]. unfold list_sum.
    cbn [List.map fold_right List.length snd].
    rewrite !length_app.
    assert (Ht : (list_sum (List.map (fun kv => S (size (snd kv))) d)
                  <= List.length
                       (tail_text
                          (fun kv => Json.encode_basestring (fst kv) ++ py ": "
                                     ++ text (S level) (snd kv))
                          (ch "," :: Json.newline_indent (S level)) d))%nat).
    { apply (tail_text_length _ (fun kv => size (snd kv)));
        [cbn [List.length]; lia|].
      rewrite Forall_forall in Hd |- *. intros x Hx. rewrite !length_app.
      assert (size (snd x) <= List.length (text (S level) (snd x)))%nat.
      { apply Hd; [exact Hx|]. rewrite forallb_forall in Hpd. now apply Hpd. }
      lia. }
    unfold list_sum in Ht. specialize (Hv Hpv (S level)).
    cbn [Json.newline_indent List.length]. lia.
Qed.

(** [loads] undoes [dumps] on plain values. *)
Lemma loads_dumps (v : json) :
  plain v = true -> Json.loads (Json.dumps v) = Some v.
Proof.
  intros Hp. rewrite dumps_text.
  destruct (text_head_ascii v 0 Hp) as [c [t [E Hc]]].
  pose proof (size_le_text v Hp 0) as Hsize.
  pose proof (skip_ws_text v 0 [] Hp) as Hskip.
  pose proof (all_read_back v Hp 0 [] (S (List.length (text 0 v)))) as Hread.
  rewrite app_nil_r in Hskip, Hread.
  unfold Json.loads.
  replace (startswith (text 0 v) [0xFEFF%N]) with false.
  - rewrite Hskip, Hread by (try lia; reflexivity). reflexivity.
  - rewrite E. unfold startswith. cbn [strip_prefix].
    apply N.ltb_lt in Hc.
    destruct (N.eqb_spec 0xFEFF c); [lia|reflexivity].
Qed.

End RoundTrip.

(* ===================================================================== *)
(** * Saving results and loading them again                               *)
(* ===================================================================== *)

Lemma forallb_concat {A : Type} (p : A -> bool) (chunks : list (list A)) :
  forallb p (List.concat chunks) = forallb (forallb p) chunks.
Proof.
  induction chunks as [|c chunks IH]; [reflexivity|].
  cbn [List.concat forallb]. now rewrite forallb_app, IH.
Qed.

Lemma write_chunks_all (chunks : list str) (written : str) :
  forallb (forallb utf8_encodable) chunks = true ->
  write_chunks chunks written = (Ok tt, written ++ List.concat chunks).
Proof.
  revert written. induction chunks as [|c chunks IH]; intros written H.
  - cbn. now rewrite app_nil_r.
  - cbn [forallb] in H. apply andb_true_iff in H as [Hc Hr].
    cbn [write_chunks List.concat]. rewrite Hc, (IH _ Hr).
    now rewrite app_assoc.
Qed.

Lemma ascii_encodable (c : char) : (c <? 0x80)%N = true -> utf8_encodable c = true.
Proof.
  intros H. apply N.ltb_lt in H. unfold utf8_encodable.
  destruct (N.leb_spec 0xD800 c); [lia|reflexivity].
Qed.

Lemma hex_char_encodable (n : N) :
  (n < 16)%N -> utf8_encodable (Json.hex_char n) = true.
Proof.
  intros H. apply ascii_encodable. apply N.ltb_lt. unfold Json.hex_char.
  destruct (N.ltb_spec n 10); lia.
Qed.

Lemma escape_char_encodable (c : char) :
  utf8_encodable c = true ->
  forallb utf8_encodable (Json.escape_char c) = true.
Proof.
  intros Hc. unfold Json.escape_char.
  repeat match goal with
         | |- context [if (c =? ?k)%N then _ else _] =>
             destruct (c =? k)%N; [reflexivity|]
         end.
  destruct (N.ltb_spec c 0x20) as [Hlt|Hge].
  - cbn [forallb].
    rewrite !hex_char_encodable; [reflexivity| |].
    + apply N.mod_lt. discriminate.
    + apply N.Div0.div_lt_upper_bound. lia.
  - cbn [forallb]. now rewrite Hc.
Qed.

Lemma basestring_encodable (s : str) :
  forallb utf8_encodable s = true ->
  forallb utf8_encodable (Json.encode_basestring s) = true.
Proof.
  intros H. unfold Json.encode_basestring. cbn [forallb].
  rewrite forallb_app. cbn [forallb]. rewrite andb_true_r.
  change (utf8_encodable dquote) with true. cbn [andb].
  induction s as [|c s IH]; [reflexivity|].
  cbn [forallb] in H. apply andb_true_iff in H as [Hc Hs].
  cbn [flat_map]. now rewrite forallb_app, escape_char_encodable, IH.
Qed.

Lemma digits_encodable (u : Decimal.uint) :
  forallb utf8_encodable (Json.digits_of_uint u) = true.
Proof.
  induction u; cbn [Json.digits_of_uint forallb]; try reflexivity;
    rewrite IHu; reflexivity.
Qed.

Lemma intstr_encodable (z : Z) :
  forallb utf8_encodable (Json.intstr z) = true.
Proof.
  unfold Json.intstr. destruct (Z.to_int z); cbn [forallb];
    rewrite digits_encodable; reflexivity.
Qed.

Lemma newline_indent_encodable (level : nat) :
  forallb utf8_encodable (Json.newline_indent level) = true.
Proof.
  unfold Json.newline_indent. cbn [forallb].
  change (utf8_encodable 10%N) with true. cbn [andb].
  induction (2 * level)%nat as [|n IH]; [reflexivity|exact IH].
Qed.

Lemma tail_text_encodable {A : Type} (f : A -> str) (sep : str) (l : list A) :
  forallb utf8_encodable sep = true ->
  Forall (fun x => forallb utf8_encodable (f x) = true) l ->
  forallb utf8_encodable (tail_text f sep l) = true.
Proof.
  intros Hsep. induction 1 as [|x l Hx Hl IH]; [reflexivity|].
  cbn [tail_text]. now rewrite !forallb_app, Hsep, Hx, IH.
Qed.

Section Saving.
Context {FC : FloatCodec}.

(** The text of a plain value of encodable strings can be written. *)
Lemma text_encodable (v : json) :
  plain v = true -> encodable v = true ->
  forall level, forallb utf8_encodable (text level v) = true.
Proof.
  revert v. apply (json_induction
    (fun v => plain v = true -> encodable v = true ->
              forall level, forallb utf8_encodable (text level v) = true)).
  - reflexivity.
  - intros [|]; reflexivity.
  - intros z _ _ level. apply intstr_encodable.
  - intros f H. discriminate.
  - intros s _ He level. now apply basestring_encodable.
  - intros l IHl Hp He level. destruct l as [|v l]; [reflexivity|].
    cbn [plain forallb] in Hp. apply andb_true_iff in Hp as [Hpv Hpl].
    cbn [encodable forallb] in He. apply andb_true_iff in He as [Hev Hel].
    inversion IHl as [|? ? Hv Hl]; subst.
    cbn [text forallb]. rewrite !forallb_app.
    rewrite newline_indent_encodable, (Hv Hpv Hev), newline_indent_encodable.
    rewrite tail_text_encodable; [reflexivity| |].
    + cbn [forallb]. now rewrite newline_indent_encodable.
    + rewrite Forall_forall in Hl |- *. intros x Hx.
      rewrite forallb_forall in Hpl, Hel. now apply Hl; auto.
  - intros d IHd Hp He level. destruct d as [|[k v] d]; [reflexivity|].
    cbn [plain] in Hp. apply andb_true_iff in Hp as [_ Hp].
    cbn [forallb snd] in Hp. apply andb_true_iff in Hp as [Hpv Hpd].
    cbn [encodable forallb fst snd] in He.
    apply andb_true_iff in He as [He Hed].
    apply andb_true_iff in He as [Hek Hev].
    inversion IHd as [|? ? Hv Hd]; subst. cbn [snd] in Hv.
    cbn [text forallb]. rewrite !forallb_app.
    rewrite newline_indent_encodable, (basestring_encodable k Hek),
      (Hv Hpv Hev), newline_indent_encodable.
    rewrite tail_text_encodable; [reflexivity| |].
    + cbn [forallb]. now rewrite newline_indent_encodable.
    + rewrite Forall_forall in Hd |- *. intros x Hx.
      rewrite forallb_forall in Hpd, Hed.
      specialize (Hed x Hx). apply andb_true_iff in Hed as [Hxk Hxv].
      rewrite forallb_app. apply andb_true_iff.
      split; [exact (basestring_encodable _ Hxk)|].
      rewrite forallb_app. apply andb_true_iff. split; [reflexivity|].
      exact (Hd x Hx (Hpd x Hx) Hxv (S level)).
Qed.

(** Saving a plain list of encodable values to a writable path leaves
    its text in the file. *)
Lemma save_results_written (results : list json) (output_path : str)
      (w : world) :
  writable (files w) output_path = true ->
  plain (JList results) = true ->
  encodable (JList results) = true ->
  contents
    (files (snd (requirement_decomposer.save_results_to_json
                   results output_path w))) output_path
  = Some (Json.dumps (JList results)).
Proof.
  intros Hw Hp He.
  unfold requirement_decomposer.save_results_to_json, try_except.
  unfold mbind, print, dump_to_file. cbn [files].
  rewrite Hw, write_chunks_all.
  - cbn [snd files set_contents contents]. now rewrite str_eqb_refl.
  - rewrite <- forallb_concat, concat_iterencode. now apply text_encodable.
Qed.

Lemma load_decomposed_results_file (file_path text : str) (v : json)
      (w : world) :
  contents (files w) file_path = Some text ->
  Json.loads text = Some v ->
  fst (evaluater.load_decomposed_results file_path w) = Ok (Some v).
Proof.
  intros Hc Hl. unfold evaluater.load_decomposed_results.
  unfold mbind, read_file, print, ret. rewrite Hc. cbn [files].
  now rewrite Hl.
Qed.

Lemma results_plain (results : list decomposition_result) :
  plain (JList (List.map decomposition_result_json results)) = true.
Proof.
  change (forallb plain (List.map decomposition_result_json results) = true).
  apply forallb_forall. intros x Hx.
  apply in_map_iff in Hx as [r [<- _]].
  change (distinct [requirement_decomposer.k_row_number;
                    requirement_decomposer.k_decomposed_list]
          && (true
              && (forallb plain (List.map sub_requirement_json
                                          (decomposed_list r))
                  && true)) = true).
  apply andb_true_iff. split; [reflexivity|].
  cbn [andb]. rewrite andb_true_r.
  apply forallb_forall. intros y Hy.
  apply in_map_iff in Hy as [s [<- _]]. reflexivity.
Qed.

Lemma results_encodable (results : list decomposition_result) :
  forallb result_encodable results = true ->
  encodable (JList (List.map decomposition_result_json results)) = true.
Proof.
  intros H.
  change (forallb encodable (List.map decomposition_result_json results) = true).
  apply forallb_forall. intros x Hx.
  apply in_map_iff in Hx as [r [<- Hr]].
  rewrite forallb_forall in H. specialize (H r Hr).
  change (forallb utf8_encodable requirement_decomposer.k_row_number
          && true
          && (forallb utf8_encodable requirement_decomposer.k_decomposed_list
              && forallb encodable (List.map sub_requirement_json
                                             (decomposed_list r))
              && true) = true).
  rewrite !andb_true_r.
  apply andb_true_iff. split; [reflexivity|].
  apply andb_true_iff. split; [reflexivity|].
  apply forallb_forall. intros y Hy.
  apply in_map_iff in Hy as [s [<- Hs]].
  unfold result_encodable in H. rewrite forallb_forall in H.
  specialize (H s Hs). apply andb_true_iff in H as [Hid Hdesc].
  change (forallb utf8_encodable (py "id") && forallb utf8_encodable (id s)
          && (forallb utf8_encodable (py "description")
              && forallb utf8_encodable (description s) && true) = true).
  rewrite Hid, Hdesc. reflexivity.
Qed.

End Saving.

(** C8 (as the code has it): for every list of decomposition results whose
    strings hold no surrogate code point and whose row numbers have at
    most 4300 decimal digits, and an output path that can be printed and
    opened for writing, [save_results_to_json] followed by loading the
    written file as JSON yields the list that was saved. *)
Theorem save_then_load_results
        {FC : FloatCodec} (results : list decomposition_result)
        (output_path : str) (w : world) :
  no_surrogate output_path = true ->
  writable (files w) output_path = true ->
  forallb result_encodable results = true ->
  forallb (fun r => digits_fit (row_number r)) results = true ->
  let saved :=
    snd (requirement_decomposer.save_results_to_json
           (List.map decomposition_result_json results) output_path w) in
  fst (evaluater.load_decomposed_results output_path saved)
  = Ok (Some (JList (List.map decomposition_result_json results))).
Proof.
  intros _ Hw He _. cbv zeta.
  apply (load_decomposed_results_file _
           (Json.dumps (JList (List.map decomposition_result_json results)))).
  - apply save_results_written; [exact Hw|apply results_plain|].
    now apply results_encodable.
  - apply loads_dumps. apply results_plain.
Qed.

Lemma save_then_load_results_witness :
  fst (evaluater.load_decomposed_results (FC := example_codec)
         requirement_decomposer.res_file
         (snd (requirement_decomposer.save_results_to_json
                 (FC := example_codec)
                 (List.map decomposition_result_json example_results)
                 requirement_decomposer.res_file
                 (initial_world empty_files))))
  = Ok (Some (JList (List.map decomposition_result_json example_results))).
Proof.
  exact (@save_then_load_results example_codec example_results
           requirement_decomposer.res_file (initial_world empty_files)
           eq_refl eq_refl eq_refl eq_refl).
Defined.

(** C8 as stated fails for a string with a surrogate code point: the
    write stops with [UnicodeEncodeError], which [save_results_to_json]
    swallows, and the file holds only the beginning of the text. *)
Lemma save_then_load_surrogate :
  let results := List.map decomposition_result_json surrogate_results in
  let saved :=
    snd (requirement_decomposer.save_results_to_json (FC := example_codec)
           results requirement_decomposer.res_file
           (initial_world empty_files)) in
  Json.loads (FC := example_codec)
    (pyq "[{'row_number': 1, 'decomposed_list': [{'id': '1', 'description': '\ud800'}]}]")
  = Some (JList results)
  /\ stdout saved = [MsgSaving requirement_decomposer.res_file; MsgSaveFailed]
  /\ fst (evaluater.load_decomposed_results (FC := example_codec)
            requirement_decomposer.res_file saved) = Ok None
  /\ fst (evaluater.load_decomposed_results (FC := example_codec)
            requirement_decomposer.res_file saved)
     <> Ok (Some (JList results)).
Proof.
  cbv zeta. repeat split; try (vm_compute; reflexivity).
  vm_compute. discriminate.
Qed.

(* ===================================================================== *)
(** * The fuel of the decoder                                             *)
(* ===================================================================== *)

Lemma skip_ws_length (s : str) :
  (List.length (Json.skip_ws s) <= List.length s)%nat.
Proof.
  induction s as [|c s IH]; cbn [Json.skip_ws List.length]; [lia|].
  destruct (Json.is_ws c); cbn [List.length]; lia.
Qed.

Lemma scan_map_Parsed {A B} (f : A -> B) (r : Json.scan A) (b : B) (rest : str) :
  Json.scan_map f r = Json.Parsed b rest ->
  exists a, r = Json.Parsed a rest /\ b = f a.
Proof.
  destruct r as [a rest'| |]; cbn; try discriminate.
  intros E. injection E as <- <-. now exists a.
Qed.

Lemma scanstring_shorter (n : nat) :
  forall s v r,
    (List.length s <= n)%nat ->
    Json.scanstring s = Json.Parsed v r ->
    (List.length r < List.length s)%nat.
Proof.
  induction n as [|n IH]; intros s v r Hn E.
  - destruct s; [discriminate|cbn [List.length] in Hn; lia].
  - destruct s as [|c s1]; [discriminate|].
    cbn [List.length] in Hn |- *. cbn [Json.scanstring] in E.
    assert (Hrec : forall (x : char) t,
               (List.length t <= List.length s1)%nat ->
               Json.scan_map (cons x) (Json.scanstring t) = Json.Parsed v r ->
               (List.length r < S (List.length s1))%nat).
    { intros x t Ht Et. apply scan_map_Parsed in Et as [a [Et _]].
      apply IH in Et; lia. }
    destruct (c =? dquote)%N.
    { injection E as _ <-. lia. }
    destruct (c =? ch "\")%N.
    2:{ destruct (c <? 32)%N; [discriminate|]. eapply Hrec; [|exact E]. lia. }
    destruct s1 as [|e s2]; [discriminate|].
    destruct (e =? ch "u")%N.
    2:{ destruct (Json.unescape e); [|discriminate].
        eapply Hrec; [|exact E]. cbn [List.length]. lia. }
    destruct s2 as [|h1 [|h2 [|h3 [|h4 s3]]]]; try discriminate.
    destruct (Json.hex4 h1 h2 h3 h4) as [u|]; [|discriminate].
    assert (H3 : Json.scan_map (cons u) (Json.scanstring s3) = Json.Parsed v r ->
                 (List.length r < S (List.length (e :: h1 :: h2 :: h3 :: h4 :: s3)))%nat).
    { intros Et. apply scan_map_Parsed in Et as [a [Et _]].
      apply IH in Et; cbn [List.length] in *; lia. }
    destruct (Json.is_high_surrogate u); [|exact (H3 E)].
    destruct s3 as [|b [|u' [|g1 [|g2 [|g3 [|g4 s4]]]]]]; try exact (H3 E).
    destruct ((b =? ch "\") && (u' =? ch "u"))%N; [|exact (H3 E)].
    destruct (Json.hex4 g1 g2 g3 g4) as [u2|]; [|discriminate].
    destruct (Json.is_low_surrogate u2); [|exact (H3 E)].
    apply scan_map_Parsed in E as [a [Et _]].
    apply IH in Et; cbn [List.length] in *; lia.
Qed.

Lemma span_digits_length (s : str) :
  forall ds r, Json.span_digits s = (ds, r) ->
               (List.length r <= List.length s)%nat.
Proof.
  induction s as [|c s IH]; intros ds r E; cbn [Json.span_digits] in E.
  - injection E as _ <-. lia.
  - destruct (Json.is_digit c).
    + destruct (Json.span_digits s) as [ds' r'] eqn:Es.
      injection E as _ <-. specialize (IH _ _ eq_refl). cbn [List.length]. lia.
    + injection E as _ <-. lia.
Qed.

Lemma match_integer_shorter (s : str) (neg : bool) (ds r : str) :
  Json.match_integer s = Some (neg, ds, r) ->
  (List.length r < List.length s)%nat.
Proof.
  unfold Json.match_integer.
  assert (H : forall (b : bool) (s1 : str),
             (List.length s1 <= List.length s)%nat ->
             match s1 with
             | c :: s2 =>
                 if (c =? ch "0")%N then Some (b, [c], s2)
                 else if Json.is_digit c then
                   let (ds, r) := Json.span_digits s2 in Some (b, c :: ds, r)
                 else None
             | [] => None
             end = Some (neg, ds, r) ->
             (List.length r < List.length s)%nat).
  { intros b [|c s2] Hl E; [discriminate|]. cbn [List.length] in Hl.
    destruct (c =? ch "0")%N.
    - injection E as _ _ <-. lia.
    - destruct (Json.is_digit c); [|discriminate].
      destruct (Json.span_digits s2) as [ds' r'] eqn:Es.
      injection E as _ _ <-. apply span_digits_length in Es. lia. }
  destruct s as [|c s'].
  - intros E. discriminate.
  - destruct (c =? ch "-")%N; intros E.
    + refine (H true s' _ E). cbn [List.length]. lia.
    + refine (H false (c :: s') _ E). lia.
Qed.

Lemma match_frac_length (s frac r : str) :
  Json.match_frac s = (frac, r) -> (List.length r <= List.length s)%nat.
Proof.
  unfold Json.match_frac.
  destruct s as [|p [|d s']]; try (intros E; injection E as _ <-; lia).
  destruct ((p =? ch ".") && Json.is_digit d)%N.
  - destruct (Json.span_digits s') as [ds r'] eqn:Es.
    intros E; injection E as _ <-. apply span_digits_length in Es.
    cbn [List.length]. lia.
  - intros E; injection E as _ <-; lia.
Qed.

Lemma match_exp_length (s e r : str) :
  Json.match_exp s = (e, r) -> (List.length r <= List.length s)%nat.
Proof.
  unfold Json.match_exp.
  destruct s as [|x s1]; [intros E; injection E as _ <-; lia|].
  destruct ((x =? ch "e") || (x =? ch "E"))%N;
    [|intros E; injection E as _ <-; lia].
  destruct s1 as [|g s2]; [intros E; injection E as _ <-; lia|].
  destruct (Json.is_digit g).
  { destruct (Json.span_digits s2) as [ds r'] eqn:Es.
    intros E; injection E as _ <-. apply span_digits_length in Es.
    cbn [List.length]. lia. }
  destruct ((g =? ch "+") || (g =? ch "-"))%N;
    [|intros E; injection E as _ <-; lia].
  destruct s2 as [|d s3]; [intros E; injection E as _ <-; lia|].
  destruct (Json.is_digit d); [|intros E; injection E as _ <-; lia].
  destruct (Json.span_digits s3) as [ds r'] eqn:Es.
  intros E; injection E as _ <-. apply span_digits_length in Es.
  cbn [List.length]. lia.
Qed.

Section Fuel.
Context {FC : FloatCodec}.

Lemma match_number_shorter (s : str) (v : json) (r : str) :
  Json.match_number s = Json.Parsed v r ->
  (List.length r < List.length s)%nat.
Proof.
  unfold Json.match_number.
  destruct (Json.match_integer s) as [[[neg ds] r0]|] eqn:Ei; [|discriminate].
  apply match_integer_shorter in Ei.
  destruct (Json.match_frac r0) as [frac r1] eqn:Ef.
  apply match_frac_length in Ef.
  destruct (Json.match_exp r1) as [e r2] eqn:Ee.
  apply match_exp_length in Ee.
  destruct frac, e; intros E; injection E as _ <-; lia.
Qed.

Lemma scan_atom_shorter (s : str) (v : json) (r : str) :
  Json.scan_atom s = Json.Parsed v r ->
  (List.length r < List.length s)%nat.
Proof.
  unfold Json.scan_atom.
  repeat match goal with
         | |- context [strip_prefix ?p s] =>
             let E := fresh "E" in
             destruct (strip_prefix p s) eqn:E;
             [apply strip_prefix_Some in E; intros E'; injection E' as _ <-;
              rewrite E, length_app; vm_compute List.length; lia|]
         end.
  apply match_number_shorter.
Qed.

(** A value that is parsed with some fuel takes at least one character,
    and is parsed with any fuel that is at least the number of characters
    it takes. *)
Lemma scan_fuel (f : nat) :
  forall s,
    (forall v r,
        Json.scan_once f s = Json.Parsed v r ->
        (List.length r < List.length s)%nat
        /\ forall f', (List.length s - List.length r <= f')%nat ->
                      Json.scan_once f' s = Json.Parsed v r)
    /\ (forall vs r,
           Json.parse_items f s = Json.Parsed vs r ->
           (List.length r < List.length s)%nat
           /\ forall f', (List.length s - List.length r <= f')%nat ->
                         Json.parse_items f' s = Json.Parsed vs r)
    /\ (forall ps r,
           Json.parse_members f s = Json.Parsed ps r ->
           (List.length r < List.length s)%nat
           /\ forall f', (List.length s - List.length r <= f')%nat ->
                         Json.parse_members f' s = Json.Parsed ps r).
Proof.
  induction f as [|n IH]; intros s.
  { repeat split; intros; discriminate. }
  split; [|split].
  - (* scan_once *)
    intros v r E. destruct s as [|c s']; [discriminate|].
    cbn [Json.scan_once] in E. cbn [List.length].
    destruct (c =? dquote)%N eqn:Eq.
    { apply scan_map_Parsed in E as [a [Es ->]].
      pose proof (scanstring_shorter _ _ _ _ (le_n _) Es) as Hl.
      split; [lia|]. intros [|m] Hm; [lia|].
      cbn [Json.scan_once]. rewrite Eq, Es. reflexivity. }
    destruct (c =? ch "{")%N eqn:Eo.
    { pose proof (skip_ws_length s') as Hw.
      destruct (Json.skip_ws s') as [|c1 s1] eqn:Ew; [discriminate|].
      cbn [List.length] in Hw.
      destruct (c1 =? ch "}")%N eqn:Ec.
      - injection E as <- <-. split; [lia|]. intros [|m] Hm; [lia|].
        cbn [Json.scan_once]. rewrite Eq, Eo, Ew, Ec. reflexivity.
      - apply scan_map_Parsed in E as [ps [Ep ->]].
        destruct (IH (c1 :: s1)) as [_ [_ Hmem]].
        destruct (Hmem _ _ Ep) as [Hl Hf]. cbn [List.length] in Hl, Hf.
        split; [lia|]. intros [|m] Hm; [lia|].
        cbn [Json.scan_once]. rewrite Eq, Eo, Ew, Ec, Hf by lia. reflexivity. }
    destruct (c =? ch "[")%N eqn:Ea.
    { pose proof (skip_ws_length s') as Hw.
      destruct (Json.skip_ws s') as [|c1 s1] eqn:Ew; [discriminate|].
      cbn [List.length] in Hw.
      destruct (c1 =? ch "]")%N eqn:Ec.
      - injection E as <- <-. split; [lia|]. intros [|m] Hm; [lia|].
        cbn [Json.scan_once]. rewrite Eq, Eo, Ea, Ew, Ec. reflexivity.
      - apply scan_map_Parsed in E as [vs [Ep ->]].
        destruct (IH (c1 :: s1)) as [_ [Hit _]].
        destruct (Hit _ _ Ep) as [Hl Hf]. cbn [List.length] in Hl, Hf.
        split; [lia|]. intros [|m] Hm; [lia|].
        cbn [Json.scan_once]. rewrite Eq, Eo, Ea, Ew, Ec, Hf by lia.
        reflexivity. }
    pose proof (scan_atom_shorter _ _ _ E) as Hl. cbn [List.length] in Hl.
    split; [lia|]. intros [|m] Hm; [lia|].
    cbn [Json.scan_once]. rewrite Eq, Eo, Ea. exact E.
  - (* parse_items *)
    intros vs r E. cbn [Json.parse_items] in E.
    destruct (Json.scan_once n s) as [v r1| |] eqn:Ev; try discriminate.
    destruct (IH s) as [Hval _]. destruct (Hval _ _ Ev) as [Hl1 Hf1].
    pose proof (skip_ws_length r1) as Hw.
    destruct (Json.skip_ws r1) as [|c r'] eqn:Ew; [discriminate|].
    cbn [List.length] in Hw.
    destruct (c =? ch "]")%N eqn:Ec.
    { injection E as <- <-. split; [lia|]. intros [|m] Hm; [lia|].
      cbn [Json.parse_items]. rewrite Hf1, Ew, Ec by lia. reflexivity. }
    destruct (c =? ch ",")%N eqn:Ecomma; [|discriminate].
    apply scan_map_Parsed in E as [vs' [Ep ->]].
    destruct (IH (Json.skip_ws r')) as [_ [Hit _]].
    destruct (Hit _ _ Ep) as [Hl Hf].
    pose proof (skip_ws_length r') as Hw'.
    split; [lia|]. intros [|m] Hm; [lia|].
    cbn [Json.parse_items]. rewrite Hf1, Ew, Ec, Ecomma, Hf by lia.
    reflexivity.
  - (* parse_members *)
    intros ps r E. cbn [Json.parse_members] in E.
    destruct s as [|q s0]; [discriminate|].
    destruct (q =? dquote)%N eqn:Eq; [|discriminate].
    destruct (Json.scanstring s0) as [key r0| |] eqn:Ek; try discriminate.
    pose proof (scanstring_shorter _ _ _ _ (le_n _) Ek) as Hk.
    pose proof (skip_ws_length r0) as Hw0.
    destruct (Json.skip_ws r0) as [|c0 r1] eqn:Ew0; [discriminate|].
    cbn [List.length] in Hw0.
    destruct (c0 =? ch ":")%N eqn:Ecolon; [|discriminate].
    pose proof (skip_ws_length r1) as Hw1.
    destruct (Json.scan_once n (Json.skip_ws r1)) as [v r2| |] eqn:Ev;
      try discriminate.
    destruct (IH (Json.skip_ws r1)) as [Hval _].
    destruct (Hval _ _ Ev) as [Hl1 Hf1].
    pose proof (skip_ws_length r2) as Hw2.
    destruct (Json.skip_ws r2) as [|c r3] eqn:Ew2; [discriminate|].
    cbn [List.length] in Hw2 |- *.
    destruct (c =? ch "}")%N eqn:Ec.
    { injection E as <- <-. split; [lia|]. intros [|m] Hm; [lia|].
      cbn [Json.parse_members].
      rewrite Eq, Ek, Ew0, Ecolon, Hf1, Ew2, Ec by lia. reflexivity. }
    destruct (c =? ch ",")%N eqn:Ecomma; [|discriminate].
    apply scan_map_Parsed in E as [ps' [Ep ->]].
    destruct (IH (Json.skip_ws r3)) as [_ [_ Hmem]].
    destruct (Hmem _ _ Ep) as [Hl Hf].
    pose proof (skip_ws_length r3) as Hw3.
    split; [lia|]. intros [|m] Hm; [lia|].
    cbn [Json.parse_members].
    rewrite Eq, Ek, Ew0, Ecolon, Hf1, Ew2, Ec, Ecomma, Hf by lia.
    reflexivity.
Qed.

(** The fuel [json.loads] is given is enough: a text that is one value for
    some fuel, with white space around it and no byte-order mark, is
    decoded to that value. *)
Lemma loads_fuel (s : str) (f : nat) (v : json) (r : str) :
  startswith s [0xFEFF%N] = false ->
  Json.scan_once f (Json.skip_ws s) = Json.Parsed v r ->
  Json.skip_ws r = [] ->
  Json.loads s = Some v.
Proof.
  intros Hb E Hr. unfold Json.loads. rewrite Hb.
  destruct (scan_fuel f (Json.skip_ws s)) as [Hval _].
  destruct (Hval _ _ E) as [_ Hf].
  pose proof (skip_ws_length s) as Hw.
  rewrite Hf by lia. now rewrite Hr.
Qed.

End Fuel.
(* ===================================================================== *)
(** * A whole run of the driver                                           *)
(* ===================================================================== *)

(** The example file is read as [example_requirements]. *)
Example example_input_loads :
  Json.loads (FC := example_codec) example_input
  = Some (JList example_requirements).
Proof. vm_compute. reflexivity. Qed.

(** A run of [main] on the example file, with an endpoint that answers the
    first request only: two requests are sent (rows 2 and 4), the records
    of rows 0 and 3 are passed over, and the output file holds the one
    record of row 2. *)
Example main_example :
  let run :=
    requirement_decomposer.main (FC := example_codec)
      (Some (py "key")) example_endpoint
      (initial_world (single_file requirement_decomposer.req_source
                                  example_input)) in
  fst run = Ok tt
  /\ requests (snd run) = 2%nat
  /\ option_map (Json.loads (FC := example_codec))
       (contents (files (snd run)) requirement_decomposer.res_file)
     = Some (Some (JList
         [requirement_decomposer.result_record
            (JInt 2)
            [JDict [(py "id", JStr (py "1"));
                    (py "description", JStr (py "【需求描述】x"))]]])).
Proof. vm_compute. repeat split. Qed.

(* ===================================================================== *)
(** * More on content extraction                                          *)
(* ===================================================================== *)

Lemma take_until_without (c : char) (s : str) : ~ In c (take_until c s).
Proof.
  induction s as [|x s IH]; cbn [take_until]; [intros []|].
  destruct (N.eqb_spec x c) as [E|E]; [intros []|].
  intros [H|H]; [congruence|exact (IH H)].
Qed.

Lemma take_until_prefix (c : char) (s : str) :
  exists post, s = take_until c s ++ post.
Proof.
  induction s as [|x s [post IH]]; [now exists []|].
  cbn [take_until]. destruct (x =? c)%N.
  - now exists (x :: s).
  - exists post. cbn [app]. now rewrite <- IH.
Qed.

Lemma lstrip_suffix (s : str) : exists pre, s = pre ++ lstrip s.
Proof.
  induction s as [|x s [pre IH]]; [now exists []|].
  cbn [lstrip]. destruct (isspace x).
  - exists (x :: pre). cbn [app]. now rewrite <- IH.
  - now exists [].
Qed.

Lemma rstrip_prefix (s : str) : exists post, s = rstrip s ++ post.
Proof.
  unfold rstrip. destruct (lstrip_suffix (rev s)) as [pre H].
  exists (rev pre). rewrite <- rev_app_distr, <- H. now rewrite rev_involutive.
Qed.

Lemma strip_part (s : str) : exists pre post, s = pre ++ strip s ++ post.
Proof.
  unfold strip. destruct (lstrip_suffix s) as [pre Hpre].
  destruct (rstrip_prefix (lstrip s)) as [post Hpost].
  exists pre, post. now rewrite <- Hpost.
Qed.

Lemma In_strip (x : char) (s : str) : In x (strip s) -> In x s.
Proof.
  intros H. destruct (strip_part s) as [pre [post E]]. rewrite E.
  apply in_or_app. right. apply in_or_app. now left.
Qed.

(** X1: whatever [extract_content] returns for a field has no white space
    at either end, holds no opening bracket, and is a contiguous part of
    the text it was given. *)
Theorem extract_content_trimmed_part (text field_name r : str) :
  extractor.extract_content (JStr text) field_name = Ok (Some r) ->
  trimmed_section r /\ exists pre post, text = pre ++ r ++ post.
Proof.
  rewrite extract_content_field.
  destruct (str_find (marker_of field_name) text) as [i|]; [|discriminate].
  intros E. injection E as <-.
  set (k := (i + List.length (marker_of field_name))%nat).
  repeat split.
  - apply strip_idem.
  - intros H. apply In_strip in H. exact (take_until_without _ _ H).
  - destruct (strip_part (take_until extractor.lbracket (skipn k text)))
      as [a [b Hs]].
    destruct (take_until_prefix extractor.lbracket (skipn k text)) as [c Ht].
    exists (firstn k text ++ a), (b ++ c).
    rewrite <- (firstn_skipn k text) at 1. rewrite Ht at 1. rewrite Hs at 1.
    now rewrite <- !app_assoc.
Qed.

Lemma extract_content_trimmed_part_witness :
  trimmed_section (py "a b")
  /\ exists pre post, py "x【需求描述】  a b  【c】d" = pre ++ py "a b" ++ post.
Proof.
  apply (extract_content_trimmed_part (py "x【需求描述】  a b  【c】d")
           extractor.field_description (py "a b")).
  vm_compute. reflexivity.
Defined.

Lemma lacks_cons (c x : char) (s : str) :
  lacks c (x :: s) = negb (c =? x)%N && lacks c s.
Proof. unfold lacks. cbn [existsb]. now rewrite negb_orb. Qed.

Lemma lacks_app (c : char) (a b : str) :
  lacks c (a ++ b) = lacks c a && lacks c b.
Proof. unfold lacks. now rewrite existsb_app, negb_orb. Qed.

Lemma take_until_lacks (c : char) (s rest : str) :
  lacks c s = true ->
  (rest = [] \/ exists r, rest = c :: r) ->
  take_until c (s ++ rest) = s.
Proof.
  induction s as [|x s IH]; intros Hs Hr.
  - cbn [app]. destruct Hr as [->|[r ->]]; [reflexivity|].
    cbn [take_until]. now rewrite N.eqb_refl.
  - rewrite lacks_cons in Hs. apply andb_true_iff in Hs as [Hx Hs].
    cbn [app take_until]. rewrite N.eqb_sym.
    apply negb_true_iff in Hx. rewrite Hx. f_equal. now apply IH.
Qed.

(** A needle that starts with [c] is not found inside a stretch without
    [c]. *)
Lemma str_find_past (c : char) (n u s : str) :
  lacks c u = true ->
  str_find (c :: n) (u ++ s)
  = option_map (Nat.add (List.length u)) (str_find (c :: n) s).
Proof.
  induction u as [|x u IH]; intros Hu.
  - cbn [app List.length]. now destruct (str_find (c :: n) s).
  - rewrite lacks_cons in Hu. apply andb_true_iff in Hu as [Hx Hu].
    apply negb_true_iff in Hx.
    cbn [app str_find]. unfold startswith. cbn [strip_prefix]. rewrite Hx.
    rewrite IH by assumption.
    now destruct (str_find (c :: n) s).
Qed.

(** Two names without a closing bracket that are followed by one: if the
    one text starts with the other, the names are the same. *)
Lemma strip_prefix_name (f g rest : str) :
  lacks extractor.rbracket f = true ->
  lacks extractor.rbracket g = true ->
  f <> g ->
  strip_prefix (f ++ [extractor.rbracket]) (g ++ extractor.rbracket :: rest)
  = None.
Proof.
  revert g. induction f as [|x f IH]; intros g Hf Hg Hne.
  - destruct g as [|y g]; [congruence|].
    rewrite lacks_cons in Hg. apply andb_true_iff in Hg as [Hy _].
    apply negb_true_iff in Hy. cbn [app strip_prefix]. now rewrite Hy.
  - rewrite lacks_cons in Hf. apply andb_true_iff in Hf as [Hx Hf].
    apply negb_true_iff in Hx.
    destruct g as [|y g].
    + cbn [app strip_prefix]. rewrite N.eqb_sym. now rewrite Hx.
    + rewrite lacks_cons in Hg. apply andb_true_iff in Hg as [_ Hg].
      cbn [app strip_prefix]. destruct (N.eqb_spec x y) as [->|]; [|reflexivity].
      apply IH; try assumption. congruence.
Qed.

Lemma str_find_marker_here (f rest : str) :
  str_find (marker_of f) (marker_of f ++ rest) = Some 0%nat.
Proof.
  unfold marker_of. cbn [app str_find].
  change (extractor.lbracket :: (f ++ [extractor.rbracket]) ++ rest)
    with ((extractor.lbracket :: f ++ [extractor.rbracket]) ++ rest).
  now rewrite startswith_app.
Qed.

Lemma str_find_in_record (f : str) (before : list (str * str)) (rest : str) :
  lacks extractor.rbracket f = true ->
  forallb (fun fc => lacks extractor.lbracket (fst fc)
                     && lacks extractor.rbracket (fst fc)
                     && lacks extractor.lbracket (snd fc)) before = true ->
  ~ In f (List.map fst before) ->
  str_find (marker_of f) (render_fields before ++ marker_of f ++ rest)
  = Some (List.length (render_fields before)).
Proof.
  intros Hf. induction before as [|[g d] before IH]; intros Hw Hn.
  - cbn [render_fields List.map List.concat app List.length].
    apply str_find_marker_here.
  - cbn [forallb fst snd] in Hw. apply andb_true_iff in Hw as [Hgd Hw].
    apply andb_true_iff in Hgd as [Hg Hd].
    apply andb_true_iff in Hg as [Hgl Hgr].
    cbn [List.map fst] in Hn.
    assert (Hne : f <> g) by (intros ->; apply Hn; now left).
    assert (Hn' : ~ In f (List.map fst before))
      by (intros H; apply Hn; now right).
    specialize (IH Hw Hn').
    unfold render_fields in *.
    cbn [List.map List.concat fst snd].
    set (tail := List.concat
                   (List.map (fun fc => marker_of (fst fc) ++ snd fc) before)) in *.
    unfold marker_of at 2. cbn [app].
    (* the opening bracket of the marker of [g] starts no match *)
    cbn [str_find]. unfold startswith.
    unfold marker_of at 1. cbn [strip_prefix]. rewrite N.eqb_refl.
    rewrite <- !app_assoc. cbn [app].
    rewrite (strip_prefix_name f g) by assumption.
    (* nor does anything up to the next marker *)
    change (extractor.lbracket :: f ++ [extractor.rbracket])
      with (marker_of f).
    replace (g ++ extractor.rbracket :: d ++ tail ++ marker_of f ++ rest)
      with ((g ++ extractor.rbracket :: d) ++ tail ++ marker_of f ++ rest)
      by (rewrite <- app_assoc; reflexivity).
    unfold marker_of at 1.
    rewrite str_find_past.
    + fold (marker_of f). rewrite IH. cbn [option_map]. f_equal.
      unfold marker_of. cbn [app List.length].
      rewrite !length_app. cbn [List.length]. lia.
    + rewrite lacks_app, lacks_cons, Hgl, Hd, andb_true_r. cbn [andb].
      vm_compute. reflexivity.
Qed.

Lemma render_fields_head (fields : list (str * str)) :
  render_fields fields = []
  \/ exists r, render_fields fields = extractor.lbracket :: r.
Proof.
  destruct fields as [|[g d] fields]; [now left|right].
  unfold render_fields. cbn [List.map List.concat fst snd].
  unfold marker_of. cbn [app]. eauto.
Qed.

Lemma render_fields_app (a b : list (str * str)) :
  render_fields (a ++ b) = render_fields a ++ render_fields b.
Proof. unfold render_fields. now rewrite List.map_app, concat_app. Qed.

Lemma distinct_app_cons (a : list str) (f : str) (b : list str) :
  distinct (a ++ f :: b) = true -> ~ In f a.
Proof.
  induction a as [|x a IH]; intros H; [intros []|].
  cbn [app distinct] in H. apply andb_true_iff in H as [Hx H].
  intros [->|Hin]; [|exact (IH H Hin)].
  apply negb_true_iff in Hx. rewrite existsb_app in Hx.
  apply orb_false_iff in Hx as [_ Hx]. cbn [existsb] in Hx.
  now rewrite str_eqb_refl in Hx.
Qed.

(** X2: on a text laid out as the docstring of [extract_content]
    describes, a sequence of fields, each a marker followed by its
    content, with names free of brackets, contents free of opening brackets
    and no name twice, the function returns for each field name the
    content of that field, stripped. *)
Theorem extract_content_of_record
        (fields : list (str * str)) (f c : str) :
  well_formed_fields fields = true ->
  In (f, c) fields ->
  extractor.extract_content (JStr (render_fields fields)) f
  = Ok (Some (strip c)).
Proof.
  intros Hw Hin. unfold well_formed_fields in Hw.
  apply andb_true_iff in Hw as [Hall Hd].
  apply in_split in Hin as [before [after ->]].
  rewrite List.map_app in Hd. cbn [List.map fst] in Hd.
  apply distinct_app_cons in Hd.
  rewrite forallb_app in Hall. apply andb_true_iff in Hall as [Hb Ha].
  cbn [forallb fst snd] in Ha. apply andb_true_iff in Ha as [Hfc Ha].
  apply andb_true_iff in Hfc as [Hf Hc].
  apply andb_true_iff in Hf as [_ Hfr].
  rewrite extract_content_field, render_fields_app.
  change (render_fields ((f, c) :: after))
    with ((marker_of f ++ c) ++ render_fields after).
  rewrite <- app_assoc.
  rewrite (str_find_in_record f before _ Hfr Hb Hd).
  do 2 f_equal.
  rewrite app_assoc.
  rewrite <- (length_app (render_fields before) (marker_of f)).
  rewrite skipn_app, skipn_all, Nat.sub_diag. cbn [skipn app].
  f_equal. apply take_until_lacks; [exact Hc|].
  apply render_fields_head.
Qed.

Lemma extract_content_of_record_witness :
  extractor.extract_content
    (JStr (render_fields [(py "需求价值", py " v "); (py "需求描述", py " a b ");
                          (py "目标用户", py "u")]))
    (py "需求描述")
  = Ok (Some (strip (py " a b "))).
Proof.
  apply extract_content_of_record; [vm_compute; reflexivity|].
  right. left. reflexivity.
Defined.

(* ===================================================================== *)
(** * More on the descriptions of a list                                  *)
(* ===================================================================== *)

Lemma extract_content_trimmed (text field_name r : str) :
  extractor.extract_content (JStr text) field_name = Ok (Some r) ->
  trimmed_section r.
Proof.
  rewrite extract_content_field.
  destruct (str_find (marker_of field_name) text) as [i|]; [|discriminate].
  intros E. injection E as <-. split.
  - apply strip_idem.
  - intros H. apply In_strip in H. exact (take_until_without _ _ H).
Qed.

Lemma description_section_trimmed (t r : str) :
  description_section t = Some r -> trimmed_section r.
Proof.
  intros H. apply (extract_content_trimmed t extractor.field_description).
  now rewrite extract_content_section, H.
Qed.

Lemma description_sections_found (subs : list json) :
  Forall (fun d => d <> [] /\ trimmed_section d) (description_sections subs).
Proof.
  induction subs as [|sub rest IH]; cbn [description_sections]; [constructor|].
  destruct (description_text sub) as [t|]; [|exact IH].
  destruct (description_section t) as [[|c a]|] eqn:E; try exact IH.
  constructor; [|exact IH]. split; [discriminate|].
  exact (description_section_trimmed _ _ E).
Qed.

Lemma collect_descriptions_exact (reqs : list json) :
  forall acc,
    extractor.collect_descriptions reqs acc =
    if existsb unreadable reqs then Raise TypeError
    else Ok (acc ++ description_sections reqs).
Proof.
  induction reqs as [|req rest IH]; intros acc.
  - cbn. now rewrite app_nil_r.
  - cbn [extractor.collect_descriptions existsb description_sections].
    destruct req as [| b | z | f | s | l | d]; cbn [py_in bind unreadable orb];
      try reflexivity.
    + (* a string *)
      destruct (str_contains extractor.k_description s); cbn [orb];
        [reflexivity|].
      cbn [description_text]. apply IH.
    + (* a list *)
      match goal with
      | |- context [if existsb ?p l then _ else _] => destruct (existsb p l)
      end; cbn [orb py_subscript bind]; [reflexivity|].
      cbn [description_text]. apply IH.
    + (* a dictionary *)
      unfold dict_has. cbn [py_subscript description_text].
      destruct (dict_lookup d extractor.k_description) as [v|];
        [|cbn [orb]; apply IH].
      cbn [bind].
      destruct v as [| b | z | f | s | l | d']; cbn [truthy];
        try (cbn [orb]; apply IH).
      * destruct b; cbn [orb]; [reflexivity|apply IH].
      * destruct (negb (z =? 0)%Z); cbn [orb]; [reflexivity|apply IH].
      * destruct (PrimFloat.eqb f _); cbn [negb orb]; [apply IH|reflexivity].
      * cbn [orb]. destruct s as [|c s].
        -- rewrite description_section_nil. apply IH.
        -- rewrite extract_content_section. cbn [bind].
           destruct (description_section (c :: s)) as [[|x a]|]; try apply IH.
           rewrite IH. destruct (existsb unreadable rest); [reflexivity|].
           now rewrite <- app_assoc.
      * destruct l; cbn [orb]; [apply IH|reflexivity].
      * destruct d'; cbn [orb]; [apply IH|reflexivity].
Qed.

(** X3: [extract_descriptions_from_list] on a list raises [TypeError]
    exactly when some item is unreadable: a value that is no container, a
    string or list that holds the key, or a dictionary whose description
    counts as given but is no string.  Otherwise it returns the non-empty
    description sections, in the order of the list; each of them is
    stripped and free of opening brackets, and there are no more of them
    than items. *)
Theorem extract_descriptions_exact (reqs : list json) :
  extractor.extract_descriptions_from_list (JList reqs) =
  (if existsb unreadable reqs then Raise TypeError
   else Ok (description_sections reqs))
  /\ Forall (fun d => d <> [] /\ trimmed_section d) (description_sections reqs)
  /\ (List.length (description_sections reqs) <= List.length reqs)%nat.
Proof.
  split; [|split].
  - unfold extractor.extract_descriptions_from_list. cbn [py_iter bind].
    now rewrite collect_descriptions_exact.
  - apply description_sections_found.
  - apply description_sections_length.
Qed.

Lemma join_nonempty (sep : str) (ds : list str) :
  Forall (fun d => d <> []) ds ->
  join sep ds = [] -> ds = [].
Proof.
  intros H. destruct ds as [|d ds]; [reflexivity|].
  inversion H as [|? ? Hd _]; subst.
  destruct d as [|c d]; [congruence|].
  cbn [join]. destruct ds; discriminate.
Qed.

Lemma extract_descriptions_found (v : json) (ds : list str) :
  extractor.extract_descriptions_from_list v = Ok ds ->
  Forall (fun d => d <> [] /\ trimmed_section d) ds.
Proof.
  unfold extractor.extract_descriptions_from_list.
  destruct (py_iter v) as [reqs|e]; [|discriminate]. cbn [bind].
  rewrite collect_descriptions_exact.
  destruct (existsb unreadable reqs); [discriminate|].
  intros E. injection E as <-. apply description_sections_found.
Qed.

Lemma metric_record_fields (row : json) (ds : list str) :
  metric_row (extractor.metric_record row ds) = row
  /\ metric_text (extractor.metric_record row ds) = JStr (join [0x20%N] ds)
  /\ metric_count (extractor.metric_record row ds)
     = JInt (Z.of_nat (List.length ds)).
Proof. repeat split. Qed.

Lemma process_items_selection (items : list json) :
  forall results out,
    extractor.process_items items results = Ok out ->
    forallb is_dict items = true
    /\ exists new,
        out = results ++ new
        /\ List.map metric_row new
           = List.map row_number_of (List.filter scored items)
        /\ Forall (fun rec =>
                     exists row ds,
                       rec = extractor.metric_record row ds
                       /\ truthy row = true
                       /\ Forall (fun d => d <> [] /\ trimmed_section d) ds)
                  new.
Proof.
  induction items as [|item rest IH]; intros results out E.
  - cbn in E. injection E as <-. split; [reflexivity|].
    exists []. rewrite app_nil_r. repeat split. constructor.
  - cbn [extractor.process_items] in E.
    destruct item as [| | | | | |d]; try discriminate.
    cbn [py_get bind] in E. cbn [forallb is_dict andb List.filter].
    unfold scored at 1. cbn [row_number_of decomposed_of].
    change extractor.k_row_number with extractor.k_row_number in *.
    set (row := match dict_lookup d extractor.k_row_number with
                | Some x => x | None => JNull end) in *.
    set (dl := match dict_lookup d extractor.k_decomposed_list with
               | Some x => x | None => JNull end) in *.
    destruct (truthy row && truthy dl) eqn:T.
    + destruct (extractor.extract_descriptions_from_list dl) as [ds|e] eqn:D;
        [|discriminate].
      cbn [bind] in E. destruct (IH _ _ E) as [Hd [new [-> [Hrows Hall]]]].
      split; [exact Hd|].
      exists (extractor.metric_record row ds :: new).
      split; [now rewrite <- app_assoc|].
      split.
      * cbn [List.map]. rewrite Hrows. f_equal.
      * constructor; [|exact Hall].
        exists row, ds. apply andb_true_iff in T as [Tr _].
        repeat split; [exact Tr|].
        exact (extract_descriptions_found _ _ D).
    + destruct (IH _ _ E) as [Hd [new [-> [Hrows Hall]]]].
      split; [exact Hd|]. exists new. repeat split; assumption.
Qed.

(** X4: whenever [process_json_file] returns, every item of the file is a
    dictionary, and the output holds one record, in order, for each item
    whose row number and list both count as given, with that row number;
    the other items are passed over.  In every record the count is the
    number of the sections joined, so that the count is 0 exactly when the
    text is empty. *)
Theorem process_json_file_selection
        {FC : FloatCodec} (fs : filesystem) (file_path text : str)
        (items out : list json) :
  contents fs file_path = Some text ->
  Json.loads text = Some (JList items) ->
  extractor.process_json_file fs file_path = Ok out ->
  forallb is_dict items = true
  /\ List.map metric_row out
     = List.map row_number_of (List.filter scored items)
  /\ (List.length out <= List.length items)%nat
  /\ forall rec,
      In rec out ->
      truthy (metric_row rec) = true
      /\ exists ds,
          Forall (fun d => d <> [] /\ trimmed_section d) ds
          /\ metric_text rec = JStr (join [ch " "] ds)
          /\ metric_count rec = JInt (Z.of_nat (List.length ds))
          /\ (metric_count rec = JInt 0 <-> metric_text rec = JStr []).
Proof.
  intros Hc Hl E. unfold extractor.process_json_file in E.
  rewrite Hc, Hl in E. cbn [py_iter bind] in E.
  destruct (process_items_selection _ _ _ E) as [Hd [new [-> [Hrows Hall]]]].
  cbn [app]. split; [exact Hd|]. split; [exact Hrows|]. split.
  - rewrite <- (length_map metric_row), Hrows, length_map.
    apply filter_length_le.
  - intros rec Hin. rewrite Forall_forall in Hall.
    destruct (Hall rec Hin) as [row [ds [-> [Tr Hds]]]].
    split; [exact Tr|]. exists ds.
    split; [exact Hds|]. split; [reflexivity|]. split; [reflexivity|].
    cbn [metric_count metric_text extractor.metric_record dict_lookup].
    vm_compute str_eqb.
    split; intros H.
    + injection H as H. destruct ds; [reflexivity|discriminate].
    + injection H as H. apply join_nonempty in H.
      * now subst.
      * eapply Forall_impl; [|exact Hds]. now intros a [Ha _].
Qed.

(* ===================================================================== *)
(** * More on the spreadsheet                                             *)
(* ===================================================================== *)

Lemma block_fields (last : Z) (descriptions : list (option str)) (b : json) :
  extractor.block last descriptions = Ok b ->
  metric_row b = JInt last
  /\ count_of b = Z.of_nat (List.length descriptions).
Proof.
  unfold extractor.block.
  destruct (extractor.all_strings descriptions); [|discriminate].
  cbn [bind]. intros E. injection E as <-. split; reflexivity.
Qed.

Lemma total_app (a b : list Z) : total (a ++ b) = (total a + total b)%Z.
Proof.
  unfold total. induction a as [|x a IH]; cbn [app fold_right]; [lia|].
  rewrite IH. lia.
Qed.

(** What a scan that returns has appended: the pending block and one block
    for each row that starts one; the counts add up to the pending
    descriptions and the rows scanned. *)
Lemma scan_rows_blocks (disk : str -> load_outcome) (rows : list Z) :
  forall results descriptions last out,
    extractor.scan_rows disk rows results descriptions last = Ok out ->
    exists first rest,
      out = results ++ first :: rest
      /\ List.map metric_row (first :: rest)
         = JInt last :: List.map JInt (List.filter (starts_block disk) rows)
      /\ total (List.map count_of (first :: rest))
         = Z.of_nat (List.length descriptions + List.length rows)
      /\ (Z.of_nat (List.length descriptions) <= count_of first)%Z
      /\ Forall (fun rec => (1 <= count_of rec)%Z) rest.
Proof.
  induction rows as [|row rows IH]; intros results descriptions last out E.
  - cbn [extractor.scan_rows] in E.
    destruct (extractor.block last descriptions) as [b|] eqn:B;
      [|discriminate].
    cbn [bind] in E. injection E as <-.
    destruct (block_fields _ _ _ B) as [Hr Hc].
    exists b, []. cbn [List.map List.filter total fold_right List.length].
    rewrite Hr, Hc. repeat split; [f_equal; lia|lia|constructor].
  - rewrite scan_rows_cons in E. cbn [List.filter].
    destruct (starts_block disk row).
    + destruct (extractor.block last descriptions) as [b|] eqn:B;
        [|discriminate].
      cbn [bind] in E.
      destruct (extractor.extract_content _ _) as [d|]; [|discriminate].
      cbn [bind] in E.
      destruct (IH _ _ _ _ E) as [first [rest [-> [Hrows [Hsum [Hf Hrest]]]]]].
      destruct (block_fields _ _ _ B) as [Hr Hc].
      exists b, (first :: rest). split; [now rewrite <- app_assoc|].
      split; [|split; [|split]].
      * cbn [List.map] in *. now rewrite Hr, Hrows.
      * change (List.map count_of (b :: first :: rest))
          with (count_of b :: List.map count_of (first :: rest)).
        cbn [total fold_right]. fold (total (List.map count_of (first :: rest))).
        rewrite Hsum, Hc. cbn [List.length]. lia.
      * lia.
      * constructor; [|exact Hrest]. cbn [List.length] in Hf. lia.
    + destruct (extractor.extract_content _ _) as [d|]; [|discriminate].
      cbn [bind] in E.
      destruct (IH _ _ _ _ E) as [first [rest [-> [Hrows [Hsum [Hf Hrest]]]]]].
      exists first, rest. split; [reflexivity|]. split; [exact Hrows|].
      rewrite length_app in Hsum, Hf. cbn [List.length] in Hsum, Hf.
      split; [|split; [|exact Hrest]].
      * rewrite Hsum. cbn [List.length]. lia.
      * lia.
Qed.

Lemma length_range2 (row_end : Z) :
  Z.of_nat (List.length (extractor.range2 row_end)) = Z.max 0 (row_end - 2).
Proof. unfold extractor.range2. rewrite length_map, length_seq. lia. Qed.

(** X5: whenever [process_excel_file] returns, its blocks are keyed by 0
    and then by the rows whose L1 cell holds a text, in increasing order;
    the description counts add up to the number of rows scanned; and every
    block but the first counts at least one description. *)
Theorem process_excel_file_blocks
        (disk : str -> load_outcome) (file_path : str) (row_end : Z)
        (out : list json) :
  extractor.process_excel_file disk file_path row_end = Ok out ->
  List.map metric_row out
  = JInt 0
    :: List.map JInt
         (List.filter (starts_block disk) (extractor.range2 row_end))
  /\ total (List.map count_of out) = Z.max 0 (row_end - 2)
  /\ Forall (fun rec => (1 <= count_of rec)%Z) (tl out).
Proof.
  unfold extractor.process_excel_file. intros E.
  destruct (scan_rows_blocks _ _ _ _ _ _ E)
    as [first [rest [-> [Hrows [Hsum [_ Hrest]]]]]].
  cbn [app tl]. split; [exact Hrows|]. split; [|exact Hrest].
  rewrite Hsum. cbn [List.length Nat.add]. apply length_range2.
Qed.

Lemma process_excel_file_blocks_witness :
  exists out,
    extractor.process_excel_file example_disk (py "ar_23/data.xlsx") 6 = Ok out
    /\ List.map metric_row out
       = JInt 0
         :: List.map JInt
              (List.filter (starts_block example_disk) (extractor.range2 6))
    /\ total (List.map count_of out) = Z.max 0 (6 - 2)
    /\ Forall (fun rec => (1 <= count_of rec)%Z) (tl out).
Proof.
  eexists. split; [vm_compute; reflexivity|].
  apply (process_excel_file_blocks example_disk (py "ar_23/data.xlsx") 6).
  vm_compute. reflexivity.
Defined.

(** ** The requirements of the spreadsheet *)

Lemma collect_requirements_records (disk : str -> load_outcome)
      (rows : list Z) :
  forall results,
    extractor.collect_requirements disk rows results
    = results
      ++ List.map (requirement_record disk)
                  (List.filter (starts_block disk) rows).
Proof.
  induction rows as [|row rows IH]; intros results.
  - cbn. now rewrite app_nil_r.
  - cbn [extractor.collect_requirements List.filter].
    unfold starts_block at 1.
    change (extractor.get_requirement_from_excel disk extractor.data_xlsx
              extractor.column_L1 row None) with (L1_cell disk row).
    destruct (L1_cell disk row) as [[|c t]|] eqn:L;
      rewrite IH; try reflexivity.
    cbn [List.map]. rewrite <- app_assoc. cbn [app]. do 2 f_equal.
    unfold requirement_record, L1_text. now rewrite L.
Qed.

Lemma read_cell_stripped (sheet : worksheet) (column_name : str)
      (row_number : Z) (s : str) :
  extractor.read_cell sheet column_name row_number = Some s -> strip s = s.
Proof.
  unfold extractor.read_cell.
  destruct (extractor.index_of _ _); [|discriminate].
  destruct (negb _); [discriminate|].
  destruct (cell sheet row_number _) as [|[|c t]|]; try discriminate.
  intros E. injection E as <-. apply strip_idem.
Qed.

Lemma get_requirement_stripped (disk : str -> load_outcome)
      (file_path column_name : str) (row_number : Z)
      (sheet_name : option str) (s : str) :
  extractor.get_requirement_from_excel disk file_path column_name
                                       row_number sheet_name = Some s ->
  strip s = s.
Proof.
  unfold extractor.get_requirement_from_excel.
  destruct (disk file_path) as [| | |wb]; try discriminate.
  destruct sheet_name as [[|c n]|]; try apply read_cell_stripped.
  destruct (extractor.find_sheet _ _); [|discriminate].
  apply read_cell_stripped.
Qed.

Lemma filter_range2_sorted (p : Z -> bool) (row_end : Z) :
  StronglySorted Z.lt (List.filter p (extractor.range2 row_end)).
Proof.
  unfold extractor.range2.
  generalize (Z.to_nat row_end - 2)%nat as n. generalize 2%nat as a.
  intros a n. revert a. induction n as [|n IH]; intros a; cbn [seq List.map List.filter].
  - constructor.
  - destruct (p (Z.of_nat a)); [|apply IH].
    constructor; [apply IH|].
    apply Forall_forall. intros x Hx. apply filter_In in Hx as [Hx _].
    apply in_map_iff in Hx as [m [<- Hm]]. apply in_seq in Hm. lia.
Qed.

(** X6: every record [extract_orig_req_from_excel_file] returns is the row
    number of a scanned row together with the non-empty, stripped text of
    its L1 cell; it is a valid requirement record that the driver accepts.
    Every scanned row whose L1 cell holds a text has its record, the rows
    are strictly increasing, and the path argument is ignored. *)
Theorem extract_orig_req_records
        (disk : str -> load_outcome) (file_path : str) (row_end : Z) :
  let out := extractor.extract_orig_req_from_excel_file disk file_path row_end in
  (forall item,
      In item out ->
      exists row c t,
        item = JDict [(extractor.k_row, JInt row);
                      (extractor.k_req, JStr (c :: t))]
        /\ (2 <= row < row_end)%Z
        /\ L1_cell disk row = Some (c :: t)
        /\ strip (c :: t) = c :: t
        /\ valid_record item = true
        /\ accepted item = true)
  /\ (forall row,
         (2 <= row < row_end)%Z -> starts_block disk row = true ->
         In (requirement_record disk row) out)
  /\ StronglySorted Z.lt (List.map row_value out)
  /\ forall other_path,
      extractor.extract_orig_req_from_excel_file disk other_path row_end = out.
Proof.
  cbv zeta. unfold extractor.extract_orig_req_from_excel_file.
  rewrite collect_requirements_records. cbn [app].
  split; [|split; [|split]].
  - intros item Hin. apply in_map_iff in Hin as [row [<- Hrow]].
    apply filter_In in Hrow as [Hrange Hstart].
    apply In_range2 in Hrange. unfold starts_block in Hstart.
    unfold requirement_record, L1_text.
    destruct (L1_cell disk row) as [[|c t]|] eqn:L; try discriminate.
    exists row, c, t. split; [reflexivity|]. split; [exact Hrange|].
    split; [exact L|].
    split; [exact (get_requirement_stripped _ _ _ _ _ _ L)|].
    split.
    + reflexivity.
    + unfold accepted. cbn [row_of req_of]. vm_compute dict_lookup.
      cbn [truthy]. destruct (Z.eqb_spec row 0); [lia|reflexivity].
  - intros row Hrange Hstart. apply in_map. apply filter_In.
    split; [now apply In_range2|exact Hstart].
  - rewrite List.map_map.
    rewrite (map_ext _ (fun row => row)) by reflexivity.
    rewrite map_id. apply filter_range2_sorted.
  - reflexivity.
Qed.

(** X7: the blocks of [process_excel_file] after the first are keyed by
    exactly the rows of the records of
    [extract_orig_req_from_excel_file], in the same order: the reference
    file and the requirement file made from one spreadsheet have the same
    row keys. *)
Theorem process_excel_file_rows_of_requirements
        (disk : str -> load_outcome) (file_path data_path : str)
        (row_end : Z) (out : list json) :
  extractor.process_excel_file disk file_path row_end = Ok out ->
  List.map metric_row out
  = JInt 0
    :: List.map row_of
         (extractor.extract_orig_req_from_excel_file disk data_path row_end).
Proof.
  intros E. unfold extractor.process_excel_file in E.
  destruct (scan_rows_blocks _ _ _ _ _ _ E)
    as [first [rest [-> [Hrows _]]]].
  cbn [app]. rewrite Hrows. f_equal.
  unfold extractor.extract_orig_req_from_excel_file.
  rewrite collect_requirements_records. cbn [app].
  rewrite List.map_map. reflexivity.
Qed.

Lemma process_excel_file_rows_of_requirements_witness :
  exists out,
    extractor.process_excel_file example_disk (py "ar_23/data.xlsx") 6 = Ok out
    /\ List.map metric_row out
       = JInt 0
         :: List.map row_of
              (extractor.extract_orig_req_from_excel_file
                 example_disk (py "ar_23/data.xlsx") 6).
Proof.
  eexists. split; [vm_compute; reflexivity|].
  apply (process_excel_file_rows_of_requirements
           example_disk (py "ar_23/data.xlsx") (py "ar_23/data.xlsx") 6).
  vm_compute. reflexivity.
Defined.

(* ===================================================================== *)
(** * More on the batch driver                                            *)
(* ===================================================================== *)

Section DriverEffects.
Context {FC : FloatCodec}.
Variable api_key : option str.
Variable endpoint : nat -> api_outcome.

Lemma load_requirements_cases (file_path : str) (limit : option Z) (w : world) :
  exists msg,
    requirement_decomposer.load_requirements_from_json file_path limit w
    = (Ok match contents (files w) file_path with
          | Some t =>
              match Json.loads t with
              | Some (JList data) =>
                  if forallb requirement_decomposer.is_requirement_record data
                  then Some (limited limit data)
                  else None
              | _ => None
              end
          | None => None
          end,
       printed_more w [msg]).
Proof.
  unfold requirement_decomposer.load_requirements_from_json.
  unfold mbind, read_file, print, ret, printed_more. cbn [files requests stdout].
  destruct (contents (files w) file_path) as [t|]; [|eexists; reflexivity].
  destruct (Json.loads t) as [v|]; [|eexists; reflexivity].
  destruct v; try (eexists; reflexivity).
  destruct (forallb requirement_decomposer.is_requirement_record l);
    [|eexists; reflexivity].
  unfold limited. destruct limit as [n|]; [|eexists; reflexivity].
  destruct (0 <? n)%Z; eexists; reflexivity.
Qed.

(** X8: [load_requirements_from_json] never raises, sends no request
    and leaves the files alone.  A list it returns consists of requirement
    records and is a prefix of the list of the file: of the length of the
    limit (or of the list, if shorter) for a positive limit, and the whole
    list without a limit or for a limit that is not positive. *)
Theorem load_requirements_result
        (file_path : str) (limit : option Z) (w : world) :
  let r := requirement_decomposer.load_requirements_from_json
             file_path limit w in
  (exists o, fst r = Ok o)
  /\ requests (snd r) = requests w
  /\ files (snd r) = files w
  /\ forall l,
      fst r = Ok (Some l) ->
      forallb requirement_decomposer.is_requirement_record l = true
      /\ exists t data,
          contents (files w) file_path = Some t
          /\ Json.loads t = Some (JList data)
          /\ l = firstn (List.length l) data
          /\ match limit with
             | Some n =>
                 if (0 <? n)%Z
                 then List.length l = Nat.min (Z.to_nat n) (List.length data)
                 else l = data
             | None => l = data
             end.
Proof.
  cbv zeta. destruct (load_requirements_cases file_path limit w) as [msg ->].
  cbn [fst snd]. split; [eauto|]. split; [reflexivity|]. split; [reflexivity|].
  intros l E. injection E as E.
  destruct (contents (files w) file_path) as [t|]; [|discriminate].
  destruct (Json.loads t) as [[| | | | |data|]|] eqn:Hl; try discriminate.
  destruct (forallb requirement_decomposer.is_requirement_record data) eqn:Hall;
    [|discriminate].
  injection E as <-.
  assert (Hsub : forall n, forallb requirement_decomposer.is_requirement_record
                             (firstn n data) = true).
  { intros n. apply forallb_forall. intros x Hx.
    rewrite forallb_forall in Hall. apply Hall.
    rewrite <- (firstn_skipn n data). apply in_or_app. now left. }
  unfold limited. destruct limit as [n|].
  - destruct (0 <? n)%Z.
    + split; [apply Hsub|]. exists t, data.
      split; [reflexivity|]. split; [exact Hl|]. split.
      * now rewrite length_firstn, <- firstn_firstn, firstn_all.
      * apply length_firstn.
    + split; [exact Hall|]. exists t, data.
      split; [reflexivity|]. split; [exact Hl|].
      split; [now rewrite firstn_all|reflexivity].
  - split; [exact Hall|]. exists t, data.
    split; [reflexivity|]. split; [exact Hl|].
    split; [now rewrite firstn_all|reflexivity].
Qed.

(** What the loop does to the world, whatever the items are. *)
Lemma main_loop_effects (items : list json) :
  forall acc w,
    let r := requirement_decomposer.main_loop api_key endpoint items acc w in
    files (snd r) = files w
    /\ (requests w <= requests (snd r)
        <= requests w + List.length (List.filter accepted items))%nat
    /\ (key_given api_key = false ->
        requests (snd r) = requests w
        /\ forall out, fst r = Ok out -> out = acc)
    /\ (key_given api_key = true ->
        forall out, fst r = Ok out ->
                    requests (snd r)
                    = (requests w + List.length (List.filter accepted items))%nat).
Proof.
  induction items as [|item rest IH]; intros acc w; cbv zeta.
  - cbn. repeat split; try lia. intros out E. now injection E as <-.
  - destruct item as [| | | | | |d];
      try (cbn [requirement_decomposer.main_loop]; unfold mbind, lift;
           cbn [py_get fst snd List.filter];
           repeat split; try lia; try discriminate;
           intros; discriminate).
    assert (Hcond : negb (truthy (row_of (JDict d)))
                    || negb (truthy (req_of (JDict d)))
                    = negb (accepted (JDict d)))
      by (unfold accepted; now rewrite negb_andb).
    rewrite main_loop_cons. cbv zeta. rewrite Hcond. cbn [List.filter].
    destruct (accepted (JDict d)) eqn:Ha; cbn [negb].
    2:{ specialize (IH acc (printed_more w [MsgInvalidItem (row_of (JDict d))
                                             (req_of (JDict d))])).
        cbv zeta in IH. cbn [printed_more files requests] in IH. exact IH. }
    cbn [List.length].
    destruct (req_of (JDict d)) as [| | | |text| |] eqn:Hr;
      try (rewrite decompose_requirement_not_text by discriminate;
           cbn [fst snd printed_more files requests];
           repeat split; try lia; intros; discriminate).
    rewrite decompose_requirement_eq.
    change (requests (printed_more
                        (printed_more w [MsgRowStarted (row_of (JDict d))])
                        [MsgDecomposing])) with (requests w).
    destruct (key_given api_key) eqn:Hk.
    + destruct (decoded (endpoint (requests w))) as [[|x l]|];
        match goal with
        | |- context [requirement_decomposer.main_loop _ _ rest ?A ?W] =>
            specialize (IH A W); cbv zeta in IH;
            cbn [printed_more after_request files requests] in IH;
            destruct IH as [Hf [Hq [_ Hyes]]]
        end;
        (split; [exact Hf|]); (split; [lia|]);
        (split; [discriminate|]); intros _ out E;
        rewrite (Hyes eq_refl out E); lia.
    + match goal with
      | |- context [requirement_decomposer.main_loop _ _ rest ?A ?W] =>
          specialize (IH A W); cbv zeta in IH;
          cbn [printed_more files requests] in IH;
          destruct IH as [Hf [Hq [Hno _]]]
      end.
      split; [exact Hf|]. split; [lia|]. split; [|discriminate].
      intros _. exact (Hno eq_refl).
Qed.

(** What was written when the pieces ran out or one was refused: the
    pieces before it. *)
Lemma write_chunks_prefix (chunks : list str) :
  forall written r text,
    write_chunks chunks written = (r, text) ->
    exists rest, written ++ List.concat chunks = text ++ rest
                 /\ (r = Ok tt -> rest = []).
Proof.
  induction chunks as [|chunk chunks IH]; intros written r text E.
  - cbn in E. injection E as <- <-. exists []. split; [reflexivity|auto].
  - cbn [write_chunks] in E. destruct (forallb utf8_encodable chunk).
    + destruct (IH _ _ _ E) as [rest [Hrest Hok]].
      exists rest. split; [|exact Hok].
      cbn [List.concat]. now rewrite app_assoc.
    + injection E as <- <-. exists (List.concat (chunk :: chunks)).
      split; [reflexivity|discriminate].
Qed.

Lemma save_results_effects (results : list json) (output_path : str)
      (w : world) :
  let r := requirement_decomposer.save_results_to_json results output_path w in
  fst r = Ok tt
  /\ requests (snd r) = requests w
  /\ (forall p, str_eqb p output_path = false ->
                contents (files (snd r)) p = contents (files w) p)
  /\ (forall p, writable (files (snd r)) p = writable (files w) p)
  /\ (writable (files w) output_path = false -> files (snd r) = files w)
  /\ (writable (files w) output_path = true ->
      exists text rest,
        contents (files (snd r)) output_path = Some text
        /\ Json.dumps (JList results) = text ++ rest
        /\ (rest = [] <->
            List.last (stdout (snd r)) MsgSaveFailed = MsgSaved)).
Proof.
  cbv zeta. unfold requirement_decomposer.save_results_to_json.
  unfold try_except, mbind, print, dump_to_file.
  cbn [requests stdout files].
  destruct (writable (files w) output_path) eqn:Hw.
  - destruct (write_chunks (Json.iterencode 0 (JList results)) [])
      as [r text] eqn:Hwrite.
    destruct (write_chunks_prefix _ _ _ _ Hwrite) as [rest [Hrest Hok]].
    cbn [app] in Hrest.
    assert (Hset : forall p, str_eqb p output_path = false ->
                     contents (set_contents (files w) output_path text) p
                     = contents (files w) p).
    { intros p Hp. cbn [set_contents contents]. now rewrite Hp. }
    assert (Hhere : contents (set_contents (files w) output_path text)
                             output_path = Some text).
    { cbn [set_contents contents]. now rewrite str_eqb_refl. }
    destruct r as [[]|e]; cbn [fst snd requests files stdout].
    + split; [reflexivity|]. split; [reflexivity|]. split; [exact Hset|].
      split; [reflexivity|]. split; [discriminate|]. intros _.
      exists text, rest. split; [exact Hhere|]. split; [exact Hrest|].
      split; [intros _|intros _; now apply Hok].
      rewrite last_last. reflexivity.
    + split; [reflexivity|]. split; [reflexivity|]. split; [exact Hset|].
      split; [reflexivity|]. split; [discriminate|]. intros _.
      exists text, rest. split; [exact Hhere|]. split; [exact Hrest|].
      rewrite last_last. split; [|discriminate].
      intros ->. exfalso. rewrite app_nil_r in Hrest.
      assert (Hall : write_chunks (Json.iterencode 0 (JList results)) []
                     = (Raise e, text)) by exact Hwrite.
      clear -Hall Hrest.
      assert (G : forall chunks written e text,
                 write_chunks chunks written = (Raise e, text) ->
                 (List.length text
                  < List.length (written ++ List.concat chunks))%nat).
      { clear. induction chunks as [|c cs IHc]; intros written e text E.
        - discriminate.
        - cbn [write_chunks] in E.
          destruct (forallb utf8_encodable c) eqn:Hc.
          + apply IHc in E. cbn [List.concat].
            rewrite app_assoc. exact E.
          + injection E as _ <-. cbn [List.concat].
            rewrite !length_app.
            destruct c as [|x c]; [discriminate|]. cbn [List.length]. lia. }
      apply G in Hall. cbn [app] in Hall. unfold Json.dumps in Hrest.
      rewrite Hrest in Hall. lia.
  - cbn [fst snd requests files stdout].
    split; [reflexivity|]. split; [reflexivity|]. split; [reflexivity|].
    split; [reflexivity|]. split; [reflexivity|discriminate].
Qed.

Lemma main_cases (w : world) :
  exists msg,
    let w1 := printed_more
                (printed_more w [MsgReading requirement_decomposer.req_source])
                [msg] in
    requirement_decomposer.main api_key endpoint w =
    match loaded_requirements (files w) with
    | Some (i :: items) =>
        match requirement_decomposer.main_loop api_key endpoint
                (i :: items) [] w1 with
        | (Ok (x :: out), w2) =>
            requirement_decomposer.save_results_to_json
              (x :: out) requirement_decomposer.res_file w2
        | (Ok [], w2) =>
            (Ok tt,
             printed_more w2
               [MsgNothingToSave requirement_decomposer.res_file])
        | (Raise e, w2) => (Raise e, w2)
        end
    | _ => (Ok tt, printed_more w1 [MsgLoadFailed])
    end.
Proof.
  unfold requirement_decomposer.main.
  destruct (load_requirements_cases requirement_decomposer.req_source None
              (printed_more w [MsgReading requirement_decomposer.req_source]))
    as [msg Hload].
  exists msg. cbv zeta. unfold mbind at 1. unfold print at 1.
  change {| requests := requests w;
            stdout := stdout w ++ [MsgReading requirement_decomposer.req_source];
            files := files w |}
    with (printed_more w [MsgReading requirement_decomposer.req_source]).
  unfold mbind at 1. rewrite Hload. unfold limited, loaded_requirements.
  cbn [printed_more files].
  destruct (contents (files w) requirement_decomposer.req_source) as [t|];
    [|reflexivity].
  destruct (Json.loads t) as [[| | | | |data|]|]; try reflexivity.
  destruct (forallb requirement_decomposer.is_requirement_record data);
    [|reflexivity].
  destruct data as [|i items]; [reflexivity|].
  unfold mbind.
  destruct (requirement_decomposer.main_loop api_key endpoint (i :: items) [] _)
    as [[[|x out]|e] w2]; reflexivity.
Qed.

Lemma main_effects (w : world) :
  let r := requirement_decomposer.main api_key endpoint w in
  (forall p, str_eqb p requirement_decomposer.res_file = false ->
             contents (files (snd r)) p = contents (files w) p)
  /\ (forall p, writable (files (snd r)) p = writable (files w) p)
  /\ (requests w <= requests (snd r))%nat
  /\ (key_given api_key = false ->
      requests (snd r) = requests w /\ files (snd r) = files w)
  /\ (match loaded_requirements (files w) with
      | Some (_ :: _) => False
      | _ => True
      end ->
      fst r = Ok tt /\ requests (snd r) = requests w
      /\ files (snd r) = files w
      /\ List.last (stdout (snd r)) MsgSaved = MsgLoadFailed).
Proof.
  cbv zeta. destruct (main_cases w) as [msg ->]. cbv zeta.
  set (w1 := printed_more
               (printed_more w [MsgReading requirement_decomposer.req_source])
               [msg]).
  destruct (loaded_requirements (files w)) as [[|i items]|].
  1,3: cbn [fst snd printed_more files requests stdout];
       repeat split; try reflexivity; try lia; apply last_last.
  pose proof (main_loop_effects (i :: items) [] w1) as H. cbv zeta in H.
  destruct (requirement_decomposer.main_loop api_key endpoint (i :: items) [] w1)
    as [[[|x out]|e] w2]; cbn [fst snd] in H;
    destruct H as [Hf [Hq [Hno _]]];
    change (files w1) with (files w) in Hf;
    change (requests w1) with (requests w) in Hq, Hno.
  - cbn [fst snd printed_more files requests stdout]. rewrite Hf.
    repeat split; try reflexivity; try lia; try contradiction.
    now apply Hno.
  - pose proof (save_results_effects (x :: out)
                  requirement_decomposer.res_file w2) as S.
    cbv zeta in S. destruct S as [_ [Sq [Sother [Sw _]]]].
    split; [intros p Hp; rewrite (Sother p Hp); now rewrite Hf|].
    split; [intros p; rewrite Sw; now rewrite Hf|].
    split; [lia|]. split; [|contradiction].
    intros Hk. destruct (Hno Hk) as [_ Hacc].
    specialize (Hacc _ eq_refl). discriminate.
  - cbn [fst snd]. rewrite Hf.
    repeat split; try reflexivity; try lia; try contradiction.
    now apply Hno.
Qed.

Lemma result_record_plain (row : json) (l : list json) :
  plain row = true -> plain (JList l) = true ->
  plain (requirement_decomposer.result_record row l) = true.
Proof.
  intros Hr Hl.
  change (distinct [requirement_decomposer.k_row_number;
                    requirement_decomposer.k_decomposed_list]
          && (plain row && (plain (JList l) && true)) = true).
  rewrite Hr, Hl. reflexivity.
Qed.

Lemma result_record_encodable (row : json) (l : list json) :
  encodable row = true -> encodable (JList l) = true ->
  encodable (requirement_decomposer.result_record row l) = true.
Proof.
  intros Hr Hl.
  change ((forallb utf8_encodable requirement_decomposer.k_row_number
           && encodable row)
          && ((forallb utf8_encodable requirement_decomposer.k_decomposed_list
               && encodable (JList l)) && true) = true).
  rewrite Hr, Hl. reflexivity.
Qed.

(** X9: [save_results_to_json] never raises and sends no request; it
    leaves every other file as it was, and all files when the path cannot
    be opened.  Otherwise the file holds a prefix of the text of the
    results, which is the whole text exactly when the success line is the
    last one printed. *)
Theorem save_results_contained
        (results : list json) (output_path : str) (w : world) :
  let r := requirement_decomposer.save_results_to_json results output_path w in
  fst r = Ok tt
  /\ requests (snd r) = requests w
  /\ (forall p, str_eqb p output_path = false ->
                contents (files (snd r)) p = contents (files w) p)
  /\ (forall p, writable (files (snd r)) p = writable (files w) p)
  /\ (writable (files w) output_path = false -> files (snd r) = files w)
  /\ (writable (files w) output_path = true ->
      exists text rest,
        contents (files (snd r)) output_path = Some text
        /\ Json.dumps (JList results) = text ++ rest
        /\ (rest = [] <->
            List.last (stdout (snd r)) MsgSaveFailed = MsgSaved)).
Proof. apply save_results_effects. Qed.

(** X10: whatever happens in a run of [main], exception included, no file
    but the output file is created or changed. *)
Theorem main_writes_output_only (w : world) (p : str) :
  str_eqb p requirement_decomposer.res_file = false ->
  let r := requirement_decomposer.main api_key endpoint w in
  contents (files (snd r)) p = contents (files w) p
  /\ writable (files (snd r)) p = writable (files w) p.
Proof.
  intros Hp. cbv zeta. destruct (main_effects w) as [Hc [Hw _]].
  split; [now apply Hc|apply Hw].
Qed.

(** X11: without an API key, [main] sends no request and leaves all
    files as they were. *)
Theorem main_without_key (w : world) :
  key_given api_key = false ->
  let r := requirement_decomposer.main api_key endpoint w in
  requests (snd r) = requests w /\ files (snd r) = files w.
Proof.
  intros Hk. cbv zeta. destruct (main_effects w) as [_ [_ [_ [Hno _]]]].
  exact (Hno Hk).
Qed.

(** X12: when the input file is missing, is not valid JSON, is not a list
    of requirement records, or is an empty list, [main] returns after the
    line that reports the failed load, without a request and without
    touching a file. *)
Theorem main_load_failed (w : world) :
  loaded_requirements (files w) = None
  \/ loaded_requirements (files w) = Some [] ->
  let r := requirement_decomposer.main api_key endpoint w in
  fst r = Ok tt
  /\ requests (snd r) = requests w
  /\ files (snd r) = files w
  /\ List.last (stdout (snd r)) MsgSaved = MsgLoadFailed.
Proof.
  intros H. cbv zeta. destruct (main_effects w) as [_ [_ [_ [_ Hfail]]]].
  apply Hfail. destruct H as [-> | ->]; exact I.
Qed.

(** X13: when the loop of [main] returns, it has sent exactly one request
    for each record it accepted if an API key is set, and none
    otherwise. *)
Theorem main_loop_request_count
        (items out : list json) (w w' : world) :
  requirement_decomposer.main_loop api_key endpoint items [] w = (Ok out, w') ->
  requests w'
  = (requests w
     + if key_given api_key
       then List.length (List.filter accepted items)
       else 0)%nat.
Proof.
  intros E. pose proof (main_loop_effects items [] w) as H. cbv zeta in H.
  rewrite E in H. cbn [fst snd] in H. destruct H as [_ [_ [Hno Hyes]]].
  destruct (key_given api_key).
  - exact (Hyes eq_refl out eq_refl).
  - destruct (Hno eq_refl) as [-> _]. lia.
Qed.

(** X14: for a valid input file within the limits of the interpreter
    whose rows and requirements can be printed, a writable output path,
    responses that the decomposer handles within these limits, and rows
    and parsed responses without floats, duplicate keys or surrogates and
    within the limits, [main] returns, and when it collected a record the
    output file holds the text of exactly the collected records, which
    [load_decomposed_results] reads back unchanged; when it collected
    none, no file is touched. *)
Theorem main_output_loads_back (w : world) (items : list json) :
  loaded_requirements (files w) = Some items ->
  source_within_limits (files w) = true ->
  forallb valid_record items = true ->
  forallb fields_printable items = true ->
  writable (files w) requirement_decomposer.res_file = true ->
  (forall item, In item items ->
                plain (row_of item) = true /\ encodable (row_of item) = true) ->
  (forall m, handled_by_decomposer (endpoint m) = true) ->
  (forall m l, decoded (endpoint m) = Some l ->
               plain (JList l) = true /\ encodable (JList l) = true) ->
  (forall m l, decoded (endpoint m) = Some l ->
               within_limits (JList l) = true) ->
  exists out w',
    requirement_decomposer.main api_key endpoint w = (Ok tt, w')
    /\ loop_run api_key endpoint (requests w) items out (requests w')
    /\ match out with
       | [] => files w' = files w
       | _ :: _ =>
           contents (files w') requirement_decomposer.res_file
           = Some (Json.dumps (JList out))
           /\ fst (evaluater.load_decomposed_results
                     requirement_decomposer.res_file w')
              = Ok (Some (JList out))
       end.
Proof.
  intros Hload _ Hvalid _ Hw Hrows _ Hresp _.
  destruct (main_cases w) as [msg Hmain]. cbv zeta in Hmain.
  rewrite Hload in Hmain.
  set (w1 := printed_more
               (printed_more w [MsgReading requirement_decomposer.req_source])
               [msg]) in *.
  assert (Hp : forallb processable items = true).
  { rewrite forallb_forall in Hvalid |- *. intros x Hx.
    apply valid_record_processable. now apply Hvalid. }
  destruct (main_loop_run api_key endpoint items [] w1 Hp)
    as [out [w2 [E [Hrun Hf]]]].
  cbn [app] in E. change (requests w1) with (requests w) in Hrun.
  change (files w1) with (files w) in Hf.
  destruct items as [|i items'].
  { cbn in E. injection E as <- <-. inversion Hrun; subst.
    exists [], (printed_more w1 [MsgLoadFailed]).
    split; [exact Hmain|]. split; [constructor|reflexivity]. }
  rewrite E in Hmain.
  destruct out as [|x out].
  - exists [], (printed_more w2
                  [MsgNothingToSave requirement_decomposer.res_file]).
    split; [exact Hmain|]. split; [exact Hrun|exact Hf].
  - pose proof (loop_run_records api_key endpoint _ _ _ _ Hrun) as Hrecs.
    assert (Hplain : plain (JList (x :: out)) = true).
    { change (forallb plain (x :: out) = true). apply forallb_forall.
      intros rec Hrec.
      destruct (Hrecs rec Hrec) as [item [m [y [l [Hin [_ [_ [Hd ->]]]]]]]].
      apply result_record_plain.
      - apply (Hrows item Hin).
      - apply (Hresp m _ Hd). }
    assert (Henc : encodable (JList (x :: out)) = true).
    { change (forallb encodable (x :: out) = true). apply forallb_forall.
      intros rec Hrec.
      destruct (Hrecs rec Hrec) as [item [m [y [l [Hin [_ [_ [Hd ->]]]]]]]].
      apply result_record_encodable.
      - apply (Hrows item Hin).
      - apply (Hresp m _ Hd). }
    assert (Hw2 : writable (files w2) requirement_decomposer.res_file = true)
      by (now rewrite Hf).
    pose proof (save_results_written (x :: out)
                  requirement_decomposer.res_file w2 Hw2 Hplain Henc) as Hfile.
    pose proof (save_results_effects (x :: out)
                  requirement_decomposer.res_file w2) as S.
    cbv zeta in S. destruct S as [Sok [Sq _]].
    destruct (requirement_decomposer.save_results_to_json
                (x :: out) requirement_decomposer.res_file w2)
      as [r w'] eqn:Hsave.
    cbn [fst snd] in *. subst r.
    exists (x :: out), w'. split; [exact Hmain|].
    split; [now rewrite Sq|].
    split; [exact Hfile|].
    apply (load_decomposed_results_file _ _ _ _ Hfile).
    now apply loads_dumps.
Qed.

End DriverEffects.

Lemma main_writes_output_only_witness :
  let w := initial_world (single_file requirement_decomposer.req_source
                                      example_input) in
  let r := requirement_decomposer.main (FC := example_codec)
             (Some (py "key")) example_endpoint w in
  contents (files (snd r)) requirement_decomposer.req_source
  = contents (files w) requirement_decomposer.req_source
  /\ writable (files (snd r)) requirement_decomposer.req_source
     = writable (files w) requirement_decomposer.req_source.
Proof.
  apply (main_writes_output_only (FC := example_codec)
           (Some (py "key")) example_endpoint
           (initial_world (single_file requirement_decomposer.req_source
                                       example_input))
           requirement_decomposer.req_source).
  vm_compute. reflexivity.
Defined.

Lemma main_without_key_witness :
  let w := initial_world (single_file requirement_decomposer.req_source
                                      example_input) in
  let r := requirement_decomposer.main (FC := example_codec)
             None example_endpoint w in
  requests (snd r) = requests w /\ files (snd r) = files w.
Proof.
  apply (main_without_key (FC := example_codec) None example_endpoint
           (initial_world (single_file requirement_decomposer.req_source
                                       example_input))).
  reflexivity.
Defined.

Lemma main_load_failed_witness :
  let w := initial_world (single_file requirement_decomposer.req_source
                                      (py "[]")) in
  let r := requirement_decomposer.main (FC := example_codec)
             (Some (py "key")) example_endpoint w in
  fst r = Ok tt
  /\ requests (snd r) = requests w
  /\ files (snd r) = files w
  /\ List.last (stdout (snd r)) MsgSaved = MsgLoadFailed.
Proof.
  apply (main_load_failed (FC := example_codec) (Some (py "key"))
           example_endpoint
           (initial_world (single_file requirement_decomposer.req_source
                                       (py "[]")))).
  right. vm_compute. reflexivity.
Defined.

Lemma main_loop_request_count_witness :
  let w := initial_world empty_files in
  let run := requirement_decomposer.main_loop (FC := example_codec)
               (Some (py "key")) example_endpoint example_requirements [] w in
  requests (snd run)
  = (requests w
     + if key_given (Some (py "key"))
       then List.length (List.filter accepted example_requirements)
       else 0)%nat.
Proof.
  apply (main_loop_request_count (FC := example_codec) (Some (py "key"))
           example_endpoint example_requirements
           [requirement_decomposer.result_record
              (JInt 2)
              [JDict [(py "id", JStr (py "1"));
                      (py "description", JStr (py "【需求描述】x"))]]]
           (initial_world empty_files)).
  vm_compute. reflexivity.
Defined.

Lemma main_output_loads_back_witness :
  let w := initial_world (single_file requirement_decomposer.req_source
                                      example_input) in
  exists out w',
    requirement_decomposer.main (FC := example_codec)
      (Some (py "key")) example_endpoint w = (Ok tt, w')
    /\ loop_run (FC := example_codec) (Some (py "key")) example_endpoint
                (requests w)
                example_requirements out (requests w')
    /\ match out with
       | [] => files w' = files w
       | _ :: _ =>
           contents (files w') requirement_decomposer.res_file
           = Some (Json.dumps (FC := example_codec) (JList out))
           /\ fst (evaluater.load_decomposed_results (FC := example_codec)
                     requirement_decomposer.res_file w')
              = Ok (Some (JList out))
       end.
Proof.
  apply (main_output_loads_back (FC := example_codec) (Some (py "key"))
           example_endpoint
           (initial_world (single_file requirement_decomposer.req_source
                                       example_input))
           example_requirements).
  - vm_compute. reflexivity.
  - vm_compute. reflexivity.
  - vm_compute. reflexivity.
  - vm_compute. reflexivity.
  - reflexivity.
  - intros item [<-|[<-|[<-|[<-|[]]]]]; vm_compute; split; reflexivity.
  - intros [|m]; vm_compute; reflexivity.
  - intros [|m] l H.
    + vm_compute in H. injection H as <-. vm_compute. split; reflexivity.
    + discriminate.
  - intros [|m] l H.
    + vm_compute in H. injection H as <-. vm_compute. reflexivity.
    + discriminate.
Defined.

(* ===================================================================== *)
(** * The prompt of the decomposer                                        *)
(* ===================================================================== *)

Lemma join_snoc (sep : str) (parts : list str) (x y : str) :
  join sep ((x :: parts) ++ [y]) = join sep (x :: parts) ++ sep ++ y.
Proof.
  revert x. induction parts as [|p parts IH]; intros x.
  - reflexivity.
  - change (join sep ((x :: p :: parts) ++ [y]))
      with (x ++ sep ++ join sep ((p :: parts) ++ [y])).
    rewrite IH.
    change (join sep (x :: p :: parts)) with (x ++ sep ++ join sep (p :: parts)).
    now rewrite <- !app_assoc.
Qed.

Lemma numbered_nth (rules : list str) :
  forall (i : Z) (k : nat) (rule : str),
    nth_error rules k = Some rule ->
    nth_error (requirement_decomposer.numbered i rules) k
    = Some (Json.intstr (i + Z.of_nat k) ++ py ". " ++ rule).
Proof.
  induction rules as [|r rules IH]; intros i k rule H.
  - destruct k; discriminate.
  - destruct k as [|k].
    + injection H as <-. cbn [requirement_decomposer.numbered nth_error].
      now rewrite Z.add_0_r.
    + cbn [requirement_decomposer.numbered nth_error] in *.
      rewrite (IH (i + 1)%Z k rule H). do 3 f_equal. lia.
Qed.

(** X15: the prompt of the decomposer is the prompt for the empty
    requirement followed by the requirement as it is and, when an
    instruction is given, the instruction under its heading; no rules and
    an empty list of rules give the same prompt, as do no instruction and
    an empty one; and rule number k + 1 of the list stands in the prompt
    on a line of its own, as its number, a point, a space and the rule. *)
Theorem user_prompt_embeds_requirement
        (original_requirement : str) (rules : option (list str))
        (output_format_instruction : option str) :
  requirement_decomposer.user_prompt_text original_requirement rules
                                          output_format_instruction
  = requirement_decomposer.user_prompt_text [] rules None
    ++ original_requirement ++ prompt_tail output_format_instruction
  /\ requirement_decomposer.user_prompt_text original_requirement
       (Some []) output_format_instruction
     = requirement_decomposer.user_prompt_text original_requirement
         None output_format_instruction
  /\ requirement_decomposer.user_prompt_text original_requirement
       rules (Some [])
     = requirement_decomposer.user_prompt_text original_requirement
         rules None
  /\ forall rs k rule,
      rules = Some rs -> nth_error rs k = Some rule ->
      exists before after,
        requirement_decomposer.user_prompt_text [] rules None
        = before ++ [0x0A%N]
          ++ Json.intstr (Z.of_nat (S k)) ++ py ". " ++ rule
          ++ [0x0A%N] ++ after.
Proof.
  split; [|split; [reflexivity|split; [reflexivity|]]].
  - unfold requirement_decomposer.user_prompt_text. cbv zeta.
    set (header := py "根据已定义的规则，分解以下原始需求。").
    set (heading := (0x0A%N :: py "=== 原始需求 ===")).
    assert (H : forall parts,
               join [0x0A%N] ((header :: parts) ++ [heading; original_requirement])
               = join [0x0A%N] ((header :: parts) ++ [heading; []])
                 ++ original_requirement).
    { intros parts.
      change ([heading; original_requirement])
        with ([heading] ++ [original_requirement]).
      change ([heading; []]) with ([heading] ++ [@nil char]).
      rewrite !app_assoc.
      change ((header :: parts) ++ [heading])
        with (header :: (parts ++ [heading])).
      rewrite !join_snoc. now rewrite app_nil_r, <- app_assoc. }
    assert (G : forall parts c s,
               join [0x0A%N]
                 (((header :: parts) ++ [heading; original_requirement])
                  ++ [0x0A%N :: py "=== 额外输出要求 ==="; c :: s])
               = join [0x0A%N] ((header :: parts) ++ [heading; []])
                 ++ original_requirement
                 ++ prompt_tail (Some (c :: s))).
    { intros parts c s.
      change ([0x0A%N :: py "=== 额外输出要求 ==="; c :: s])
        with ([0x0A%N :: py "=== 额外输出要求 ==="] ++ [c :: s]).
      rewrite app_assoc.
      change (((header :: parts) ++ [heading; original_requirement])
              ++ [0x0A%N :: py "=== 额外输出要求 ==="])
        with (header :: ((parts ++ [heading; original_requirement])
                         ++ [0x0A%N :: py "=== 额外输出要求 ==="])).
      rewrite join_snoc.
      change (header :: (parts ++ [heading; original_requirement])
                        ++ [0x0A%N :: py "=== 额外输出要求 ==="])
        with ((header :: (parts ++ [heading; original_requirement]))
              ++ [0x0A%N :: py "=== 额外输出要求 ==="]).
      rewrite join_snoc.
      change (header :: parts ++ [heading; original_requirement])
        with ((header :: parts) ++ [heading; original_requirement]).
      rewrite H. unfold prompt_tail. now rewrite <- !app_assoc. }
    destruct rules as [[|r rs]|];
      destruct output_format_instruction as [[|c s]|];
      cbn [prompt_tail]; rewrite ?app_nil_r;
      first [ exact (H []) | exact (G [] c s)
            | exact (H (_ :: _)) | exact (G (_ :: _) c s) ].
  - intros rs k rule -> Hk.
    destruct rs as [|r rs]; [destruct k; discriminate|].
    unfold requirement_decomposer.user_prompt_text. cbv zeta.
    set (header := py "根据已定义的规则，分解以下原始需求。").
    set (heading := (0x0A%N :: py "=== 原始需求 ===")).
    set (title := (0x0A%N :: py "=== 分解规则 ===")).
    pose proof (numbered_nth (r :: rs) 1 k rule Hk) as Hn.
    apply nth_error_split in Hn as [l1 [l2 [Hsplit _]]].
    rewrite Hsplit.
    replace (1 + Z.of_nat k)%Z with (Z.of_nat (S k)) by lia.
    set (ln := Json.intstr (Z.of_nat (S k)) ++ py ". " ++ rule).
    exists (join [0x0A%N] ((header :: title :: l1))),
           (join [0x0A%N] (l2 ++ [heading; []])).
    transitivity (join [0x0A%N] ((header :: title :: l1)
                                 ++ ln :: (l2 ++ [heading; []]))).
    { f_equal. cbn [app]. now rewrite <- app_assoc. }
    assert (J : forall (a : list str) (x : str) (b : list str) (y : str),
               join [0x0A%N] ((x :: a) ++ y :: b)
               = join [0x0A%N] (x :: a) ++ [0x0A%N] ++ join [0x0A%N] (y :: b)).
    { clear. intros a. induction a as [|p a IH]; intros x b y.
      - reflexivity.
      - change (join [0x0A%N] ((x :: p :: a) ++ y :: b))
          with (x ++ [0x0A%N] ++ join [0x0A%N] ((p :: a) ++ y :: b)).
        rewrite IH.
        change (join [0x0A%N] (x :: p :: a))
          with (x ++ [0x0A%N] ++ join [0x0A%N] (p :: a)).
        now rewrite <- !app_assoc. }
    rewrite J.
    destruct (l2 ++ [heading; []]) as [|y b] eqn:E.
    { destruct l2; discriminate. }
    change (join [0x0A%N] (ln :: y :: b))
      with (ln ++ [0x0A%N] ++ join [0x0A%N] (y :: b)).
    unfold ln. now rewrite <- !app_assoc.
Qed.

(* ===================================================================== *)
(** * Dictionaries keyed by rows                                          *)
(* ===================================================================== *)

Lemma key_eq_class (a b : json) :
  exact_key a = true -> exact_key b = true ->
  (key_eq a b = true <-> class_of a = class_of b).
Proof.
  destruct a as [|x|x| |s| |], b as [|y|y| |t| |]; try discriminate;
    intros _ _; cbn [key_eq key_number class_of];
    try (split; [discriminate|discriminate]);
    try (split; reflexivity).
  - rewrite Z.eqb_eq. split; [now intros ->|congruence].
  - rewrite Z.eqb_eq. split; [now intros ->|congruence].
  - rewrite Z.eqb_eq. split; [now intros ->|congruence].
  - rewrite Z.eqb_eq. split; [now intros ->|congruence].
  - rewrite str_eqb_eq. split; [now intros ->|congruence].
Qed.

Lemma key_eq_shift (k1 k k' : json) :
  exact_key k1 = true -> exact_key k = true -> exact_key k' = true ->
  key_eq k1 k = true -> key_eq k1 k' = key_eq k k'.
Proof.
  intros H1 H H' E. apply (key_eq_class _ _ H1 H) in E.
  destruct (key_eq k1 k') eqn:A, (key_eq k k') eqn:B; try reflexivity.
  - apply (key_eq_class _ _ H1 H') in A. rewrite E in A.
    apply (key_eq_class _ _ H H') in A. congruence.
  - apply (key_eq_class _ _ H H') in B. rewrite <- E in B.
    apply (key_eq_class _ _ H1 H') in B. congruence.
Qed.

Lemma exact_key_hashable (k : json) : exact_key k = true -> hashable k = true.
Proof. destruct k; try discriminate; reflexivity. Qed.

(** Looking up after a store. *)
Lemma kdict_lookup_set (d : kdict) (k v k' : json) :
  forallb (fun kv => exact_key (fst kv)) d = true ->
  exact_key k = true -> exact_key k' = true ->
  kdict_lookup (kdict_set d k v) k'
  = if key_eq k k' then Some v else kdict_lookup d k'.
Proof.
  intros Hd Hk Hk'. induction d as [|[k1 v1] d IH].
  - reflexivity.
  - cbn [forallb fst] in Hd. apply andb_true_iff in Hd as [H1 Hd].
    cbn [kdict_set]. destruct (key_eq k1 k) eqn:E.
    + cbn [kdict_lookup]. rewrite (key_eq_shift k1 k k' H1 Hk Hk' E).
      destruct (key_eq k k'); reflexivity.
    + cbn [kdict_lookup]. rewrite (IH Hd).
      destruct (key_eq k1 k') eqn:A; [|reflexivity].
      destruct (key_eq k k') eqn:B; [|reflexivity].
      exfalso.
      apply (key_eq_class _ _ H1 Hk') in A.
      apply (key_eq_class _ _ Hk Hk') in B.
      assert (C : key_eq k1 k = true)
        by (apply (key_eq_class _ _ H1 Hk); congruence).
      congruence.
Qed.

Lemma kdict_set_keys (d : kdict) (k v : json) :
  forallb (fun kv => exact_key (fst kv)) d = true ->
  exact_key k = true ->
  forallb (fun kv => exact_key (fst kv)) (kdict_set d k v) = true
  /\ (List.length (kdict_set d k v) <= S (List.length d))%nat.
Proof.
  intros Hd Hk. induction d as [|[k1 v1] d IH].
  - cbn. now rewrite Hk.
  - cbn [forallb fst] in Hd. apply andb_true_iff in Hd as [H1 Hd].
    cbn [kdict_set]. destruct (key_eq k1 k).
    + cbn [forallb fst List.length]. rewrite H1, Hd. split; [reflexivity|lia].
    + destruct (IH Hd) as [Hall Hlen].
      cbn [forallb fst List.length]. rewrite H1, Hall.
      split; [reflexivity|lia].
Qed.

Lemma requirement_record_fields (item : json) :
  requirement_decomposer.is_requirement_record item = true ->
  py_subscript item requirement_decomposer.k_row = Ok (row_of item)
  /\ py_subscript item requirement_decomposer.k_req = Ok (req_of item).
Proof.
  destruct item as [| | | | | |d]; try discriminate.
  cbn [requirement_decomposer.is_requirement_record]. unfold dict_has.
  cbn [py_subscript row_of req_of].
  destruct (dict_lookup d requirement_decomposer.k_row); [|discriminate].
  destruct (dict_lookup d requirement_decomposer.k_req); [|discriminate].
  intros _. split; reflexivity.
Qed.

Lemma build_req_map_last (data : list json) :
  forall m,
    forallb requirement_decomposer.is_requirement_record data = true ->
    forallb (fun item => exact_key (row_of item)) data = true ->
    forallb (fun kv => exact_key (fst kv)) m = true ->
    exists m',
      evaluater.build_req_map data m = Ok m'
      /\ forallb (fun kv => exact_key (fst kv)) m' = true
      /\ (List.length m' <= List.length m + List.length data)%nat
      /\ forall k,
          exact_key k = true ->
          kdict_lookup m' k
          = fold_left (fun found item =>
                         if key_eq (row_of item) k then Some (req_of item)
                         else found)
                      data (kdict_lookup m k).
Proof.
  induction data as [|item rest IH]; intros m Hrec Hrows Hm.
  - exists m. cbn. repeat split; [exact Hm|lia].
  - cbn [forallb] in Hrec, Hrows.
    apply andb_true_iff in Hrec as [Hi Hrec].
    apply andb_true_iff in Hrows as [Hk Hrows].
    destruct (requirement_record_fields item Hi) as [Erow Ereq].
    cbn [evaluater.build_req_map]. rewrite Erow, Ereq. cbn [bind].
    unfold kdict_store. rewrite (exact_key_hashable _ Hk). cbn [bind].
    destruct (kdict_set_keys m (row_of item) (req_of item) Hm Hk)
      as [Hm' Hlen].
    destruct (IH _ Hrec Hrows Hm') as [m' [E [Hall [Hl Hlook]]]].
    exists m'. split; [exact E|]. split; [exact Hall|].
    split; [cbn [List.length]; lia|].
    intros k Hkk. rewrite (Hlook k Hkk). cbn [fold_left].
    now rewrite (kdict_lookup_set m _ _ k Hm Hk Hkk).
Qed.

Lemma build_req_map_unhashable (data : list json) :
  forall m,
    forallb requirement_decomposer.is_requirement_record data = true ->
    existsb (fun item => negb (hashable (row_of item))) data = true ->
    evaluater.build_req_map data m = Raise TypeError.
Proof.
  induction data as [|item rest IH]; intros m Hrec Hbad; [discriminate|].
  cbn [forallb existsb] in Hrec, Hbad.
  apply andb_true_iff in Hrec as [Hi Hrec].
  destruct (requirement_record_fields item Hi) as [Erow Ereq].
  cbn [evaluater.build_req_map]. rewrite Erow, Ereq. cbn [bind].
  unfold kdict_store. destruct (hashable (row_of item)); [|reflexivity].
  cbn [negb orb bind] in *. now apply IH.
Qed.

Section Loaders.
Context {FC : FloatCodec}.

(** X16: for a file of requirement records whose rows are compared by
    value (no floats, lists or dictionaries),
    [load_original_requirements_from_json] returns a map with no more
    entries than records, in which every key has the requirement of the
    last record with that row. *)
Theorem load_original_requirements_last_wins
        (file_path text : str) (data : list json) (w : world) :
  contents (files w) file_path = Some text ->
  Json.loads text = Some (JList data) ->
  forallb requirement_decomposer.is_requirement_record data = true ->
  forallb (fun item => exact_key (row_of item)) data = true ->
  exists req_map,
    fst (evaluater.load_original_requirements_from_json file_path w)
    = Ok (Some req_map)
    /\ (List.length req_map <= List.length data)%nat
    /\ forall k, exact_key k = true ->
                 kdict_lookup req_map k = last_req data k.
Proof.
  intros Hc Hl Hrec Hrows.
  destruct (build_req_map_last data [] Hrec Hrows eq_refl)
    as [m [E [_ [Hlen Hlook]]]].
  exists m. split; [|split; [exact Hlen|exact Hlook]].
  unfold evaluater.load_original_requirements_from_json.
  unfold mbind at 1. unfold read_file. cbn [files]. rewrite Hc, Hl, Hrec.
  unfold mbind, lift, print, ret. rewrite E. reflexivity.
Qed.

(** X17: a requirement record whose row is a list or a dictionary makes
    [load_original_requirements_from_json] raise [TypeError], which it
    does not catch, while [load_requirements_from_json] returns the
    records of the same file. *)
Theorem load_original_requirements_unhashable
        (file_path text : str) (data : list json) (w : world) :
  contents (files w) file_path = Some text ->
  Json.loads text = Some (JList data) ->
  forallb requirement_decomposer.is_requirement_record data = true ->
  existsb (fun item => negb (hashable (row_of item))) data = true ->
  evaluater.load_original_requirements_from_json file_path w
  = (Raise TypeError, w)
  /\ exists msg,
      requirement_decomposer.load_requirements_from_json file_path None w
      = (Ok (Some data), printed_more w [msg]).
Proof.
  intros Hc Hl Hrec Hbad. split.
  - unfold evaluater.load_original_requirements_from_json.
    unfold mbind at 1. unfold read_file. cbn [files]. rewrite Hc, Hl, Hrec.
    unfold mbind, lift. now rewrite (build_req_map_unhashable data [] Hrec Hbad).
  - destruct (load_requirements_cases file_path None w) as [msg E].
    exists msg. rewrite E, Hc, Hl, Hrec. reflexivity.
Qed.

End Loaders.

Lemma kdict_set_values (d : kdict) (k v : json) :
  Forall (fun kv => truthy (snd kv) = true) d ->
  truthy v = true ->
  Forall (fun kv => truthy (snd kv) = true) (kdict_set d k v).
Proof.
  intros Hd Hv. induction d as [|[k1 v1] d IH].
  - repeat constructor. exact Hv.
  - inversion Hd as [|? ? H1 Hd']; subst. cbn [kdict_set].
    destruct (key_eq k1 k).
    + constructor; [exact Hv|exact Hd'].
    + constructor; [exact H1|exact (IH Hd')].
Qed.

Lemma collect_rows_outcome (items : list json) :
  forall m,
    Forall (fun kv => truthy (snd kv) = true) m ->
    match first_failure items with
    | Some e => metrics.collect_rows items m = Raise e
    | None =>
        exists m',
          metrics.collect_rows items m = Ok m'
          /\ Forall (fun kv => truthy (snd kv) = true) m'
          /\ (exact_rows items = true ->
              forallb (fun kv => exact_key (fst kv)) m = true ->
              forallb (fun kv => exact_key (fst kv)) m' = true
              /\ forall k,
                  exact_key k = true ->
                  kdict_lookup m' k
                  = fold_left
                      (fun found item =>
                         if truthy (concatenated_of item)
                            && key_eq (row_of item) k
                         then Some (concatenated_of item)
                         else found)
                      items (kdict_lookup m k))
    end.
Proof.
  induction items as [|item rest IH]; intros m Hm.
  - cbn. exists m. repeat split; auto.
  - cbn [first_failure metrics.collect_rows].
    destruct item as [| | | | | |d]; try reflexivity.
    cbn [py_get bind row_failure concatenated_of].
    set (c := match dict_lookup d metrics.k_concatenated with
              | Some x => x | None => JNull end).
    destruct (truthy c) eqn:Tc.
    + cbn [py_subscript].
      destruct (dict_lookup d metrics.k_row) as [row|] eqn:Hrow;
        [|reflexivity].
      cbn [bind].
      assert (Hc : dict_lookup d metrics.k_concatenated = Some c).
      { unfold c in *. destruct (dict_lookup d metrics.k_concatenated);
          [reflexivity|discriminate]. }
      rewrite Hc. cbn [bind]. unfold kdict_store.
      destruct (hashable row) eqn:Hh; [|reflexivity]. cbn [bind].
      specialize (IH (kdict_set m row c) (kdict_set_values m row c Hm Tc)).
      destruct (first_failure rest); [exact IH|].
      destruct IH as [m' [E [Hv Hex]]].
      exists m'. split; [exact E|]. split; [exact Hv|].
      intros Hrows Hkeys. unfold exact_rows in Hrows.
      cbn [forallb concatenated_of row_of] in Hrows.
      fold c in Hrows. rewrite Tc in Hrows. cbn [negb orb] in Hrows.
      apply andb_true_iff in Hrows as [Hk Hrows].
      change (dict_lookup d requirement_decomposer.k_row)
        with (dict_lookup d metrics.k_row) in Hk.
      rewrite Hrow in Hk.
      destruct (kdict_set_keys m row c Hkeys Hk) as [Hkeys' _].
      destruct (Hex Hrows Hkeys') as [Hall Hlook].
      split; [exact Hall|]. intros k Hkk. rewrite (Hlook k Hkk).
      cbn [fold_left concatenated_of row_of]. fold c.
      change (dict_lookup d requirement_decomposer.k_row)
        with (dict_lookup d metrics.k_row).
      rewrite Hrow, Tc. cbn [andb].
      now rewrite (kdict_lookup_set m row c k Hkeys Hk Hkk).
    + specialize (IH m Hm).
      destruct (first_failure rest); [exact IH|].
      destruct IH as [m' [E [Hv Hex]]].
      exists m'. split; [exact E|]. split; [exact Hv|].
      intros Hrows Hkeys. unfold exact_rows in Hrows.
      cbn [forallb] in Hrows. apply andb_true_iff in Hrows as [_ Hrows].
      destruct (Hex Hrows Hkeys) as [Hall Hlook].
      split; [exact Hall|]. intros k Hkk. rewrite (Hlook k Hkk).
      cbn [fold_left concatenated_of]. fold c. rewrite Tc. reflexivity.
Qed.

(** X18: [load_descriptions] raises the exception of the first item that
    has one: [AttributeError] for an item that is no dictionary, and for an
    item with a text [KeyError] without a row and [TypeError] with a row
    that cannot be a key.  Otherwise every value of the map it returns
    counts as given and, for rows compared by value, every key has the
    text of the last item with that row and a text; an item without a text
    adds nothing. *)
Theorem load_descriptions_outcome
        {FC : FloatCodec} (fs : filesystem) (file_path text : str)
        (items : list json) :
  contents fs file_path = Some text ->
  Json.loads text = Some (JList items) ->
  match first_failure items with
  | Some e => metrics.load_descriptions fs file_path = Raise e
  | None =>
      exists m,
        metrics.load_descriptions fs file_path = Ok m
        /\ Forall (fun kv => truthy (snd kv) = true) m
        /\ (exact_rows items = true ->
            forall k, exact_key k = true ->
                      kdict_lookup m k = last_text items k)
  end.
Proof.
  intros Hc Hl. unfold metrics.load_descriptions. rewrite Hc, Hl.
  cbn [py_iter bind].
  pose proof (collect_rows_outcome items [] (Forall_nil _)) as H.
  destruct (first_failure items); [exact H|].
  destruct H as [m [E [Hv Hex]]]. exists m.
  split; [exact E|]. split; [exact Hv|].
  intros Hrows k Hk. destruct (Hex Hrows eq_refl) as [_ Hlook].
  exact (Hlook k Hk).
Qed.

Lemma load_descriptions_outcome_witness :
  let path := py "ar_23/ar_descriptions_1.json" in
  let text :=
    pyq "[{'row': 2, 'concatenated': 'a', 'description_count': 1}, {'row': 3, 'concatenated': '', 'description_count': 0}, {'row': 2, 'concatenated': 'b', 'description_count': 1}]" in
  exists m,
    metrics.load_descriptions (FC := example_codec) (single_file path text) path
    = Ok m
    /\ kdict_lookup m (JInt 2) = Some (JStr (py "b"))
    /\ kdict_lookup m (JInt 3) = None.
Proof.
  intros path text.
  pose proof (load_descriptions_outcome (FC := example_codec)
                (single_file path text) path text
                [JDict [(py "row", JInt 2); (py "concatenated", JStr (py "a"));
                        (py "description_count", JInt 1)];
                 JDict [(py "row", JInt 3); (py "concatenated", JStr []);
                        (py "description_count", JInt 0)];
                 JDict [(py "row", JInt 2); (py "concatenated", JStr (py "b"));
                        (py "description_count", JInt 1)]]) as H.
  assert (Hc : contents (single_file path text) path = Some text)
    by (vm_compute; reflexivity).
  assert (Hl : Json.loads (FC := example_codec) text
               = Some (JList
                 [JDict [(py "row", JInt 2); (py "concatenated", JStr (py "a"));
                         (py "description_count", JInt 1)];
                  JDict [(py "row", JInt 3); (py "concatenated", JStr []);
                         (py "description_count", JInt 0)];
                  JDict [(py "row", JInt 2); (py "concatenated", JStr (py "b"));
                         (py "description_count", JInt 1)]]))
    by (vm_compute; reflexivity).
  specialize (H Hc Hl). cbv beta iota zeta in H.
  change (first_failure _) with (@None exn) in H. cbv beta iota in H.
  destruct H as [m [E [_ Hlook]]].
  exists m. split; [exact E|]. split.
  - rewrite (Hlook eq_refl (JInt 2) eq_refl). vm_compute. reflexivity.
  - rewrite (Hlook eq_refl (JInt 3) eq_refl). vm_compute. reflexivity.
Defined.

Lemma load_original_requirements_last_wins_witness :
  let path := evaluater.req_source in
  let text := pyq "[{'row': 2, 'req': 'a'}, {'row': 2, 'req': 'b'}]" in
  let data := [JDict [(py "row", JInt 2); (py "req", JStr (py "a"))];
               JDict [(py "row", JInt 2); (py "req", JStr (py "b"))]] in
  exists req_map,
    fst (evaluater.load_original_requirements_from_json (FC := example_codec)
           path (initial_world (single_file path text)))
    = Ok (Some req_map)
    /\ (List.length req_map <= List.length data)%nat
    /\ forall k, exact_key k = true ->
                 kdict_lookup req_map k = last_req data k.
Proof.
  intros path text data.
  apply (load_original_requirements_last_wins (FC := example_codec)
           path text data (initial_world (single_file path text)));
    vm_compute; reflexivity.
Defined.

Lemma load_original_requirements_unhashable_witness :
  let path := evaluater.req_source in
  let text := pyq "[{'row': [1], 'req': 'a'}]" in
  let data := [JDict [(py "row", JList [JInt 1]); (py "req", JStr (py "a"))]] in
  let w := initial_world (single_file path text) in
  evaluater.load_original_requirements_from_json (FC := example_codec) path w
  = (Raise TypeError, w)
  /\ exists msg,
      requirement_decomposer.load_requirements_from_json (FC := example_codec)
        path None w
      = (Ok (Some data), printed_more w [msg]).
Proof.
  intros path text data w.
  apply (load_original_requirements_unhashable (FC := example_codec)
           path text data w); vm_compute; reflexivity.
Defined.

(* ===================================================================== *)
(** * The evaluator                                                       *)
(* ===================================================================== *)

Section EvaluatorEffects.
Context {FC : FloatCodec}.
Variable api_key : option str.
Variable endpoint : nat -> api_outcome.

Lemma descriptions_of_raises (items : list json) :
  forallb has_description items = false ->
  exists e, evaluater.descriptions_of items = Raise e
            /\ (e = KeyError \/ e = TypeError).
Proof.
  induction items as [|item items IH]; intros H; [discriminate|].
  cbn [forallb] in H. cbn [evaluater.descriptions_of].
  destruct item as [| | | | | |d];
    try (exists TypeError; split; [reflexivity|now right]).
  cbn [has_description] in H. unfold dict_has in H. cbn [py_subscript].
  destruct (dict_lookup d evaluater.k_description) as [v|].
  - cbn [andb bind] in *. destruct (IH H) as [e [-> He]].
    exists e. split; [reflexivity|exact He].
  - exists KeyError. split; [reflexivity|now left].
Qed.

(** What a call of the evaluator does: it raises before any request, or
    sends at most one and returns what its response parses to. *)
Lemma evaluate_decomposition_effects (original decomposed : json) (w : world) :
  let r := evaluater.evaluate_decomposition api_key endpoint
             original decomposed w in
  files (snd r) = files w
  /\ (requests w <= requests (snd r) <= S (requests w))%nat
  /\ (forall e, fst r = Raise e -> snd r = w)
  /\ (forall v, fst r = Ok (Some v) ->
                key_given api_key = true
                /\ requests (snd r) = S (requests w)
                /\ parsed (endpoint (requests w)) = Some v)
  /\ (key_given api_key = false -> requests (snd r) = requests w).
Proof.
  cbv zeta. unfold evaluater.evaluate_decomposition.
  unfold evaluater._build_evaluation_user_prompt.
  unfold mbind, lift, ret.
  destruct (py_iter decomposed) as [items|e].
  2:{ cbn [fst snd]. repeat split; intros; try lia; try discriminate; reflexivity. }
  destruct (evaluater.descriptions_of items) as [ds|e].
  2:{ cbn [fst snd]. repeat split; intros; try lia; try discriminate; reflexivity. }
  rewrite evaluater_call_llm_api_eq.
  destruct (key_given api_key) eqn:Hk.
  - unfold parsed.
    destruct (endpoint (requests w)) as [[[|c s]|]| | | | |];
      cbn [content_of fst snd after_request files requests];
      try (repeat split; intros; try lia; try discriminate; reflexivity).
    destruct (Json.loads (c :: s)) as [v|];
      unfold print;
      cbn [fst snd after_request files requests];
      repeat split; intros; try lia; try discriminate; try reflexivity.
    congruence.
  - cbn [fst snd printed_more files requests].
    repeat split; intros; try lia; try discriminate; reflexivity.
Qed.

(** X19: when some sub-requirement of the list has no description,
    [evaluate_decomposition] raises [KeyError] or [TypeError] while it
    builds the prompt: no request is sent and nothing is printed. *)
Theorem evaluate_decomposition_malformed
        (original : json) (items : list json) (w : world) :
  forallb has_description items = false ->
  exists e,
    evaluater.evaluate_decomposition api_key endpoint original (JList items) w
    = (Raise e, w)
    /\ (e = KeyError \/ e = TypeError).
Proof.
  intros H. destruct (descriptions_of_raises items H) as [e [E He]].
  exists e. split; [|exact He].
  unfold evaluater.evaluate_decomposition.
  unfold evaluater._build_evaluation_user_prompt.
  unfold mbind at 1. unfold mbind at 1. unfold lift at 1. cbn [py_iter].
  unfold mbind at 1. unfold lift. now rewrite E.
Qed.

Lemma evaluated_weaken (original_reqs_map : kdict) (items : list json)
      (item : json) (a a' b b' : nat) (rec : json) :
  (a' <= a)%nat -> (b <= b')%nat ->
  evaluated endpoint original_reqs_map items a b rec ->
  evaluated endpoint original_reqs_map (item :: items) a' b' rec.
Proof.
  intros Ha Hb [it [m [e [req [H1 [H2 [H3 [H4 [H5 [H6 [H7 [H8 H9]]]]]]]]]]]].
  exists it, m, e, req. repeat split; auto; try lia. now right.
Qed.

Lemma evaluater_main_loop_records (original_reqs_map : kdict)
      (items : list json) :
  forall acc s out s',
    evaluater.main_loop api_key endpoint original_reqs_map items acc s
    = (Ok out, s') ->
    disk_files s' = disk_files s
    /\ (sent s <= sent s' <= sent s + List.length items)%nat
    /\ exists new,
        out = acc ++ new
        /\ (List.length new <= List.length items)%nat
        /\ Forall (evaluated endpoint original_reqs_map items (sent s) (sent s')) new
        /\ (key_given api_key = false -> new = []).
Proof.
  induction items as [|item rest IH]; intros acc s out s' E.
  - cbn in E. injection E as <- <-. split; [reflexivity|]. split; [lia|].
    exists []. rewrite app_nil_r. repeat split; [lia|constructor].
  - cbn [evaluater.main_loop] in E. unfold sbind at 1 in E.
    unfold slift at 1 in E.
    destruct item as [| | | | | |d]; try discriminate.
    cbn [py_get] in E. unfold sbind at 1 in E. unfold slift at 1 in E.
    change (match dict_lookup d evaluater.k_row_number with
            | Some x => x | None => JNull end)
      with (row_number_of (JDict d)) in E.
    change (match dict_lookup d evaluater.k_decomposed_list with
            | Some x => x | None => JNull end)
      with (decomposed_of (JDict d)) in E.
    set (item := JDict d) in *.
    assert (Hstep : forall acc0 s0,
               evaluater.main_loop api_key endpoint original_reqs_map rest
                 acc0 s0 = (Ok out, s') ->
               disk_files s0 = disk_files s ->
               (sent s <= sent s0 <= S (sent s))%nat ->
               (acc0 = acc
                \/ exists rec, acc0 = acc ++ [rec]
                               /\ key_given api_key = true
                               /\ evaluated endpoint original_reqs_map (item :: rest)
                                            (sent s) (sent s0) rec) ->
               disk_files s' = disk_files s
               /\ (sent s <= sent s' <= sent s + List.length (item :: rest))%nat
               /\ exists new,
                   out = acc ++ new
                   /\ (List.length new <= List.length (item :: rest))%nat
                   /\ Forall (evaluated endpoint original_reqs_map (item :: rest)
                                        (sent s) (sent s')) new
                   /\ (key_given api_key = false -> new = [])).
    { intros acc0 s0 E0 Hf Hs Hacc.
      destruct (IH _ _ _ _ E0) as [Hf' [Hs' [new [-> [Hlen [Hall Hno]]]]]].
      split; [congruence|]. split; [cbn [List.length]; lia|].
      assert (Hall' : Forall (evaluated endpoint original_reqs_map (item :: rest)
                                        (sent s) (sent s')) new).
      { eapply Forall_impl; [|exact Hall]. intros rec Hrec.
        apply (evaluated_weaken _ _ _ (sent s0) (sent s) (sent s') (sent s'));
          [lia|lia|exact Hrec]. }
      destruct Hacc as [->|[rec [-> [Hkey Hrec]]]].
      - exists new. split; [reflexivity|].
        split; [cbn [List.length]; lia|]. split; [exact Hall'|exact Hno].
      - exists (rec :: new). split; [now rewrite <- app_assoc|].
        split; [cbn [List.length]; lia|].
        split; [|congruence].
        constructor; [|exact Hall'].
        destruct Hrec as [it [m [e [req [H1 [H2 [H3 [H4 [H5 [H6 [H7 [H8 H9]]]]]]]]]]]].
        exists it, m, e, req. repeat split; auto; lia. }
    destruct (truthy (row_number_of item)) eqn:Trow; cbn [negb orb] in E.
    2:{ unfold sbind at 1 in E. unfold say at 1 in E.
        refine (Hstep _ _ E eq_refl _ (or_introl eq_refl)).
        cbn [sent]. lia. }
    destruct (truthy (decomposed_of item)) eqn:Tdl; cbn [negb orb] in E.
    2:{ unfold sbind at 1 in E. unfold say at 1 in E.
        refine (Hstep _ _ E eq_refl _ (or_introl eq_refl)).
        cbn [sent]. lia. }
    unfold sbind at 1 in E. unfold slift at 1 in E.
    destruct (kdict_get original_reqs_map (row_number_of item)) as [req|]
      eqn:Hget; [|discriminate].
    destruct (truthy req) eqn:Treq; cbn [negb] in E.
    2:{ unfold sbind at 1 in E. unfold say at 1 in E.
        refine (Hstep _ _ E eq_refl _ (or_introl eq_refl)).
        cbn [sent]. lia. }
    unfold sbind at 1 in E. unfold say at 1 in E.
    unfold sbind at 1 in E. unfold call at 1 in E.
    cbn [sent lines disk_files] in E.
    pose proof (evaluate_decomposition_effects req (decomposed_of item)
                  {| requests := sent s; stdout := [];
                     files := disk_files s |}) as Heff.
    cbv zeta in Heff.
    destruct (evaluater.evaluate_decomposition api_key endpoint req
                (decomposed_of item)
                {| requests := sent s; stdout := []; files := disk_files s |})
      as [r w1].
    cbn [fst snd files requests] in Heff.
    destruct Heff as [Hf1 [Hq1 [_ [Hsome _]]]].
    destruct r as [[e|]|ex]; [| |discriminate].
    + cbn [truthy_opt] in E.
      destruct (Hsome e eq_refl) as [Hkey [Hq Hparsed]].
      destruct (truthy e) eqn:Te.
      * unfold sbind at 1 in E. unfold say at 1 in E.
        cbn [sent lines disk_files] in E.
        refine (Hstep _ _ E Hf1 _ (or_intror _)); [cbn [sent]; lia|].
        eexists. split; [reflexivity|]. split; [exact Hkey|].
        exists item, (sent s), e, req. cbn [sent].
        repeat split; auto; try lia. now left.
      * unfold sbind at 1 in E. unfold say at 1 in E.
        cbn [sent lines disk_files] in E.
        refine (Hstep _ _ E Hf1 _ (or_introl eq_refl)). cbn [sent]. lia.
    + cbn [truthy_opt] in E.
      unfold sbind at 1 in E. unfold say at 1 in E.
      cbn [sent lines disk_files] in E.
      refine (Hstep _ _ E Hf1 _ (or_introl eq_refl)). cbn [sent]. lia.
Qed.

(** X20: when the loop of the evaluator's [main] returns, no file has
    changed, at most one request per result was sent, and every evaluation
    record carries the row number of a result whose row number and list
    count as given, whose row has a requirement in the map that counts as
    given, together with what the response to one of the requests of the
    run parsed to, which counts as given too; without an API key there is
    no record. *)
Theorem evaluater_main_loop_evaluations
        (original_reqs_map : kdict) (items out : list json)
        (s s' : script_world) :
  evaluater.main_loop api_key endpoint original_reqs_map items [] s
  = (Ok out, s') ->
  disk_files s' = disk_files s
  /\ (sent s <= sent s' <= sent s + List.length items)%nat
  /\ (List.length out <= List.length items)%nat
  /\ (key_given api_key = false -> out = [])
  /\ forall rec,
      In rec out ->
      exists item m e req,
        In item items
        /\ rec = evaluater.evaluation_record (row_number_of item) e
        /\ truthy (row_number_of item) = true
        /\ truthy (decomposed_of item) = true
        /\ kdict_get original_reqs_map (row_number_of item) = Ok req
        /\ truthy req = true
        /\ (sent s <= m < sent s')%nat
        /\ parsed (endpoint m) = Some e
        /\ truthy e = true.
Proof.
  intros E.
  destruct (evaluater_main_loop_records _ _ _ _ _ _ E)
    as [Hf [Hs [new [-> [Hlen [Hall Hno]]]]]].
  cbn [app]. split; [exact Hf|]. split; [exact Hs|]. split; [exact Hlen|].
  split; [exact Hno|].
  intros rec Hin. rewrite Forall_forall in Hall. exact (Hall rec Hin).
Qed.

Lemma load_original_requirements_frame (file_path : str) (w : world) :
  let r := evaluater.load_original_requirements_from_json file_path w in
  files (snd r) = files w /\ requests (snd r) = requests w.
Proof.
  cbv zeta. unfold evaluater.load_original_requirements_from_json.
  unfold mbind, read_file, print, ret, lift. cbn [files].
  destruct (contents (files w) file_path) as [t|]; [|split; reflexivity].
  destruct (Json.loads t) as [[| | | | |data|]|]; try (split; reflexivity).
  destruct (forallb requirement_decomposer.is_requirement_record data);
    [|split; reflexivity].
  destruct (evaluater.build_req_map data []); split; reflexivity.
Qed.

Lemma load_decomposed_results_frame (file_path : str) (w : world) :
  let r := evaluater.load_decomposed_results file_path w in
  files (snd r) = files w /\ requests (snd r) = requests w.
Proof.
  cbv zeta. unfold evaluater.load_decomposed_results.
  unfold mbind, read_file, print, ret. cbn [files].
  destruct (contents (files w) file_path) as [t|]; [|split; reflexivity].
  destruct (Json.loads t); split; reflexivity.
Qed.

Lemma dump_to_file_written (o : json) (path : str) (w w' : world) :
  dump_to_file o path w = (Ok tt, w') ->
  requests w' = requests w
  /\ contents (files w') path = Some (Json.dumps o)
  /\ forall p, str_eqb p path = false ->
               contents (files w') p = contents (files w) p.
Proof.
  unfold dump_to_file. destruct (writable (files w) path); [|discriminate].
  destruct (write_chunks (Json.iterencode 0 o) []) as [r text] eqn:Hw.
  intros E. injection E as -> <-.
  destruct (write_chunks_prefix _ _ _ _ Hw) as [rest [Hrest Hok]].
  rewrite (Hok eq_refl), app_nil_r in Hrest. cbn [app] in Hrest.
  cbn [requests files set_contents contents]. rewrite str_eqb_refl.
  split; [reflexivity|]. split; [unfold Json.dumps; now rewrite Hrest|].
  intros p Hp. now rewrite Hp.
Qed.

(** X21: when the evaluator's [main] returns, no file but the output file
    has changed; if its last line reports the save, the output file holds
    exactly the text of the evaluations that was printed before, and there
    is at least one evaluation; otherwise no file has changed at all. *)
Theorem evaluater_main_saves_what_it_prints (s s' : script_world) :
  evaluater.main api_key endpoint s = (Ok tt, s') ->
  (forall p, str_eqb p evaluater.evaluation_output = false ->
             contents (disk_files s') p = contents (disk_files s) p)
  /\ match List.last (lines s') (EvalLine EvStarted) with
     | EvalLine EvSaved =>
         exists evaluations,
           evaluations <> []
           /\ contents (disk_files s') evaluater.evaluation_output
              = Some (Json.dumps (JList evaluations))
           /\ In (EvalLine (EvAllDone (Json.dumps (JList evaluations))))
                 (lines s')
     | _ => disk_files s' = disk_files s
     end.
Proof.
  unfold evaluater.main. unfold sbind at 1. unfold say at 1.
  unfold sbind at 1. unfold call at 1. cbn [sent lines disk_files].
  pose proof (load_original_requirements_frame evaluater.req_source
                {| requests := sent s; stdout := [];
                   files := disk_files s |}) as F1. cbv zeta in F1.
  destruct (evaluater.load_original_requirements_from_json
              evaluater.req_source _) as [r1 w1].
  cbn [fst snd files requests] in F1. destruct F1 as [Hf1 Hq1].
  destruct r1 as [m|]; [|discriminate].
  unfold sbind at 1. unfold call at 1. cbn [sent lines disk_files].
  pose proof (load_decomposed_results_frame evaluater.decomposed_source
                {| requests := requests w1; stdout := [];
                   files := files w1 |}) as F2. cbv zeta in F2.
  destruct (evaluater.load_decomposed_results evaluater.decomposed_source _)
    as [r2 w2].
  cbn [fst snd files requests] in F2. destruct F2 as [Hf2 Hq2].
  destruct r2 as [data|]; [|discriminate].
  assert (Hfail : forall st,
             say EvLoadFailed st = (Ok tt, s') ->
             disk_files st = disk_files s ->
             (forall p, str_eqb p evaluater.evaluation_output = false ->
                        contents (disk_files s') p = contents (disk_files s) p)
             /\ match List.last (lines s') (EvalLine EvStarted) with
                | EvalLine EvSaved =>
                    exists evaluations,
                      evaluations <> []
                      /\ contents (disk_files s') evaluater.evaluation_output
                         = Some (Json.dumps (JList evaluations))
                      /\ In (EvalLine (EvAllDone (Json.dumps (JList evaluations))))
                            (lines s')
                | _ => disk_files s' = disk_files s
                end).
  { intros st E Hst. unfold say in E. injection E as <-.
    cbn [disk_files lines]. rewrite last_last, Hst. split; reflexivity. }
  destruct m as [[|kv req_map]|];
    [intros E; apply (Hfail _ E); cbn [disk_files]; congruence| |
     destruct data; intros E; apply (Hfail _ E); cbn [disk_files]; congruence].
  destruct data as [data|];
    [|intros E; apply (Hfail _ E); cbn [disk_files]; congruence].
  destruct (truthy data);
    [|intros E; apply (Hfail _ E); cbn [disk_files]; congruence].
  unfold sbind at 1. unfold slift at 1.
  destruct (py_iter data) as [items|]; [|discriminate].
  unfold sbind at 1.
  destruct (evaluater.main_loop api_key endpoint (kv :: req_map) items [] _)
    as [[out|] s1] eqn:Eloop; [|discriminate].
  destruct (evaluater_main_loop_records _ _ _ _ _ _ Eloop)
    as [Hfl _]. cbn [disk_files] in Hfl.
  destruct out as [|x out].
  - unfold say. intros E. injection E as <-.
    cbn [disk_files lines]. rewrite last_last, Hfl, Hf2, Hf1.
    split; reflexivity.
  - unfold sbind at 1. unfold say at 1. unfold sbind at 1. unfold call at 1.
    cbn [sent lines disk_files].
    destruct (dump_to_file (JList (x :: out)) evaluater.evaluation_output _)
      as [[[]|] w3] eqn:Edump; [|discriminate].
    apply dump_to_file_written in Edump as [_ [Hhere Hother]].
    cbn [files] in Hother.
    unfold say. intros E. injection E as <-. cbn [disk_files lines].
    rewrite last_last. split.
    + intros p Hp. rewrite (Hother p Hp), Hfl, Hf2, Hf1. reflexivity.
    + exists (x :: out). split; [discriminate|]. split; [exact Hhere|].
      apply in_or_app. left. apply in_or_app. left.
      apply in_or_app. right. now left.
Qed.

End EvaluatorEffects.

Lemma evaluate_decomposition_malformed_witness :
  exists e,
    evaluater.evaluate_decomposition (FC := example_codec)
      (Some (py "key")) example_endpoint (JStr (py "login"))
      (JList [JDict [(py "id", JStr (py "1"))]]) (initial_world empty_files)
    = (Raise e, initial_world empty_files)
    /\ (e = KeyError \/ e = TypeError).
Proof.
  apply (evaluate_decomposition_malformed (FC := example_codec)
           (Some (py "key")) example_endpoint (JStr (py "login"))
           [JDict [(py "id", JStr (py "1"))]] (initial_world empty_files)).
  reflexivity.
Defined.

Lemma evaluater_main_loop_evaluations_witness :
  let items :=
    [JDict [(py "row_number", JInt 2);
            (py "decomposed_list",
             JList [JDict [(py "id", JStr (py "1"));
                           (py "description", JStr (py "a"))]])]] in
  let req_map := [(JInt 2, JStr (py "login"))] in
  let out :=
    [evaluater.evaluation_record
       (JInt 2)
       (JDict [(py "score", JInt 4); (py "justification", JStr (py "ok"))])] in
  let s := initial_script empty_files in
  let s' := snd (evaluater.main_loop (FC := example_codec) (Some (py "key"))
                   example_evaluator req_map items [] s) in
  disk_files s' = disk_files s
  /\ (sent s <= sent s' <= sent s + List.length items)%nat
  /\ (List.length out <= List.length items)%nat
  /\ (key_given (Some (py "key")) = false -> out = [])
  /\ forall rec,
      In rec out ->
      exists item m e req,
        In item items
        /\ rec = evaluater.evaluation_record (row_number_of item) e
        /\ truthy (row_number_of item) = true
        /\ truthy (decomposed_of item) = true
        /\ kdict_get req_map (row_number_of item) = Ok req
        /\ truthy req = true
        /\ (sent s <= m < sent s')%nat
        /\ parsed (FC := example_codec) (example_evaluator m) = Some e
        /\ truthy e = true.
Proof.
  intros items req_map out s s'.
  apply (evaluater_main_loop_evaluations (FC := example_codec)
           (Some (py "key")) example_evaluator req_map items out s s').
  vm_compute. reflexivity.
Defined.

Lemma evaluater_main_saves_what_it_prints_witness :
  let s := initial_script example_evaluation_files in
  let s' := snd (evaluater.main (FC := example_codec) (Some (py "key"))
                   example_evaluator s) in
  (forall p, str_eqb p evaluater.evaluation_output = false ->
             contents (disk_files s') p = contents (disk_files s) p)
  /\ match List.last (lines s') (EvalLine EvStarted) with
     | EvalLine EvSaved =>
         exists evaluations,
           evaluations <> []
           /\ contents (disk_files s') evaluater.evaluation_output
              = Some (Json.dumps (FC := example_codec) (JList evaluations))
           /\ In (EvalLine (EvAllDone (Json.dumps (FC := example_codec)
                                                  (JList evaluations))))
                 (lines s')
     | _ => disk_files s' = disk_files s
     end.
Proof.
  intros s s'.
  apply (evaluater_main_saves_what_it_prints (FC := example_codec)
           (Some (py "key")) example_evaluator s s').
  vm_compute. reflexivity.
Defined.

(** A run of the evaluator on the example files: one request, one
    evaluation, saved. *)
Example evaluater_main_example :
  let s' := snd (evaluater.main (FC := example_codec) (Some (py "key"))
                   example_evaluator
                   (initial_script example_evaluation_files)) in
  sent s' = 1%nat
  /\ List.last (lines s') (EvalLine EvStarted) = EvalLine EvSaved
  /\ option_map (Json.loads (FC := example_codec))
       (contents (disk_files s') evaluater.evaluation_output)
     = Some (Some (JList
         [evaluater.evaluation_record
            (JInt 2)
            (JDict [(py "score", JInt 4);
                    (py "justification", JStr (py "ok"))])])).
Proof. vm_compute. repeat split. Qed.

(* ===================================================================== *)
(** * Further properties of the extractor                                 *)
(* ===================================================================== *)

Lemma process_json_file_selection_witness :
  let path := py "ar_23/decomposed_output.json" in
  let out := [extractor.metric_record (JInt 3) [py "a"]] in
  forallb is_dict example_results_items = true
  /\ List.map metric_row out
     = List.map row_number_of (List.filter scored example_results_items)
  /\ (List.length out <= List.length example_results_items)%nat
  /\ forall rec,
      In rec out ->
      truthy (metric_row rec) = true
      /\ exists ds,
          Forall (fun d => d <> [] /\ trimmed_section d) ds
          /\ metric_text rec = JStr (join [ch " "] ds)
          /\ metric_count rec = JInt (Z.of_nat (List.length ds))
          /\ (metric_count rec = JInt 0 <-> metric_text rec = JStr []).
Proof.
  intros path out.
  apply (process_json_file_selection (FC := example_codec)
           (single_file path example_results_text) path example_results_text
           example_results_items out); vm_compute; reflexivity.
Defined.

Lemma requirement_records_plain (disk : str -> load_outcome) (rows : list Z) :
  plain (JList (List.map (requirement_record disk) rows)) = true
  /\ forallb requirement_decomposer.is_requirement_record
       (List.map (requirement_record disk) rows) = true.
Proof.
  split.
  - change (forallb plain (List.map (requirement_record disk) rows) = true).
    apply forallb_forall. intros x Hx.
    apply in_map_iff in Hx as [row [<- _]]. reflexivity.
  - apply forallb_forall. intros x Hx.
    apply in_map_iff in Hx as [row [<- _]]. reflexivity.
Qed.

(** X22: the records of [extract_orig_req_from_excel_file], written as
    [json.dump] with [indent=2] lays them out, are read back unchanged by
    [load_requirements_from_json], and pass its format check. *)
Theorem extracted_requirements_load_back
        {FC : FloatCodec} (disk : str -> load_outcome)
        (xlsx_path : str) (row_end : Z) (file_path : str) (w : world) :
  let extracted :=
    extractor.extract_orig_req_from_excel_file disk xlsx_path row_end in
  contents (files w) file_path = Some (Json.dumps (JList extracted)) ->
  fst (requirement_decomposer.load_requirements_from_json file_path None w)
  = Ok (Some extracted).
Proof.
  cbv zeta. intros Hc.
  destruct (load_requirements_cases file_path None w) as [msg ->].
  cbn [fst]. rewrite Hc.
  unfold extractor.extract_orig_req_from_excel_file in *.
  rewrite collect_requirements_records in *. cbn [app] in *.
  destruct (requirement_records_plain disk
              (List.filter (starts_block disk) (extractor.range2 row_end)))
    as [Hp Hr].
  rewrite (loads_dumps _ Hp), Hr. reflexivity.
Qed.

Lemma extracted_requirements_load_back_witness :
  let extracted :=
    extractor.extract_orig_req_from_excel_file
      example_disk extractor.data_xlsx 6 in
  let w := initial_world
             (single_file requirement_decomposer.req_source
                (Json.dumps (FC := example_codec) (JList extracted))) in
  fst (requirement_decomposer.load_requirements_from_json
         (FC := example_codec) requirement_decomposer.req_source None w)
  = Ok (Some extracted).
Proof.
  intros extracted w.
  apply (extracted_requirements_load_back (FC := example_codec)
           example_disk extractor.data_xlsx 6
           requirement_decomposer.req_source w).
  vm_compute. reflexivity.
Defined.

Lemma header_row_cell (sheet : worksheet) (i : nat) (v : cell_value) :
  nth_error (extractor.header_row sheet) i = Some v ->
  cell sheet 1 (i + 1) = v.
Proof.
  unfold extractor.header_row. intros H.
  rewrite nth_error_map in H.
  destruct (nth_error (seq 1 (max_column sheet)) i) as [c|] eqn:Hc;
    [|discriminate].
  cbn [option_map] in H. injection H as <-.
  assert (Hlt : (i < List.length (seq 1 (max_column sheet)))%nat)
    by (apply nth_error_Some; congruence).
  rewrite length_seq in Hlt.
  apply (nth_error_nth _ _ 0%nat) in Hc. rewrite seq_nth in Hc by lia.
  subst c. f_equal. lia.
Qed.

(** X23: asked for row 1, [get_requirement_from_excel] returns the
    column name itself, stripped (and [None] for the empty column name):
    the header row is read like any other row. *)
Theorem get_requirement_header_row
        (disk : str -> load_outcome) (file_path column_name : str)
        (sheet_name : option str) (wb : workbook) (sheet : worksheet) :
  disk file_path = Loaded wb ->
  selected_sheet wb sheet_name = Some sheet ->
  (1 <= max_row sheet)%Z ->
  In (CStr column_name) (extractor.header_row sheet) ->
  extractor.get_requirement_from_excel disk file_path column_name 1 sheet_name
  = match column_name with
    | [] => None
    | _ :: _ => Some (strip column_name)
    end.
Proof.
  intros Hd Hs Hmax Hin.
  assert (Hread : extractor.read_cell sheet column_name 1
                  = match column_name with
                    | [] => None
                    | _ :: _ => Some (strip column_name)
                    end).
  { unfold extractor.read_cell.
    destruct (extractor.index_of column_name (extractor.header_row sheet))
      as [i|] eqn:Hi.
    - destruct (index_of_Some _ _ _ Hi) as [Hnth _].
      apply header_row_cell in Hnth. cbv zeta. rewrite Hnth.
      destruct (Z.leb_spec 1 1); [|lia].
      destruct (Z.leb_spec 1 (max_row sheet)); [|lia].
      cbn [andb negb]. destruct column_name; reflexivity.
    - exfalso. apply In_nth_error in Hin as [i Hnth].
      exact (index_of_None _ _ Hi i Hnth). }
  unfold extractor.get_requirement_from_excel. rewrite Hd.
  unfold selected_sheet in Hs.
  destruct sheet_name as [[|c n]|].
  - injection Hs as <-. exact Hread.
  - rewrite Hs. exact Hread.
  - injection Hs as <-. exact Hread.
Qed.

Lemma get_requirement_header_row_witness :
  extractor.get_requirement_from_excel example_disk extractor.data_xlsx
    extractor.column_L1 1 None
  = Some (strip extractor.column_L1).
Proof.
  apply (get_requirement_header_row example_disk extractor.data_xlsx
           extractor.column_L1 None (single_sheet example_sheet)
           example_sheet).
  - reflexivity.
  - reflexivity.
  - vm_compute. discriminate.
  - right. left. reflexivity.
Defined.

(* ===================================================================== *)
(** * From the decomposer to the metrics                                  *)
(* ===================================================================== *)

(** X24: the three lists the alignment step builds have the same length,
    at most the number of predictions; and the line that reports the
    aligned pairs, after which the averages are divided by the number of
    rows, is printed only with at least one row. *)
Theorem align_lists_same_length
        (predictions_map references_map : metrics.rowmap) :
  let a := fst (metrics.align predictions_map references_map) in
  let printed := snd (metrics.align predictions_map references_map) in
  List.length (metrics.predictions_raw a) = List.length (metrics.rows a)
  /\ List.length (metrics.references_raw a) = List.length (metrics.rows a)
  /\ (List.length (metrics.rows a) <= List.length predictions_map)%nat
  /\ forall n,
      In (MsgAligned n) printed ->
      n = List.length (metrics.rows a) /\ (1 <= n)%nat.
Proof.
  cbv zeta. unfold metrics.align. rewrite align_loop_join.
  cbn [metrics.predictions_raw metrics.references_raw metrics.rows app fst snd].
  set (j := inner_join predictions_map references_map).
  assert (Hlen : (List.length j <= List.length predictions_map)%nat).
  { unfold j. clear. induction predictions_map as [|[row p] rest IH];
      cbn [inner_join List.length]; [lia|].
    destruct (metrics.lookup references_map row); cbn [List.length]; lia. }
  destruct j as [|t j']; cbn [List.map fst snd metrics.predictions_raw
                              metrics.references_raw metrics.rows List.length].
  - split; [reflexivity|]. split; [reflexivity|]. split; [lia|].
    intros n [H|[]]. discriminate.
  - rewrite !length_map. cbn [List.length] in Hlen.
    split; [reflexivity|]. split; [reflexivity|]. split; [lia|].
    intros n [H|[]]. injection H as <-. split; [reflexivity|lia].
Qed.

Section Pipeline.
Context {FC : FloatCodec}.
Variable api_key : option str.
Variable endpoint : nat -> api_outcome.

Lemma result_record_is_result (item x : json) (l : list json) :
  accepted item = true ->
  forallb has_text_description (x :: l) = true ->
  is_decomposition_result
    (requirement_decomposer.result_record (row_of item) (x :: l)) = true.
Proof.
  intros Ha Hl. unfold accepted in Ha. apply andb_true_iff in Ha as [Hrow _].
  change (truthy (row_of item) && forallb has_text_description (x :: l) = true).
  now rewrite Hrow, Hl.
Qed.

(** X25: when every response that parses to a list holds only
    sub-requirements with a text description, [process_json_file] on the
    output of the driver's loop returns one metric record for each output
    record, in order and with the same row: no row of the decomposer is
    lost on the way to the metrics. *)
Theorem driver_output_is_scored
        (items out : list json) (w w' : world)
        (fs : filesystem) (file_path text : str) :
  requirement_decomposer.main_loop api_key endpoint items [] w = (Ok out, w') ->
  (forall m l, decoded (endpoint m) = Some l ->
               forallb has_text_description l = true) ->
  contents fs file_path = Some text ->
  Json.loads text = Some (JList out) ->
  exists records,
    extractor.process_json_file fs file_path = Ok records
    /\ List.map metric_row records = List.map output_row out
    /\ List.length records = List.length out.
Proof.
  intros E Hresp Hc Hl.
  pose proof (main_loop_returns api_key endpoint items [] w out w' E) as Hp.
  destruct (main_loop_run api_key endpoint items [] w Hp)
    as [out0 [w0 [E0 [Hrun _]]]].
  cbn [app] in E0. rewrite E in E0. injection E0 as <- <-.
  pose proof (loop_run_records api_key endpoint _ _ _ _ Hrun) as Hrecs.
  assert (Hall : forallb is_decomposition_result out = true).
  { apply forallb_forall. intros rec Hrec.
    destruct (Hrecs rec Hrec) as [item [m [x [l [_ [Ha [_ [Hd ->]]]]]]]].
    apply result_record_is_result; [exact Ha|]. exact (Hresp m _ Hd). }
  unfold extractor.process_json_file. rewrite Hc, Hl. cbn [py_iter bind].
  rewrite (process_items_records out [] Hall). cbn [app].
  eexists. split; [reflexivity|]. split.
  - rewrite List.map_map. apply map_ext_in. intros rec Hrec.
    destruct (Hrecs rec Hrec) as [item [m [x [l [_ [_ [_ [_ ->]]]]]]]].
    reflexivity.
  - apply length_map.
Qed.

End Pipeline.

Lemma driver_output_is_scored_witness :
  let out :=
    [requirement_decomposer.result_record
       (JInt 2)
       [JDict [(py "id", JStr (py "1"));
               (py "description", JStr (py "【需求描述】x"))]]] in
  let path := requirement_decomposer.res_file in
  let text := Json.dumps (FC := example_codec) (JList out) in
  exists records,
    extractor.process_json_file (FC := example_codec)
      (single_file path text) path = Ok records
    /\ List.map metric_row records = List.map output_row out
    /\ List.length records = List.length out.
Proof.
  intros out path text.
  apply (driver_output_is_scored (FC := example_codec) (Some (py "key"))
           example_endpoint example_requirements out
           (initial_world empty_files)
           (snd (requirement_decomposer.main_loop (FC := example_codec)
                   (Some (py "key")) example_endpoint example_requirements []
                   (initial_world empty_files)))
           (single_file path text) path text).
  - vm_compute. reflexivity.
  - intros [|m] l H.
    + vm_compute in H. injection H as <-. vm_compute. reflexivity.
    + discriminate.
  - vm_compute. reflexivity.
  - vm_compute. reflexivity.
Defined.

(* ===================================================================== *)
(** * A requirement that is no text                                       *)
(* ===================================================================== *)

Section Abort.
Context {FC : FloatCodec}.
Variable api_key : option str.
Variable endpoint : nat -> api_outcome.

Lemma main_loop_raises (before : list json) (bad : json) (after : list json) :
  forall acc w,
    forallb processable before = true ->
    is_dict bad = true ->
    accepted bad = true ->
    not_text (req_of bad) = true ->
    fst (requirement_decomposer.main_loop api_key endpoint
           (before ++ bad :: after) acc w)
    = Raise TypeError.
Proof.
  induction before as [|item rest IH]; intros acc w Hp Hd Ha Hn.
  - cbn [app]. destruct bad as [| | | | | |d]; try discriminate.
    rewrite main_loop_cons. cbv zeta.
    unfold accepted in Ha. apply andb_true_iff in Ha as [Hrow Hreq].
    rewrite Hrow, Hreq. cbn [negb orb].
    rewrite decompose_requirement_not_text; [reflexivity|].
    intros t Ht. rewrite Ht in Hn. discriminate.
  - cbn [forallb] in Hp. apply andb_true_iff in Hp as [Hi Hp].
    cbn [app].
    destruct (main_loop_step api_key endpoint item (rest ++ bad :: after)
                acc w Hi)
      as [w1 [_ [[_ [_ E]]|[[_ [_ [_ E]]]|[[_ [_ [_ [_ E]]]]
                 |[x [l [_ [_ [_ [_ E]]]]]]]]]]];
      rewrite E; now apply IH.
Qed.

(** X26: when a record that the driver accepts has a requirement that is
    no string, and the records before it are processed without exception
    (each is passed over or has a text as its requirement, its fields can
    be printed, and the responses are handled within the limits of the
    interpreter), [main] ends with [TypeError], raised while the prompt is
    built; no file is written, also when records before it had been
    collected, and no more requests were sent than there are records
    before it. *)
Theorem main_aborts_on_requirement_that_is_no_text
        (w : world) (before : list json) (bad : json) (after : list json) :
  loaded_requirements (files w) = Some (before ++ bad :: after) ->
  source_within_limits (files w) = true ->
  forallb processable before = true ->
  forallb fields_printable before = true ->
  (forall m, handled_by_decomposer (endpoint m) = true) ->
  accepted bad = true ->
  printable (row_of bad) = true ->
  not_text (req_of bad) = true ->
  let r := requirement_decomposer.main api_key endpoint w in
  fst r = Raise TypeError
  /\ files (snd r) = files w
  /\ (requests (snd r) <= requests w + List.length before)%nat.
Proof.
  intros Hload _ Hp _ _ Ha _ Hn. cbv zeta.
  assert (Hd : is_dict bad = true).
  { unfold loaded_requirements in Hload.
    destruct (contents (files w) requirement_decomposer.req_source);
      [|discriminate].
    destruct (Json.loads s) as [[| | | | |data|]|]; try discriminate.
    destruct (forallb requirement_decomposer.is_requirement_record data) eqn:H;
      [|discriminate].
    injection Hload as ->. rewrite forallb_app in H.
    apply andb_true_iff in H as [_ H]. cbn [forallb] in H.
    apply andb_true_iff in H as [H _]. now destruct bad. }
  destruct (main_cases api_key endpoint w) as [msg Hmain]. cbv zeta in Hmain.
  rewrite Hload in Hmain.
  set (w1 := printed_more
               (printed_more w [MsgReading requirement_decomposer.req_source])
               [msg]) in *.
  pose proof (main_loop_raises before bad after [] w1 Hp Hd Ha Hn) as Hr.
  pose proof (main_loop_effects api_key endpoint (before ++ bad :: after) [] w1)
    as He. cbv zeta in He. destruct He as [Hf [Hq _]].
  change (files w1) with (files w) in Hf.
  change (requests w1) with (requests w) in Hq.
  destruct (requirement_decomposer.main_loop api_key endpoint
              (before ++ bad :: after) [] w1) as [[out|e] w2] eqn:E;
    cbn [fst snd] in *; [discriminate|].
  injection Hr as ->.
  assert (Hmain' : requirement_decomposer.main api_key endpoint w
                   = (Raise TypeError, w2)).
  { rewrite Hmain. destruct before as [|b0 bs]; cbn [app] in *;
      rewrite E; reflexivity. }
  rewrite Hmain'. cbn [fst snd]. split; [reflexivity|]. split; [exact Hf|].
  (* the requests are those of the records before the bad one *)
  change (requests w) with (requests w1).
  clear -Hp Ha Hd Hn E.
  revert E. generalize (@nil json) as acc. generalize w1 as w0.
  induction before as [|item rest IH]; intros w0 acc E.
  - cbn [app] in E. destruct bad as [| | | | | |d]; try discriminate.
    rewrite main_loop_cons in E. cbv zeta in E.
    unfold accepted in Ha. apply andb_true_iff in Ha as [Hrow Hreq].
    rewrite Hrow, Hreq in E. cbn [negb orb] in E.
    rewrite decompose_requirement_not_text in E.
    + injection E as <-. cbn [printed_more requests List.length]. lia.
    + intros t Ht. rewrite Ht in Hn. discriminate.
  - cbn [forallb] in Hp. apply andb_true_iff in Hp as [Hi Hp].
    cbn [app] in E.
    destruct (main_loop_step api_key endpoint item (rest ++ bad :: after)
                acc w0 Hi)
      as [w3 [_ [[_ [Hq E3]]|[[_ [_ [Hq E3]]]|[[_ [_ [_ [Hq E3]]]]
                 |[x [l [_ [_ [_ [Hq E3]]]]]]]]]]];
      rewrite E3 in E; specialize (IH Hp _ _ E);
      cbn [List.length]; lia.
Qed.

End Abort.

Lemma main_aborts_on_requirement_that_is_no_text_witness :
  let w := initial_world (single_file requirement_decomposer.req_source
                                      example_input_with_number) in
  let r := requirement_decomposer.main (FC := example_codec)
             (Some (py "key")) example_endpoint w in
  fst r = Raise TypeError
  /\ files (snd r) = files w
  /\ (requests (snd r)
      <= requests w
         + List.length [JDict [(py "row", JInt 2);
                               (py "req", JStr (py "login"))]])%nat.
Proof.
  intros w.
  apply (main_aborts_on_requirement_that_is_no_text (FC := example_codec)
           (Some (py "key")) example_endpoint w
           [JDict [(py "row", JInt 2); (py "req", JStr (py "login"))]]
           (JDict [(py "row", JInt 3); (py "req", JInt 7)])
           [JDict [(py "row", JInt 4); (py "req", JStr (py "logout"))]]);
    try (intros [|m]); vm_compute; reflexivity.
Defined.

(* ===================================================================== *)
(** * The limits of the interpreter: what lies outside                    *)
(* ===================================================================== *)

(** A printable value is within the limits. *)
Lemma printable_within_limits (v : json) :
  printable v = true -> within_limits v = true.
Proof.
  unfold printable. intros H. now apply andb_true_iff in H as [H _].
Qed.

(** The members of a list within the limits are within the limits. *)
Lemma within_limits_member (l : list json) (x : json) :
  within_limits (JList l) = true -> In x l -> within_limits x = true.
Proof.
  unfold within_limits. intros H Hx.
  apply andb_true_iff in H as [Hi Hd]. cbn [integers_fit] in Hi.
  rewrite forallb_forall in Hi. apply andb_true_iff. split; [now apply Hi|].
  apply Nat.leb_le in Hd. apply Nat.leb_le. cbn [depth] in Hd.
  assert (Hm : (depth x <= list_max (List.map depth l))%nat).
  { pose proof (proj1 (list_max_le (List.map depth l)
                         (list_max (List.map depth l))) (Nat.le_refl _))
      as Hall.
    rewrite Forall_forall in Hall. apply Hall. now apply in_map. }
  lia.
Qed.

(** The escape of a lone surrogate parses to a string that cannot be
    printed: it is not among the responses the decomposer handles, while
    the evaluator, which prints no parsed value, handles it. *)
Example surrogate_response_outside :
  Json.loads (FC := example_codec) surrogate_response
  = Some (JStr [0xD800%N])
  /\ handled_by_decomposer (FC := example_codec)
       (Content (Some surrogate_response)) = false
  /\ handled_by_evaluator (FC := example_codec)
       (Content (Some surrogate_response)) = true.
Proof. repeat split; vm_compute; reflexivity. Qed.

(** A text of two thousand opening brackets and a number of five thousand
    digits are beyond the limits. *)
Example deep_text_outside :
  text_within_limits (repeat (ch "[") 2000) = false.
Proof. vm_compute. reflexivity. Qed.

Example long_number_outside :
  text_within_limits (repeat (ch "1") 5000) = false.
Proof. vm_compute. reflexivity. Qed.

(** A record whose requirement is a lone surrogate cannot be shown in the
    warning of the driver. *)
Example surrogate_record_outside :
  fields_printable (JDict [(py "row", JInt 0); (py "req", JStr [0xD800%N])])
  = false.
Proof. vm_compute. reflexivity. Qed.
